(** * The slide encoder of PathLLM (gigapath/slide_encoder.py)

    A shallow embedding of [LayerScale], [CrossAttention], [TransformerBlock]
    and [LongNetViT], and the properties of the position indexer, the masks,
    the construction and the forward pass.

    Conventions of the embedding.
    - A tensor of rank r is an r-fold nested list; its elements are values of
      an abstract type [F] (a floating-point number).
    - The coordinates are a tensor of dtype float32 or float64. The
      position indexer computes on them in that dtype; its arithmetic is
      the IEEE 754 arithmetic that [SpecFloat] of the Standard Library
      specifies, with the significand width and the exponent range of the
      dtype.
    - What torch, timm, torchscale and the module [pos_embed] provide is the
      interface [Backend]; what is assumed of it is the class [BackendLaws].
    - Exceptions are the type [error]; a computation that draws random
      numbers threads the generator state; the forward pass threads the
      [World], the model object together with the generator.
    - [nn.Module.train()] and [eval()] set the flag [training] of a module and
      of all its children at once: the embedding keeps the one flag of the
      root module and hands it down to the children.
    - [create_model] is a program over the operations of the outside it
      calls (module [Loader]).
    - Left out: the line the constructor prints, the unused
      [get_optimal_segment_length], and the registry factory
      [gigapath_slide_enc2l512d]. *)

From stdpp Require Import base list strings pretty.
From Stdlib Require Import ZArith QArith Qround Lia SpecFloat.

Close Scope Q_scope.
Open Scope Z_scope.

(** ** Exceptions and the state monad *)

Inductive error : Type :=
  | IndexError
  | RuntimeError
  | AssertionError
  | ValueError.

Inductive Res (A : Type) : Type :=
  | Ok (a : A)
  | Raise (e : error).
Arguments Ok {A} a.
Arguments Raise {A} e.

Definition M (S A : Type) : Type := S -> Res A * S.

Definition ret {S A} (a : A) : M S A := fun s => (Ok a, s).

Definition bind {S A C} (c : M S A) (k : A -> M S C) : M S C :=
  fun s => match c s with
           | (Ok a, s') => k a s'
           | (Raise e, s') => (Raise e, s')
           end.

Definition raise {S A} (e : error) : M S A := fun s => (Raise e, s).

Definition gets {S A} (f : S -> A) : M S A := fun s => (Ok (f s), s).

(** A computation that cannot touch the state. *)
Definition pure_res {S A} (r : Res A) : M S A := fun s => (r, s).

Notation "'let*' x ':=' c 'in' k" := (bind c (fun x => k))
  (at level 10, x name, c at level 100, k at level 200).

Notation "'let*' ' p ':=' c 'in' k" := (bind c (fun x => match x with p => k end))
  (at level 10, p pattern, c at level 100, k at level 200).

Definition bindR {A C} (r : Res A) (k : A -> Res C) : Res C :=
  match r with
  | Ok a => k a
  | Raise e => Raise e
  end.

Fixpoint mapR {A C} (f : A -> Res C) (xs : list A) : Res (list C) :=
  match xs with
  | [] => Ok []
  | x :: xs' => bindR (f x) (fun c => bindR (mapR f xs') (fun cs => Ok (c :: cs)))
  end.

Fixpoint zipR {A C} (f : A -> A -> Res C) (xs ys : list A) : Res (list C) :=
  match xs, ys with
  | x :: xs', y :: ys' =>
      bindR (f x y) (fun c => bindR (zipR f xs' ys') (fun cs => Ok (c :: cs)))
  | _, _ => Ok []
  end.

(** [for i in idx: a = body(i, a)] *)
Fixpoint for_range {S A} (idx : list nat) (body : nat -> A -> M S A) (a : A) : M S A :=
  match idx with
  | [] => ret a
  | i :: idx' => let* a' := body i a in for_range idx' body a'
  end.

(** ** Floating-point numbers

    A float is a [spec_float]: a signed zero, a signed infinity, NaN, or a
    sign, a significand and an exponent. The operations of a dtype round to
    nearest, ties to even. *)

Module Dtype.
(** The dtypes [torch.float32] and [torch.float64], whose kernels compute
    in the dtype itself. The reduced dtypes (float16, bfloat16), whose
    kernels compute in float32, and the integer dtypes, which the division
    turns into float32, are not part of the embedding. *)
Inductive t : Type := float32 | float64.

(** The bits of the significand, the hidden one included, and the exponent
    of the infinities *)
Definition prec (d : t) : Z :=
  match d with float32 => 24 | float64 => 53 end.

Definition emax (d : t) : Z :=
  match d with float32 => 128 | float64 => 1024 end.
End Dtype.

Module Float.
Definition div (d : Dtype.t) : spec_float -> spec_float -> spec_float :=
  SFdiv (Dtype.prec d) (Dtype.emax d).

Definition mul (d : Dtype.t) : spec_float -> spec_float -> spec_float :=
  SFmul (Dtype.prec d) (Dtype.emax d).

Definition add (d : Dtype.t) : spec_float -> spec_float -> spec_float :=
  SFadd (Dtype.prec d) (Dtype.emax d).

(** A Python [int] as a float of the dtype: the nearest one *)
Definition of_int (d : Dtype.t) (n : Z) : spec_float :=
  binary_normalize (Dtype.prec d) (Dtype.emax d) n 0 false.

(** A Python [float], which is a float64, as a float of the dtype: the
    nearest one *)
Definition cast (d : Dtype.t) (x : spec_float) : spec_float :=
  match x with
  | S754_finite s m e => binary_round (Dtype.prec d) (Dtype.emax d) s m e
  | _ => x
  end.

(** The greatest integer that is not above a float [(-1)^s * m * 2^e]: a
    shift of the signed significand, which rounds down; none for an
    infinity and for NaN *)
Definition floorZ (x : spec_float) : option Z :=
  match x with
  | S754_zero _ => Some 0
  | S754_finite s m e => Some (Z.shiftl (cond_Zopp s (Zpos m)) e)
  | _ => None
  end.

(** [torch.floor] on one element: the float of that integer, which the
    dtype holds exactly; zeros, infinities and NaN are returned as they
    are, and a positive number below one gives the positive zero. *)
Definition floor (d : Dtype.t) (x : spec_float) : spec_float :=
  match x with
  | S754_finite s m e =>
      binary_normalize (Dtype.prec d) (Dtype.emax d) (Z.shiftl (cond_Zopp s (Zpos m)) e) 0 s
  | _ => x
  end.

Definition INT64_MIN : Z := - 2 ^ 63.

(** [.long()] on one element: the number truncated towards zero. For NaN,
    an infinity and a number outside the range of int64 the result is
    [INT64_MIN], the value the conversion instruction of x86-64 gives. *)
Definition to_long (x : spec_float) : Z :=
  match x with
  | S754_zero _ => 0
  | S754_finite s m e =>
      let n := cond_Zopp s (Z.shiftl (Zpos m) e) in
      if (INT64_MIN <=? n) && (n <? 2 ^ 63) then n else INT64_MIN
  | _ => INT64_MIN
  end.
End Float.

(** The tensor [coords] of shape [N, L, 2], with its dtype: the last axis
    is a pair. *)
Module Coords.
Record t : Type := {
  dtype : Dtype.t;
  data : list (list (spec_float * spec_float));
}.
End Coords.

(** ** What the libraries provide *)

Class Backend : Type := {
  (** a tensor element *)
  F : Type;
  (** a Python float as a tensor element *)
  of_Q : Q -> F;
  fadd : F -> F -> F;
  fmul : F -> F -> F;
  (** [.float()] and [.to(torch.bfloat16)] on one element *)
  to_float32 : F -> F;
  to_bfloat16 : F -> F;
  (** the state of torch's random number generator *)
  RNG : Type;
  (** [str.format] of a number *)
  py_format : Q -> string;
  (** [pos_embed.get_2d_sincos_pos_embed(embed_dim, grid_size, cls_token)],
      of this repository but not among the sources read here: a parameter *)
  get_2d_sincos_pos_embed : nat -> Z -> bool -> list (list F);
  (** [torchscale.model.LongNet.make_longnet_from_name(name, drop_path_rate,
      dropout, segment_length)], a parameter for the same reason, and the
      call of the encoder it returns, with [src_tokens=None], read at
      ["encoder_out"] *)
  EncoderParams : Type;
  make_longnet_from_name : string -> Q -> Q -> string -> M RNG EncoderParams;
  encoder_forward :
    EncoderParams -> bool -> list (list (list F)) -> option (list (list bool)) ->
    M RNG (list (list (list F)));
  (** [nn.MultiheadAttention]: the weights of a new module with the given
      [embed_dim] and [num_heads], and its call with [num_heads], [dropout],
      the training flag, query, key, value and [key_padding_mask] *)
  MHAParams : Type;
  mha_init : nat -> nat -> M RNG MHAParams;
  mha_forward :
    MHAParams -> nat -> Q -> bool ->
    list (list (list F)) -> list (list (list F)) -> list (list (list F)) ->
    option (list (list bool)) ->
    M RNG (list (list (list F)) * list (list (list F)));
  (** [nn.LayerNorm]: [normalized_shape], [eps], weight, bias, input *)
  layer_norm : nat -> Q -> list F -> list F -> list (list (list F)) -> Res (list (list (list F)));
  (** [nn.Dropout] and timm's [DropPath]: probability, training flag, input *)
  dropout_forward : Q -> bool -> list (list (list F)) -> M RNG (list (list (list F)));
  drop_path_forward : Q -> bool -> list (list (list F)) -> M RNG (list (list (list F)));
  (** timm's [Mlp]: the weights for [in_features] and [hidden_features], and
      its call with [drop] and the training flag *)
  MlpParams : Type;
  mlp_init : nat -> nat -> M RNG MlpParams;
  mlp_forward : MlpParams -> Q -> bool -> list (list (list F)) -> M RNG (list (list (list F)));
  (** what [self.apply(self._init_weights)] does to the [nn.Linear] and
      [nn.LayerNorm] children inside a library module *)
  encoder_apply_init : EncoderParams -> M RNG EncoderParams;
  mha_apply_init : MHAParams -> M RNG MHAParams;
  mlp_apply_init : MlpParams -> M RNG MlpParams;
  (** the width of the vectors the weights were made for *)
  encoder_dim : EncoderParams -> nat;
  mha_dim : MHAParams -> nat;
  mlp_dim : MlpParams -> nat;
}.

(** ** Tensors *)

Definition tensor3 `{Backend} : Type := list (list (list F)).

(** [t.shape[0]] and [t.shape[1]]; a tensor with an empty first axis carries
    no row, [shape1] reads 0 there. *)
Definition shape0 {A} (t : list (list A)) : nat := length t.

Definition shape1 {A} (t : list (list A)) : nat :=
  match t with
  | [] => 0%nat
  | r :: _ => length r
  end.

(** [torch.cat((a, b), dim=-1)] on tensors of rank two whose first axis is
    the batch: the sizes of the first axis have to agree. *)
Definition cat_dim1 {A} (a b : list (list A)) : Res (list (list A)) :=
  if decide (length a = length b) then Ok (zip_with app a b) else Raise RuntimeError.

(** The sizes of the last axis that a nested list of rank three shows: the
    lengths of its vectors. *)
Definition last_sizes {A} (t : list (list (list A))) : list nat :=
  concat (map (map length) t).

(** [torch.cat((a, b), dim=1)] on tensors of rank three: the sizes of the
    first and of the last axis have to agree. A nested list shows the size
    of its last axis where it has a vector; the last axes are compared
    there. *)
Definition cat3_dim1 {A} (a b : list (list (list A))) : Res (list (list (list A))) :=
  if decide (length a = length b
             ∧ Forall (fun wa => Forall (fun wb => wa = wb) (last_sizes b)) (last_sizes a))
  then Ok (zip_with app a b) else Raise RuntimeError.

(** [torch.ones((n, q), dtype=...)] of an integer or boolean type *)
Definition ones (n q : nat) : list (list Z) := replicate n (replicate q 1).

(** [torch.zeros(a, b, c)] *)
Definition zeros `{Backend} (a b c : nat) : tensor3 :=
  replicate a (replicate b (replicate c (of_Q 0%Q))).

(** One axis of an elementwise operation: equal sizes pair up, a size of one
    is broadcast, any other pair of sizes is refused. *)
Definition broadcast {A} (f : A -> A -> Res A) (xs ys : list A) : Res (list A) :=
  if decide (length xs = length ys) then zipR f xs ys
  else match xs, ys with
       | [x], _ => mapR (f x) ys
       | _, [y] => mapR (fun x => f x y) xs
       | _, _ => Raise RuntimeError
       end.

(** [a + b] on tensors of rank three *)
Definition tadd `{Backend} (a b : tensor3) : Res tensor3 :=
  broadcast (broadcast (broadcast (fun x y => Ok (fadd x y)))) a b.

(** [x * gamma] with [gamma] of rank one *)
Definition tmul_last `{Backend} (x : tensor3) (gamma : list F) : Res tensor3 :=
  mapR (mapR (fun v => broadcast (fun a g => Ok (fmul a g)) v gamma)) x.

(** [table[i]] for an integer index: a negative index counts from the end,
    an index outside [-len, len) raises. *)
Definition index_row {A} (table : list A) (i : Z) : Res A :=
  let n := Z.of_nat (length table) in
  let j := if i <? 0 then i + n else i in
  if (0 <=? j) && (j <? n) then
    match table !! Z.to_nat j with
    | Some r => Ok r
    | None => Raise IndexError
    end
  else Raise IndexError.

(** [buf[:, pos, :].squeeze(0)] for a buffer whose first axis has size one *)
Definition gather `{Backend} (buf : tensor3) (pos : list (list Z)) : Res tensor3 :=
  match buf with
  | [table] => mapR (mapR (index_row table)) pos
  | _ => Raise RuntimeError
  end.

(** The sizes of the axes of a nested list of rank three. *)
Definition sizes {A} (t : list (list (list A))) : list (list nat) := map (map length) t.

(** [dst.copy_(src)]: the values of [src] in the shape of [dst]; operands of
    different shapes are refused (no broadcast here). *)
Definition copy_ `{Backend} (dst src : tensor3) : Res tensor3 :=
  if decide (sizes dst = sizes src) then Ok src else Raise RuntimeError.

(** ** The library modules the encoder is built from

    Each record keeps the arguments its constructor was called with and the
    weights the library made for them. *)

Module LayerNorm.
Section defs.
Context `{B : Backend}.

Record t : Type := {
  normalized_shape : nat;
  eps : Q;
  weight : list F;
  bias : list F;
}.

(** [nn.LayerNorm(dim)] *)
Definition __init__ (dim : nat) : t :=
  {| normalized_shape := dim;
     eps := (1 # 100000)%Q;
     weight := replicate dim (of_Q 1%Q);
     bias := replicate dim (of_Q 0%Q) |}.

Definition forward (self : t) (x : tensor3) : Res tensor3 :=
  layer_norm (normalized_shape self) (eps self) (weight self) (bias self) x.
End defs.
End LayerNorm.

Module MultiheadAttention.
Section defs.
Context `{B : Backend}.

Record t : Type := {
  embed_dim : nat;
  num_heads : nat;
  dropout : Q;
  batch_first : bool;
  params : MHAParams;
}.

(** [nn.MultiheadAttention(embed_dim, num_heads, dropout=dropout,
    batch_first=batch_first)]; the constructor refuses an [embed_dim] or a
    [num_heads] that is not positive with a [ValueError], then asserts that
    [embed_dim] is divisible by [num_heads]. *)
Definition __init__ (embed_dim num_heads : nat) (dropout : Q) (batch_first : bool)
    : M RNG t :=
  if decide (embed_dim = 0%nat ∨ num_heads = 0%nat) then raise ValueError
  else if decide ((embed_dim mod num_heads)%nat = 0%nat) then
    let* w := mha_init embed_dim num_heads in
    ret {| embed_dim := embed_dim; num_heads := num_heads; dropout := dropout;
           batch_first := batch_first; params := w |}
  else raise AssertionError.

Definition forward (self : t) (training : bool) (query key value : tensor3)
    (key_padding_mask : option (list (list bool))) : M RNG (tensor3 * tensor3) :=
  mha_forward (params self) (num_heads self) (dropout self) training
    query key value key_padding_mask.
End defs.
End MultiheadAttention.

Module Mlp.
Section defs.
Context `{B : Backend}.

Record t : Type := {
  in_features : nat;
  hidden_features : nat;
  drop : Q;
  params : MlpParams;
}.

(** [Mlp(in_features=..., hidden_features=..., drop=...)] *)
Definition __init__ (in_features hidden_features : nat) (drop : Q) : M RNG t :=
  let* w := mlp_init in_features hidden_features in
  ret {| in_features := in_features; hidden_features := hidden_features;
         drop := drop; params := w |}.

Definition forward (self : t) (training : bool) (x : tensor3) : M RNG tensor3 :=
  mlp_forward (params self) (drop self) training x.
End defs.
End Mlp.

(** [DropPath(p)] or [nn.Identity()] *)
Module DropPath.
Section defs.
Context `{B : Backend}.

Inductive t : Type :=
  | DropPath (drop_prob : Q)
  | Identity.

Definition forward (self : t) (training : bool) (x : tensor3) : M RNG tensor3 :=
  match self with
  | DropPath p => drop_path_forward p training x
  | Identity => ret x
  end.
End defs.
End DropPath.

(** The encoder [make_longnet_from_name] returns, with the arguments of the
    call. *)
Module LongNet.
Section defs.
Context `{B : Backend}.

Record t : Type := {
  name : string;
  drop_path_rate : Q;
  dropout : Q;
  segment_length : string;
  params : EncoderParams;
}.

Definition make (name : string) (drop_path_rate dropout : Q) (segment_length : string)
    : M RNG t :=
  let* w := make_longnet_from_name name drop_path_rate dropout segment_length in
  ret {| name := name; drop_path_rate := drop_path_rate; dropout := dropout;
         segment_length := segment_length; params := w |}.

(** [enc(src_tokens=None, token_embeddings=x,
    encoder_padding_mask=m)["encoder_out"]] *)
Definition forward (self : t) (training : bool) (token_embeddings : tensor3)
    (encoder_padding_mask : option (list (list bool))) : M RNG tensor3 :=
  encoder_forward (params self) training token_embeddings encoder_padding_mask.
End defs.
End LongNet.

(** ** class LayerScale *)

Module LayerScale.
Section defs.
Context `{B : Backend}.

Record t : Type := {
  inplace : bool;
  gamma : list F;
}.

(** [init_values * torch.ones(dim)] *)
Definition __init__ (dim : nat) (init_values : Q) (inplace : bool) : t :=
  {| inplace := inplace;
     gamma := replicate dim (fmul (of_Q init_values) (of_Q 1%Q)) |}.

(** [x.mul_(self.gamma) if self.inplace else x * self.gamma]: the first
    branch stores the product in [x], which keeps its shape, and refuses a
    product of another shape. *)
Definition forward (self : t) (x : tensor3) : Res tensor3 :=
  if inplace self then
    bindR (tmul_last x (gamma self))
      (fun y => if decide (sizes y = sizes x) then Ok y else Raise RuntimeError)
  else tmul_last x (gamma self).
End defs.
End LayerScale.

(** ** class CrossAttention *)

Module CrossAttention.
Section defs.
Context `{B : Backend}.

Record t : Type := {
  attn : MultiheadAttention.t;
  norm : LayerNorm.t;
  dropout : Q;
}.

Definition default_dropout : Q := 0.1%Q.

Definition __init__ (embed_dim num_heads : nat) (dropout : Q) : M RNG t :=
  let* a := MultiheadAttention.__init__ embed_dim num_heads dropout true in
  ret {| attn := a; norm := LayerNorm.__init__ embed_dim; dropout := dropout |}.

(** The result is [output], or the pair [(output, attn_weights)] when
    [return_weights] is set: the second component is present exactly then. *)
Definition forward (self : t) (training : bool) (query key value : tensor3)
    (key_padding_mask : option (list (list bool))) (return_weights : bool)
    : M RNG (tensor3 * option tensor3) :=
  let* '(attn_output, attn_weights) :=
    MultiheadAttention.forward (attn self) training query key value key_padding_mask in
  let* dropped := dropout_forward (dropout self) training attn_output in
  let* summed := pure_res (tadd query dropped) in
  let* output := pure_res (LayerNorm.forward (norm self) summed) in
  if return_weights then ret (output, Some attn_weights) else ret (output, None).
End defs.
End CrossAttention.

(** ** class TransformerBlock *)

Module TransformerBlock.
Section defs.
Context `{B : Backend}.

Record t : Type := {
  pre_norm : bool;
  attention : MultiheadAttention.t;
  norm1 : LayerNorm.t;
  layerscale1 : LayerScale.t;
  drop_path1 : DropPath.t;
  ffn : Mlp.t;
  norm2 : LayerNorm.t;
  layerscale2 : LayerScale.t;
  drop_path2 : DropPath.t;
}.

Definition default_init_values : Q := (1 # 100000)%Q.
Definition default_dropout : Q := 0.1%Q.
Definition default_drop_path : Q := 0.1%Q.
Definition default_pre_norm : bool := true.

(** [DropPath(drop_path) if drop_path > 0 else nn.Identity()] *)
Definition make_drop_path (drop_path : Q) : DropPath.t :=
  if Qlt_le_dec 0 drop_path then DropPath.DropPath drop_path else DropPath.Identity.

Definition __init__ (dim num_heads ff_dim : nat) (init_values dropout drop_path : Q)
    (pre_norm : bool) : M RNG t :=
  let* a := MultiheadAttention.__init__ dim num_heads dropout true in
  let* f := Mlp.__init__ dim ff_dim dropout in
  ret {| pre_norm := pre_norm;
         attention := a;
         norm1 := LayerNorm.__init__ dim;
         layerscale1 := LayerScale.__init__ dim init_values false;
         drop_path1 := make_drop_path drop_path;
         ffn := f;
         norm2 := LayerNorm.__init__ dim;
         layerscale2 := LayerScale.__init__ dim init_values false;
         drop_path2 := make_drop_path drop_path |}.

(** [(attention_mask == 0) if attention_mask is not None else None] *)
Definition invert_mask (attention_mask : option (list (list Z)))
    : option (list (list bool)) :=
  match attention_mask with
  | Some m => Some (map (map (fun e => e =? 0)) m)
  | None => None
  end.

Definition forward (self : t) (training : bool) (x : tensor3)
    (attention_mask : option (list (list Z))) : M RNG tensor3 :=
  let attention_mask := invert_mask attention_mask in
  if pre_norm self then
    let* x_norm := pure_res (LayerNorm.forward (norm1 self) x) in
    let* '(attn_output, _) :=
      MultiheadAttention.forward (attention self) training x_norm x_norm x_norm
        attention_mask in
    let* scaled := pure_res (LayerScale.forward (layerscale1 self) attn_output) in
    let* kept := DropPath.forward (drop_path1 self) training scaled in
    let* x := pure_res (tadd x kept) in
    let* x_norm := pure_res (LayerNorm.forward (norm2 self) x) in
    let* ffn_output := Mlp.forward (ffn self) training x_norm in
    let* scaled := pure_res (LayerScale.forward (layerscale2 self) ffn_output) in
    let* kept := DropPath.forward (drop_path2 self) training scaled in
    pure_res (tadd x kept)
  else
    let* '(attn_output, _) :=
      MultiheadAttention.forward (attention self) training x x x attention_mask in
    let* normed := pure_res (LayerNorm.forward (norm1 self) attn_output) in
    let* scaled := pure_res (LayerScale.forward (layerscale1 self) normed) in
    let* kept := DropPath.forward (drop_path1 self) training scaled in
    let* x := pure_res (tadd x kept) in
    let* ffn_output := Mlp.forward (ffn self) training x in
    let* normed := pure_res (LayerNorm.forward (norm2 self) ffn_output) in
    let* scaled := pure_res (LayerScale.forward (layerscale2 self) normed) in
    let* kept := DropPath.forward (drop_path2 self) training scaled in
    pure_res (tadd x kept).
End defs.
End TransformerBlock.

(** ** class LongNetViT *)

Fixpoint repeatM {S A} (n : nat) (c : M S A) : M S (list A) :=
  match n with
  | O => ret []
  | S n' => let* x := c in let* xs := repeatM n' c in ret (x :: xs)
  end.

Fixpoint mapS {S A C} (f : A -> M S C) (xs : list A) : M S (list C) :=
  match xs with
  | [] => ret []
  | x :: xs' => let* y := f x in let* ys := mapS f xs' in ret (y :: ys)
  end.

(** The arguments of [LongNetViT.__init__]; [norm_layer] is never read and
    left out, [mlp_ratio] is the entry of [kwargs] that is read. *)
Module Args.
Record t : Type := {
  in_chans : nat;
  embed_dim : nat;
  depth : nat;
  slide_ngrids : Z;
  tile_size : Z;
  max_wsi_size : Z;
  dropout : Q;
  drop_path_rate : Q;
  num_layers : nat;
  num_heads : nat;
  ff_dim : nat;
  mlp_ratio : option Q;
}.

Definition default : t :=
  {| in_chans := 4096; embed_dim := 512; depth := 12; slide_ngrids := 1000;
     tile_size := 256; max_wsi_size := 262144; dropout := 0.25%Q;
     drop_path_rate := 0.1%Q; num_layers := 2; num_heads := 8; ff_dim := 2048;
     mlp_ratio := None |}.
End Args.

Module LongNetViT.
Section defs.
Context `{B : Backend}.

Record t : Type := {
  slide_ngrids : Z;
  (** the buffer [pos_embed]: its values, and its shape, which a nested
      list does not show where an axis is empty *)
  pos_embed : tensor3;
  pos_embed_shape : nat * nat * nat;
  num_layers : nat;
  encoder_name : string;
  encoder_wsi : list LongNet.t;
  self_attention : list TransformerBlock.t;
  cross_attention : list CrossAttention.t;
  training : bool;
}.

(** The branch of [_init_weights] for an [nn.LayerNorm]; the branch for an
    [nn.Linear] acts inside the library modules ([mha_apply_init],
    [mlp_apply_init], [encoder_apply_init]). *)
Definition _init_weights (m : LayerNorm.t) : LayerNorm.t :=
  {| LayerNorm.normalized_shape := LayerNorm.normalized_shape m;
     LayerNorm.eps := LayerNorm.eps m;
     LayerNorm.weight := map (fun _ => of_Q 1%Q) (LayerNorm.weight m);
     LayerNorm.bias := map (fun _ => of_Q 0%Q) (LayerNorm.bias m) |}.

Definition apply_MultiheadAttention (m : MultiheadAttention.t) : M RNG MultiheadAttention.t :=
  let* w := mha_apply_init (MultiheadAttention.params m) in
  ret {| MultiheadAttention.embed_dim := MultiheadAttention.embed_dim m;
         MultiheadAttention.num_heads := MultiheadAttention.num_heads m;
         MultiheadAttention.dropout := MultiheadAttention.dropout m;
         MultiheadAttention.batch_first := MultiheadAttention.batch_first m;
         MultiheadAttention.params := w |}.

Definition apply_Mlp (m : Mlp.t) : M RNG Mlp.t :=
  let* w := mlp_apply_init (Mlp.params m) in
  ret {| Mlp.in_features := Mlp.in_features m;
         Mlp.hidden_features := Mlp.hidden_features m;
         Mlp.drop := Mlp.drop m;
         Mlp.params := w |}.

Definition apply_LongNet (m : LongNet.t) : M RNG LongNet.t :=
  let* w := encoder_apply_init (LongNet.params m) in
  ret {| LongNet.name := LongNet.name m;
         LongNet.drop_path_rate := LongNet.drop_path_rate m;
         LongNet.dropout := LongNet.dropout m;
         LongNet.segment_length := LongNet.segment_length m;
         LongNet.params := w |}.

Definition apply_TransformerBlock (m : TransformerBlock.t) : M RNG TransformerBlock.t :=
  let* a := apply_MultiheadAttention (TransformerBlock.attention m) in
  let* f := apply_Mlp (TransformerBlock.ffn m) in
  ret {| TransformerBlock.pre_norm := TransformerBlock.pre_norm m;
         TransformerBlock.attention := a;
         TransformerBlock.norm1 := _init_weights (TransformerBlock.norm1 m);
         TransformerBlock.layerscale1 := TransformerBlock.layerscale1 m;
         TransformerBlock.drop_path1 := TransformerBlock.drop_path1 m;
         TransformerBlock.ffn := f;
         TransformerBlock.norm2 := _init_weights (TransformerBlock.norm2 m);
         TransformerBlock.layerscale2 := TransformerBlock.layerscale2 m;
         TransformerBlock.drop_path2 := TransformerBlock.drop_path2 m |}.

Definition apply_CrossAttention (m : CrossAttention.t) : M RNG CrossAttention.t :=
  let* a := apply_MultiheadAttention (CrossAttention.attn m) in
  ret {| CrossAttention.attn := a;
         CrossAttention.norm := _init_weights (CrossAttention.norm m);
         CrossAttention.dropout := CrossAttention.dropout m |}.

(** [shape[-1]] of the shape of a tensor of rank three *)
Definition shape_last (shape : nat * nat * nat) : nat := snd shape.

(** The buffer [pos_embed] is the only field the copy writes; [apply]
    visits the children in the order they were registered. *)
Definition initialize_vit_weights (self : t) : M RNG t :=
  let pos_embed_np :=
    get_2d_sincos_pos_embed (shape_last (pos_embed_shape self)) (slide_ngrids self) false in
  let* filled :=
    pure_res (copy_ (pos_embed self) [map (map to_float32) pos_embed_np]) in
  let* encs := mapS apply_LongNet (encoder_wsi self) in
  let* selfs := mapS apply_TransformerBlock (self_attention self) in
  let* crosses := mapS apply_CrossAttention (cross_attention self) in
  ret {| slide_ngrids := slide_ngrids self;
         pos_embed := filled;
         pos_embed_shape := pos_embed_shape self;
         num_layers := num_layers self;
         encoder_name := encoder_name self;
         encoder_wsi := encs;
         self_attention := selfs;
         cross_attention := crosses;
         training := training self |}.

Definition __init__ (a : Args.t) : M RNG t :=
  let slide_ngrids := Args.slide_ngrids a in
  let num_patches := slide_ngrids ^ 2 in
  let pos_embed := zeros 1 (Z.to_nat num_patches) (Args.embed_dim a) in
  let num_layers := Args.num_layers a in
  let encoder_name :=
    "LongNet_" +:+ pretty (Args.depth a) +:+ "_layers_"
      +:+ pretty (Args.embed_dim a) +:+ "_dim" in
  let encoder_name :=
    match Args.mlp_ratio a with
    | Some r => if Qeq_bool r 4%Q then encoder_name
                else encoder_name +:+ "_mlp" +:+ py_format r
    | None => encoder_name
    end in
  let segment_length := "[512, 1024, 2048, 4096, 8192]" in
  let* encoder_wsi :=
    repeatM num_layers
      (LongNet.make encoder_name (Args.drop_path_rate a) (Args.dropout a) segment_length) in
  let* self_attention :=
    repeatM num_layers
      (TransformerBlock.__init__ (Args.embed_dim a) (Args.num_heads a) (Args.ff_dim a)
         TransformerBlock.default_init_values TransformerBlock.default_dropout
         TransformerBlock.default_drop_path TransformerBlock.default_pre_norm) in
  let* cross_attention :=
    repeatM num_layers
      (CrossAttention.__init__ (Args.embed_dim a) (Args.num_heads a)
         CrossAttention.default_dropout) in
  initialize_vit_weights
    {| slide_ngrids := slide_ngrids;
       pos_embed := pos_embed;
       pos_embed_shape := (1%nat, Z.to_nat num_patches, Args.embed_dim a);
       num_layers := num_layers;
       encoder_name := encoder_name;
       encoder_wsi := encoder_wsi;
       self_attention := self_attention;
       cross_attention := cross_attention;
       training := true |}.

(** Every operation is elementwise and in the dtype of [coords]:
    [coords / patch_size] divides by the Python float as a float of that
    dtype, [torch.floor] rounds the quotient down,
    [coords_[..., 0] * self.slide_ngrids + coords_[..., 1]] multiplies by
    the Python int as a float of that dtype and adds, each with its
    rounding, and [.long()] converts the sum to int64. *)
Definition coords_to_pos (self : t) (coords : Coords.t) (patch_size : spec_float)
    : list (list Z) :=
  let d := Coords.dtype coords in
  map (map (fun c =>
              let c0 := Float.floor d (Float.div d (fst c) (Float.cast d patch_size)) in
              let c1 := Float.floor d (Float.div d (snd c) (Float.cast d patch_size)) in
              Float.to_long
                (Float.add d (Float.mul d c0 (Float.of_int d (slide_ngrids self))) c1)))
      (Coords.data coords).

(** What one forward call can read and change: the model and the
    generator. *)
Record World : Type := {
  model : t;
  generator : RNG;
}.

Definition lift {A} (c : M RNG A) : M World A :=
  fun w => match c (generator w) with
           | (r, g) => (r, {| model := model w; generator := g |})
           end.

(** [modules[i]] on a [nn.ModuleList] *)
Definition module_at {A} (modules : t -> list A) (i : nat) : M World A :=
  let* l := gets (fun w => modules (model w)) in
  match l !! i with
  | Some m => ret m
  | None => raise IndexError
  end.

(** The mask for the self-attention over queries and instructions: when
    the caller gives one, [torch.ones((N, Q))] of its type, then the
    caller's, along the last axis; when not, none. *)
Definition self_fusion_mask (querys : tensor3) (self_attention_mask : option (list (list Z)))
    : Res (option (list (list Z))) :=
  match self_attention_mask with
  | Some m =>
      let query_mask_extension := ones (shape0 querys) (shape1 querys) in
      bindR (cat_dim1 query_mask_extension m) (fun c => Ok (Some c))
  | None => Ok None
  end.

(** The body of the loop over the layers, on the pair (contexts, querys) *)
Definition layer (instructs : tensor3) (query_length : nat)
    (self_attention_mask : option (list (list Z)))
    (key_padding_mask : option (list (list bool)))
    (i : nat) (st : tensor3 * tensor3) : M World (tensor3 * tensor3) :=
  let '(contexts, querys) := st in
  let* mode := gets (fun w => training (model w)) in
  let* enc := module_at encoder_wsi i in
  let* contexts := lift (LongNet.forward enc mode contexts key_padding_mask) in
  let* combined_querys := pure_res (cat3_dim1 querys instructs) in
  let* blk := module_at self_attention i in
  let* self_attn_output :=
    lift (TransformerBlock.forward blk mode combined_querys self_attention_mask) in
  let querys := map (take query_length) self_attn_output in
  let* ca := module_at cross_attention i in
  let* '(querys, _) :=
    lift (CrossAttention.forward ca mode querys contexts contexts key_padding_mask false) in
  ret (contexts, querys).

Definition forward (querys contexts instructs : tensor3) (coords : Coords.t)
    (patch_size : spec_float) (self_attention_mask : option (list (list Z)))
    (key_padding_mask : option (list (list bool))) : M World tensor3 :=
  let query_length := shape1 querys in
  let* self_attention_mask := pure_res (self_fusion_mask querys self_attention_mask) in
  let* self := gets model in
  let pos := coords_to_pos self coords patch_size in
  let* embedded := pure_res (gather (pos_embed self) pos) in
  let* contexts := pure_res (tadd contexts embedded) in
  let* layers := gets (fun w => num_layers (model w)) in
  let* '(_, querys) :=
    for_range (seq 0 layers)
      (layer instructs query_length self_attention_mask key_padding_mask)
      (contexts, querys) in
  ret (map (map (map to_bfloat16)) querys).
End defs.
End LongNetViT.

(** ** Shapes, well-formed modules and what is assumed of the libraries *)

Definition shape2 {A} (n l : nat) (m : list (list A)) : Prop :=
  length m = n ∧ Forall (fun r => length r = l) m.

Definition shape3 {A} (n l d : nat) (x : list (list (list A))) : Prop :=
  length x = n ∧ Forall (shape2 l d) x.

(** An optional mask of shape [n, l] *)
Definition mask_shape {A} (n l : nat) (m : option (list (list A))) : Prop :=
  match m with
  | Some rows => shape2 n l rows
  | None => True
  end.

(** The meaning of [key_padding_mask] in [nn.MultiheadAttention]: key [j] of
    batch entry [n] is left out of the attention when the mask is given and
    its entry is [True]. *)
Definition excluded (key_padding_mask : option (list (list bool))) (n j : nat) : bool :=
  match key_padding_mask with
  | Some rows =>
      match rows !! n with
      | Some r => match r !! j with Some b => b | None => false end
      | None => false
      end
  | None => false
  end.

(** From every state that satisfies [P] the computation returns a value,
    and value and final state satisfy [Q]. *)
Definition total {S A} (P : S -> Prop) (c : M S A) (Q : A -> S -> Prop) : Prop :=
  forall s, P s -> exists a s', c s = (Ok a, s') ∧ Q a s'.

(** The computation neither reads nor advances the state. *)
Definition deterministic {S A} (c : M S A) : Prop :=
  exists r, forall s, c s = (r, s).

Section wf.
Context `{B : Backend}.

Definition wf_LayerNorm (d : nat) (m : LayerNorm.t) : Prop :=
  LayerNorm.normalized_shape m = d
  ∧ length (LayerNorm.weight m) = d
  ∧ length (LayerNorm.bias m) = d.

Definition wf_MultiheadAttention (d : nat) (m : MultiheadAttention.t) : Prop :=
  mha_dim (MultiheadAttention.params m) = d
  ∧ MultiheadAttention.num_heads m ≠ 0%nat
  ∧ (d mod MultiheadAttention.num_heads m)%nat = 0%nat.

Definition wf_TransformerBlock (d : nat) (m : TransformerBlock.t) : Prop :=
  wf_MultiheadAttention d (TransformerBlock.attention m)
  ∧ wf_LayerNorm d (TransformerBlock.norm1 m)
  ∧ wf_LayerNorm d (TransformerBlock.norm2 m)
  ∧ length (LayerScale.gamma (TransformerBlock.layerscale1 m)) = d
  ∧ length (LayerScale.gamma (TransformerBlock.layerscale2 m)) = d
  ∧ mlp_dim (Mlp.params (TransformerBlock.ffn m)) = d.

Definition wf_CrossAttention (d : nat) (m : CrossAttention.t) : Prop :=
  wf_MultiheadAttention d (CrossAttention.attn m)
  ∧ wf_LayerNorm d (CrossAttention.norm m).

(** A model as [__init__] leaves it: a table of [slide_ngrids ** 2] rows of
    width [d] and [num_layers] modules of width [d] in each of the three
    lists. *)
Definition wf_model (d : nat) (m : LongNetViT.t) : Prop :=
  (exists table,
      LongNetViT.pos_embed m = [table]
      ∧ length table = Z.to_nat (LongNetViT.slide_ngrids m ^ 2)
      ∧ Forall (fun r => length r = d) table)
  ∧ length (LongNetViT.encoder_wsi m) = LongNetViT.num_layers m
  ∧ length (LongNetViT.self_attention m) = LongNetViT.num_layers m
  ∧ length (LongNetViT.cross_attention m) = LongNetViT.num_layers m
  ∧ Forall (fun e => encoder_dim (LongNet.params e) = d) (LongNetViT.encoder_wsi m)
  ∧ Forall (wf_TransformerBlock d) (LongNetViT.self_attention m)
  ∧ Forall (wf_CrossAttention d) (LongNetViT.cross_attention m).

(** The contracts of the library calls: on operands of the shapes their
    documentation asks for they return a result of the documented shape;
    outside training they draw no random number. *)
Class BackendLaws : Prop := {
  layer_norm_shape : forall d eps w b n l x,
    length w = d -> length b = d -> shape3 n l d x ->
    exists y, layer_norm d eps w b x = Ok y ∧ shape3 n l d y;
  dropout_shape : forall p tr n l d x,
    shape3 n l d x ->
    total (fun _ => True) (dropout_forward p tr x) (fun y _ => shape3 n l d y);
  drop_path_shape : forall p tr n l d x,
    shape3 n l d x ->
    total (fun _ => True) (drop_path_forward p tr x) (fun y _ => shape3 n l d y);
  mha_shape : forall w h p tr n lq lk q k v m,
    h ≠ 0%nat -> (mha_dim w mod h)%nat = 0%nat ->
    shape3 n lq (mha_dim w) q -> shape3 n lk (mha_dim w) k ->
    shape3 n lk (mha_dim w) v -> mask_shape n lk m ->
    total (fun _ => True) (mha_forward w h p tr q k v m)
      (fun r _ => shape3 n lq (mha_dim w) (fst r) ∧ shape3 n lq lk (snd r));
  mlp_shape : forall w p tr n l x,
    shape3 n l (mlp_dim w) x ->
    total (fun _ => True) (mlp_forward w p tr x) (fun y _ => shape3 n l (mlp_dim w) y);
  encoder_shape : forall w tr n l x m,
    shape3 n l (encoder_dim w) x -> mask_shape n l m ->
    total (fun _ => True) (encoder_forward w tr x m)
      (fun y _ => shape3 n l (encoder_dim w) y);
  dropout_eval : forall p x, deterministic (dropout_forward p false x);
  drop_path_eval : forall p x, deterministic (drop_path_forward p false x);
  mha_eval : forall w h p q k v m, deterministic (mha_forward w h p false q k v m);
  mlp_eval : forall w p x, deterministic (mlp_forward w p false x);
  encoder_eval : forall w x m, deterministic (encoder_forward w false x m);
}.
End wf.

(** ** The layers of one forward call as a transition system

    A state is the pair (contexts, querys) with the generator. *)

Section steps.
Context `{B : Backend}.
Variable m : LongNetViT.t.
Variable instructs : tensor3.
Variable query_length : nat.
Variable self_attention_mask : option (list (list Z)).
Variable key_padding_mask : option (list (list bool)).

Definition layer_state : Type := (tensor3 * tensor3 * RNG)%type.

(** Layer [i]: the context encoder on the contexts, the self-fusion on the
    queries followed by the instructions, the cross-fusion of the first
    [query_length] positions with the new contexts. *)
Inductive layer_step (i : nat) : layer_state -> layer_state -> Prop :=
  | layer_step_intro contexts querys g enc blk ca contexts' g1 combined
      fused g2 querys' g3 :
      LongNetViT.encoder_wsi m !! i = Some enc ->
      LongNetViT.self_attention m !! i = Some blk ->
      LongNetViT.cross_attention m !! i = Some ca ->
      LongNet.forward enc (LongNetViT.training m) contexts key_padding_mask g
        = (Ok contexts', g1) ->
      cat3_dim1 querys instructs = Ok combined ->
      TransformerBlock.forward blk (LongNetViT.training m) combined
        self_attention_mask g1 = (Ok fused, g2) ->
      CrossAttention.forward ca (LongNetViT.training m)
        (map (take query_length) fused) contexts' contexts' key_padding_mask false g2
        = (Ok (querys', None), g3) ->
      layer_step i (contexts, querys, g) (contexts', querys', g3).

(** [layers i k s s']: the layers [i], [i+1], ..., [i+k-1], in this order,
    lead from [s] to [s']. *)
Inductive layers : nat -> nat -> layer_state -> layer_state -> Prop :=
  | layers_done i s : layers i 0 s s
  | layers_next i k s s1 s' :
      layer_step i s s1 -> layers (S i) k s1 s' -> layers i (S k) s s'.
End steps.

(** A sequence of forward calls on one model; a call that raises leaves the
    next one to run. *)
Module Calls.
Section defs.
Context `{B : Backend}.

Record call : Type := {
  querys : tensor3;
  contexts : tensor3;
  instructs : tensor3;
  coords : Coords.t;
  patch_size : spec_float;
  self_attention_mask : option (list (list Z));
  key_padding_mask : option (list (list bool));
}.

Definition run (c : call) : M LongNetViT.World tensor3 :=
  LongNetViT.forward (querys c) (contexts c) (instructs c) (coords c) (patch_size c)
    (self_attention_mask c) (key_padding_mask c).

Fixpoint run_all (cs : list call) (w : LongNetViT.World)
    : list (Res tensor3) * LongNetViT.World :=
  match cs with
  | [] => ([], w)
  | c :: cs' =>
      match run c w with
      | (r, w1) => match run_all cs' w1 with (rs, w2) => (r :: rs, w2) end
      end
  end.
End defs.
End Calls.

(** ** A small instance of the interface, to run the definitions

    Elements are integers, the generator is a counter that every random
    draw (and every call in training mode) advances. The attention adds to
    each entry of the queries the sum of the keys it attends to; the other
    layers return their input. *)

Module Small.
Definition tick {A} (tr : bool) (a : A) : M nat A :=
  fun g => (Ok a, if tr then S g else g).

Definition total_of (xs : list Z) : Z := foldr Z.add 0 xs.

(** The sum of the entries of the keys that the mask leaves in. *)
Definition attended (k : list (list (list Z))) (m : option (list (list bool))) : Z :=
  match m with
  | Some rows =>
      total_of
        (zip_with
           (fun kr mr =>
              total_of (zip_with (fun v (b : bool) => if b then 0 else total_of v) kr mr))
           k rows)
  | None => total_of (map (fun kr => total_of (map total_of kr)) k)
  end.

Definition attention (q k : list (list (list Z))) (m : option (list (list bool)))
    : list (list (list Z)) * list (list (list Z)) :=
  (map (map (map (Z.add (attended k m)))) q,
   map (map (fun _ => replicate (shape1 k) 0)) q).

#[export] Instance backend : Backend := {|
  F := Z;
  of_Q := Qceiling;
  fadd := Z.add;
  fmul := Z.mul;
  to_float32 := fun x => x;
  to_bfloat16 := fun x => x;
  RNG := nat;
  py_format := fun r => pretty (Qfloor r);
  get_2d_sincos_pos_embed := fun d g _ =>
    map (fun i => replicate d (Z.of_nat i)) (seq 0 (Z.to_nat (g * g)));
  EncoderParams := unit;
  make_longnet_from_name := fun _ _ _ _ => tick true tt;
  encoder_forward := fun _ tr x _ => tick tr x;
  MHAParams := nat;
  mha_init := fun e _ => tick true e;
  mha_forward := fun _ _ _ tr q k _ m => tick tr (attention q k m);
  layer_norm := fun _ _ _ _ x => Ok x;
  dropout_forward := fun _ tr x => tick tr x;
  drop_path_forward := fun _ tr x => tick tr x;
  MlpParams := nat;
  mlp_init := fun i _ => tick true i;
  mlp_forward := fun _ _ tr x => tick tr x;
  encoder_apply_init := fun w => tick true w;
  mha_apply_init := fun w => tick true w;
  mlp_apply_init := fun w => tick true w;
  encoder_dim := fun _ => 2%nat;
  mha_dim := fun e => e;
  mlp_dim := fun i => i;
|}.

(** A grid of 2 by 2 cells, vectors of width 2, one layer. *)
Definition args : Args.t :=
  {| Args.in_chans := 4096; Args.embed_dim := 2; Args.depth := 2;
     Args.slide_ngrids := 2; Args.tile_size := 256; Args.max_wsi_size := 512;
     Args.dropout := 0.25%Q; Args.drop_path_rate := 0.2%Q; Args.num_layers := 1;
     Args.num_heads := 1; Args.ff_dim := 4; Args.mlp_ratio := None |}.

Definition init_result : Res LongNetViT.t * nat := LongNetViT.__init__ args 0%nat.

(** The model built from [args], as the constructor leaves it. *)
Definition model : LongNetViT.t :=
  match fst init_result with
  | Ok m => m
  | Raise _ =>
      {| LongNetViT.slide_ngrids := 0; LongNetViT.pos_embed := [];
         LongNetViT.pos_embed_shape := (0, 0, 0)%nat;
         LongNetViT.num_layers := 0; LongNetViT.encoder_name := "";
         LongNetViT.encoder_wsi := []; LongNetViT.self_attention := [];
         LongNetViT.cross_attention := []; LongNetViT.training := true |}
  end.

Definition eval (m : LongNetViT.t) : LongNetViT.t :=
  {| LongNetViT.slide_ngrids := LongNetViT.slide_ngrids m;
     LongNetViT.pos_embed := LongNetViT.pos_embed m;
     LongNetViT.pos_embed_shape := LongNetViT.pos_embed_shape m;
     LongNetViT.num_layers := LongNetViT.num_layers m;
     LongNetViT.encoder_name := LongNetViT.encoder_name m;
     LongNetViT.encoder_wsi := LongNetViT.encoder_wsi m;
     LongNetViT.self_attention := LongNetViT.self_attention m;
     LongNetViT.cross_attention := LongNetViT.cross_attention m;
     LongNetViT.training := false |}.

Definition world : LongNetViT.World :=
  {| LongNetViT.model := eval model; LongNetViT.generator := 7%nat |}.

Definition training_world : LongNetViT.World :=
  {| LongNetViT.model := model; LongNetViT.generator := 7%nat |}.

(** One slide, two queries, one instruction, four tiles. *)
Definition querys : tensor3 := [[[1; 2]; [3; 4]]].
Definition instructs : tensor3 := [[[5; 6]]].
Definition contexts : tensor3 := [[[10; 10]; [20; 20]; [30; 30]; [40; 40]]].

(** A cross-fusion block on its own. *)
Definition cross : CrossAttention.t :=
  {| CrossAttention.attn :=
       {| MultiheadAttention.embed_dim := 2; MultiheadAttention.num_heads := 1;
          MultiheadAttention.dropout := 0.1%Q; MultiheadAttention.batch_first := true;
          MultiheadAttention.params := 2%nat |};
     CrossAttention.norm := LayerNorm.__init__ 2;
     CrossAttention.dropout := 0.1%Q |}.

(** The four corners of the grid, for tiles of 256 pixels. *)
(** Coordinates of dtype float32 from integers, and the tile size 256.0
    of Python. *)
Definition coords (cs : list (list (Z * Z))) : Coords.t :=
  {| Coords.dtype := Dtype.float32;
     Coords.data :=
       map (map (fun c => (Float.of_int Dtype.float32 (fst c),
                           Float.of_int Dtype.float32 (snd c)))) cs |}.

Definition patch_size : spec_float := Float.of_int Dtype.float64 256.

(** The corners of the four tiles of the grid *)
Definition corners : Coords.t := coords [[(0, 0); (0, 256); (256, 0); (256, 256)]].
End Small.

(** The arguments a block was built with, as its fields show them. *)
Definition self_fusion_built `{Backend} (dim num_heads ff_dim : nat) (dropout drop_path : Q)
    (b : TransformerBlock.t) : Prop :=
  MultiheadAttention.embed_dim (TransformerBlock.attention b) = dim
  ∧ MultiheadAttention.num_heads (TransformerBlock.attention b) = num_heads
  ∧ MultiheadAttention.dropout (TransformerBlock.attention b) = dropout
  ∧ Mlp.in_features (TransformerBlock.ffn b) = dim
  ∧ Mlp.hidden_features (TransformerBlock.ffn b) = ff_dim
  ∧ Mlp.drop (TransformerBlock.ffn b) = dropout
  ∧ TransformerBlock.drop_path1 b = TransformerBlock.make_drop_path drop_path
  ∧ TransformerBlock.drop_path2 b = TransformerBlock.make_drop_path drop_path.

Definition cross_fusion_built `{Backend} (dim num_heads : nat) (dropout : Q)
    (c : CrossAttention.t) : Prop :=
  MultiheadAttention.embed_dim (CrossAttention.attn c) = dim
  ∧ MultiheadAttention.num_heads (CrossAttention.attn c) = num_heads
  ∧ MultiheadAttention.dropout (CrossAttention.attn c) = dropout
  ∧ CrossAttention.dropout c = dropout.

Definition encoder_built `{Backend} (drop_path_rate dropout : Q) (e : LongNet.t) : Prop :=
  LongNet.drop_path_rate e = drop_path_rate ∧ LongNet.dropout e = dropout.

(** The name of the encoder that [__init__] asks for. *)
Definition encoder_name_of `{Backend} (a : Args.t) : string :=
  let encoder_name :=
    "LongNet_" +:+ pretty (Args.depth a) +:+ "_layers_"
      +:+ pretty (Args.embed_dim a) +:+ "_dim" in
  match Args.mlp_ratio a with
  | Some r => if Qeq_bool r 4%Q then encoder_name
              else encoder_name +:+ "_mlp" +:+ py_format r
  | None => encoder_name
  end.

(** The weights the libraries make, and remake at initialization, are
    weights for the width they were asked for. *)
Class InitLaws `{B : Backend} : Prop := {
  mha_init_dim : forall e h g w g', mha_init e h g = (Ok w, g') -> mha_dim w = e;
  mha_apply_init_dim : forall w g w' g',
    mha_apply_init w g = (Ok w', g') -> mha_dim w' = mha_dim w;
  mlp_init_dim : forall i h g w g', mlp_init i h g = (Ok w, g') -> mlp_dim w = i;
  mlp_apply_init_dim : forall w g w' g',
    mlp_apply_init w g = (Ok w', g') -> mlp_dim w' = mlp_dim w;
  encoder_apply_init_dim : forall w g w' g',
    encoder_apply_init w g = (Ok w', g') -> encoder_dim w' = encoder_dim w;
}.

(** From the states that satisfy [P] the computation returns one and the
    same result and leaves the state as it is. *)
Definition pure_on {S A} (P : S -> Prop) (c : M S A) : Prop :=
  exists r, forall s, P s -> c s = (r, s).

(** The computation leaves the model as it found it, whatever it returns. *)
Definition keeps_model `{Backend} {A} (c : M LongNetViT.World A) : Prop :=
  forall w, LongNetViT.model (snd (c w)) = LongNetViT.model w.

(** [t[n][j]] when both indices are in range *)
Definition at2 {A} (t : list (list A)) (n j : nat) : option A :=
  match t !! n with
  | Some r => r !! j
  | None => None
  end.

(** The quantized cell of a coordinate: the floors of the quotients by
    the tile size as the dtype computes them, as integers; none when a
    quotient is an infinity or NaN. *)
Definition cell (d : Dtype.t) (patch_size : spec_float) (c : spec_float * spec_float)
    : option (Z * Z) :=
  match Float.floorZ (Float.div d (fst c) (Float.cast d patch_size)),
        Float.floorZ (Float.div d (snd c) (Float.cast d patch_size)) with
  | Some r, Some k => Some (r, k)
  | _, _ => None
  end.

(** The cells of a grid of [G] by [G]. *)
Definition in_grid (G : Z) (rc : Z * Z) : Prop :=
  (0 <= fst rc < G) ∧ (0 <= snd rc < G).

Definition cell_in_grid (G : Z) (rc : option (Z * Z)) : Prop :=
  match rc with
  | Some rc => in_grid G rc
  | None => False
  end.

(** Four coordinates at the corners of a grid: [z] on the first row and
    column, [c] on the last. *)
Definition grid_corners (d : Dtype.t) (z c : spec_float) : Coords.t :=
  {| Coords.dtype := d; Coords.data := [[(z, z); (z, c); (c, z); (c, c)]] |}.

(** The float [q] is what [torch.floor] returns for a number whose floor is
    the integer [n]: the float of [n], or the negative zero. *)
Definition is_floor (d : Dtype.t) (q : spec_float) (n : Z) : Prop :=
  q = Float.of_int d n ∨ (n = 0 ∧ q = S754_zero true).

(** The integers that index a table of [size] rows without raising. *)
Definition in_table (size i : Z) : Prop := - size <= i < size.

(** ** create_model: building a model and loading a checkpoint

    [create_model] only talks to the outside: the model registry of timm,
    the hub, the file system, the checkpoint reader, the model it loads
    into, and the console. It is a program over these operations; what the
    outside answers is a handler, and a run keeps the trace of the
    operations with their answers. *)

Module Loader.
Import Stdlib.Strings.Ascii.
Section defs.
(** a model object, a state dict and the keyword arguments of the model *)
Variables Net StateDict Kwargs : Type.

Inductive op : Type -> Type :=
  (** [timm.create_model(model_arch, pretrained=False, tile_size=tile_size,
      kwargs)] *)
  | CreateModel (model_arch : string) (tile_size : Z) (kwargs : Kwargs) : op Net
  (** [huggingface_hub.hf_hub_download(hub_name, filename=filename,
      local_dir=local_dir, force_download=True)], its result dropped *)
  | HubDownload (hub_name filename local_dir : string) : op unit
  (** [os.path.exists(path)] *)
  | PathExists (path : string) : op bool
  (** [torch.load(path, map_location="cpu")["model"]] *)
  | TorchLoad (path : string) : op StateDict
  (** [model.load_state_dict(state_dict, strict=False)], which writes into
      the model and returns the missing and the unexpected keys *)
  | LoadStateDict (model : Net) (state_dict : StateDict) : op (list string * list string)
  (** [print(line)] *)
  | Print (line : string) : op unit.

Inductive prog (A : Type) : Type :=
  | Done (a : A)
  | Throw (e : error)
  | Do {X : Type} (o : op X) (k : X -> prog A).
Arguments Done {A} a.
Arguments Throw {A} e.
Arguments Do {A X} o k.

Fixpoint pbind {A C} (p : prog A) (k : A -> prog C) : prog C :=
  match p with
  | Done a => k a
  | Throw e => Throw e
  | Do o f => Do o (fun x => pbind (f x) k)
  end.

Definition call_op {X} (o : op X) : prog X := Do o Done.

(** [for k in keys: body(k)] *)
Fixpoint for_each (keys : list string) (body : string -> prog unit) : prog unit :=
  match keys with
  | [] => Done tt
  | k :: keys' => pbind (body k) (fun _ => for_each keys' body)
  end.

(** [s.split(sep)] for a separator of one character *)
Fixpoint split (sep : Ascii.ascii) (s : string) : list string :=
  match s with
  | EmptyString => [EmptyString]
  | String c s' =>
      if Ascii.eqb c sep then EmptyString :: split sep s'
      else match split sep s' with
           | [] => [String c EmptyString]
           | piece :: pieces => String c piece :: pieces
           end
  end.

(** [c in s] *)
Fixpoint has_char (c : Ascii.ascii) (s : string) : bool :=
  match s with
  | EmptyString => false
  | String c' s' => (Ascii.eqb c' c || has_char c s')%bool
  end.

(** [sep.join(pieces)] *)
Fixpoint join (sep : Ascii.ascii) (pieces : list string) : string :=
  match pieces with
  | [] => EmptyString
  | [piece] => piece
  | piece :: pieces' => piece +:+ String sep (join sep pieces')
  end.

Definition ends_with_slash (s : string) : bool :=
  match String.get (String.length s - 1) s with
  | Some c => Ascii.eqb c "/"%char
  | None => false
  end.

(** [os.path.join(a, b)] of posixpath *)
Definition path_join (a b : string) : string :=
  if String.prefix "/" b then b
  else if (String.eqb a EmptyString || ends_with_slash a)%bool then a +:+ b
       else a +:+ "/" +:+ b.

(** The escape character of the colour codes, [\033] *)
Definition esc : string := String (Ascii.ascii_of_nat 27) EmptyString.

Definition loaded_message (pretrained : string) : string :=
  esc +:+ "[92m Successfully Loaded Pretrained GigaPath model from " +:+ pretrained
      +:+ " " +:+ esc +:+ "[00m".

Definition not_found_message (local_path : string) : string :=
  esc +:+ "[93m Pretrained weights not found at " +:+ local_path
      +:+ ". Randomly initialized the model! " +:+ esc +:+ "[00m".

(** [print("Missing ", k)]: the two arguments with a space between them *)
Definition missing_line (k : string) : string := "Missing " +:+ " " +:+ k.
Definition unexpected_line (k : string) : string := "Unexpected " +:+ " " +:+ k.

(** [local_dir] is passed by every caller here; its default, a directory
    under the home of the user, is not modelled. *)
Definition create_model (pretrained model_arch : string) (tile_size : Z)
    (local_dir : string) (kwargs : Kwargs) : prog Net :=
  pbind (call_op (CreateModel model_arch tile_size kwargs)) (fun model =>
  pbind
    (if String.prefix "hf_hub:" pretrained then
       match split ":"%char pretrained !! 1%nat with
       | Some hub_name =>
           pbind (call_op (HubDownload hub_name "slide_encoder.pth" local_dir)) (fun _ =>
           Done (path_join local_dir "slide_encoder.pth"))
       | None => Throw IndexError
       end
     else Done pretrained)
    (fun local_path =>
  pbind (call_op (PathExists local_path)) (fun found =>
  pbind
    (if found : bool then
       pbind (call_op (TorchLoad local_path)) (fun state_dict =>
       pbind (call_op (LoadStateDict model state_dict)) (fun keys =>
       let missing_keys := fst keys in
       let unexpected_keys := snd keys in
       pbind
         (if (0 <? length missing_keys)%nat
          then for_each missing_keys (fun k => call_op (Print (missing_line k)))
          else Done tt) (fun _ =>
       pbind
         (if (0 <? length unexpected_keys)%nat
          then for_each unexpected_keys (fun k => call_op (Print (unexpected_line k)))
          else Done tt) (fun _ =>
       call_op (Print (loaded_message pretrained))))))
     else call_op (Print (not_found_message local_path)))
    (fun _ => Done model)))).

(** One operation of a run, with what the outside answered. *)
Record call : Type := Call {
  call_type : Type;
  call_operation : op call_type;
  call_answer : Res call_type;
}.

Definition handler (H : Type) : Type := forall X, op X -> H -> Res X * H.

Fixpoint run {H A} (h : handler H) (p : prog A) (s : H) : Res A * H * list call :=
  match p with
  | Done a => (Ok a, s, [])
  | Throw e => (Raise e, s, [])
  | Do o k =>
      match h _ o s with
      | (Ok x, s') =>
          match run h (k x) s' with
          | (r, s'', t) => (r, s'', Call _ o (Ok x) :: t)
          end
      | (Raise e, s') => (Raise e, s', [Call _ o (Raise e)])
      end
  end.

(** The program has no [Throw] of its own on any path. *)
Fixpoint never_throws {A} (p : prog A) : Prop :=
  match p with
  | Done _ => True
  | Throw _ => False
  | Do o k => forall x, never_throws (k x)
  end.

Definition answered_ok (c : call) : Prop :=
  match call_answer c with Ok _ => True | Raise _ => False end.

Definition answered_raise (e : error) (c : call) : Prop :=
  match call_answer c with Ok _ => False | Raise e' => e' = e end.

(** What a trace shows of each kind of operation, with the answers. *)
Definition printed (t : list call) : list string :=
  flat_map (fun c => match call_operation c with Print line => [line] | _ => [] end) t.

Definition downloads (t : list call) : list (string * string * string) :=
  flat_map (fun c => match call_operation c with
                     | HubDownload n f d => [(n, f, d)]
                     | _ => []
                     end) t.

Definition paths_tested (t : list call) : list (string * Res bool) :=
  flat_map (fun c =>
              match call_operation c in op X return Res X -> list (string * Res bool) with
              | PathExists path => fun a => [(path, a)]
              | _ => fun _ => []
              end (call_answer c)) t.

Definition checkpoints_read (t : list call) : list (string * Res StateDict) :=
  flat_map (fun c =>
              match call_operation c in op X return Res X -> list (string * Res StateDict) with
              | TorchLoad path => fun a => [(path, a)]
              | _ => fun _ => []
              end (call_answer c)) t.

Definition state_dicts_loaded (t : list call)
    : list (Net * StateDict * Res (list string * list string)) :=
  flat_map (fun c =>
              match call_operation c in op X
                    return Res X -> list (Net * StateDict * Res (list string * list string))
              with
              | LoadStateDict m sd => fun a => [(m, sd, a)]
              | _ => fun _ => []
              end (call_answer c)) t.

Definition models_created (t : list call) : list (string * Z * Kwargs * Res Net) :=
  flat_map (fun c =>
              match call_operation c in op X
                    return Res X -> list (string * Z * Kwargs * Res Net)
              with
              | CreateModel arch ts kw => fun a => [(arch, ts, kw, a)]
              | _ => fun _ => []
              end (call_answer c)) t.
End defs.

Arguments Done {Net StateDict Kwargs A} a.
Arguments Throw {Net StateDict Kwargs A} e.
Arguments Do {Net StateDict Kwargs A X} o k.
Arguments CreateModel {Net StateDict} Kwargs model_arch tile_size kwargs.
Arguments HubDownload {Net StateDict Kwargs} hub_name filename local_dir.
Arguments PathExists {Net StateDict Kwargs} path.
Arguments TorchLoad {Net StateDict Kwargs} path.
Arguments LoadStateDict {Net StateDict Kwargs} model state_dict.
Arguments Print {Net StateDict Kwargs} line.
Arguments Call {Net StateDict Kwargs} call_type call_operation call_answer.
Arguments pbind {Net StateDict Kwargs A C} p k.
Arguments call_op {Net StateDict Kwargs X} o.
Arguments for_each {Net StateDict Kwargs} keys body.
Arguments create_model {Net StateDict Kwargs} pretrained model_arch tile_size local_dir kwargs.
Arguments run {Net StateDict Kwargs H A} h p s.
Arguments never_throws {Net StateDict Kwargs A} p.
Arguments call_type {Net StateDict Kwargs} c.
Arguments call_operation {Net StateDict Kwargs} c.
Arguments call_answer {Net StateDict Kwargs} c.
Arguments answered_ok {Net StateDict Kwargs} c.
Arguments answered_raise {Net StateDict Kwargs} e c.
Arguments printed {Net StateDict Kwargs} t.
Arguments downloads {Net StateDict Kwargs} t.
Arguments paths_tested {Net StateDict Kwargs} t.
Arguments checkpoints_read {Net StateDict Kwargs} t.
Arguments state_dicts_loaded {Net StateDict Kwargs} t.
Arguments models_created {Net StateDict Kwargs} t.
End Loader.

(** A small outside world: models are numbers, a state dict is the list of
    its keys, the state is the list of the files that exist. The hub
    download creates the file it was asked for. *)
Module SmallHost.
Import Stdlib.Strings.Ascii.

Definition answer (X : Type) (o : Loader.op nat (list string) unit X) (files : list string)
    : Res X * list string :=
  match o in Loader.op _ _ _ X return Res X * list string with
  | Loader.CreateModel _ _ _ _ => (Ok 1%nat, files)
  | Loader.HubDownload _ f d => (Ok tt, Loader.path_join d f :: files)
  | Loader.PathExists path => (Ok (bool_decide (path ∈ files)), files)
  | Loader.TorchLoad _ => (Ok ["pos_embed"; "head.weight"], files)
  | Loader.LoadStateDict _ _ => (Ok (["encoder.bias"], ["head.weight"]), files)
  | Loader.Print _ => (Ok tt, files)
  end.

(** The same world with the hub out of reach. *)
Definition offline (X : Type) (o : Loader.op nat (list string) unit X) (files : list string)
    : Res X * list string :=
  match o in Loader.op _ _ _ X return Res X * list string with
  | Loader.HubDownload _ _ _ => (Raise RuntimeError, files)
  | o' => answer _ o' files
  end.

(** The same world on a disk that keeps nothing. *)
Definition bare (X : Type) (o : Loader.op nat (list string) unit X) (files : list string)
    : Res X * list string :=
  match o in Loader.op _ _ _ X return Res X * list string with
  | Loader.PathExists _ => (Ok false, files)
  | o' => answer _ o' files
  end.
End SmallHost.

(** ** More definitions for the properties below *)

(** The small model without any layer. *)
Definition small_args_no_layers : Args.t :=
  {| Args.in_chans := 4096; Args.embed_dim := 2; Args.depth := 2;
     Args.slide_ngrids := 2; Args.tile_size := 256; Args.max_wsi_size := 512;
     Args.dropout := 0.25%Q; Args.drop_path_rate := 0.2%Q; Args.num_layers := 0;
     Args.num_heads := 3; Args.ff_dim := 4; Args.mlp_ratio := None |}.

Definition small_no_layers : @LongNetViT.t Small.backend :=
  @LongNetViT.Build_t Small.backend 2 [[[0; 0]; [1; 1]; [2; 2]; [3; 3]]] (1, 4, 2)%nat 0
    "LongNet_2_layers_2_dim" [] [] [] true.

(** A model of the small instance with a grid of [G] by [G], for the
    position indexer, which reads nothing else of the model. *)
Definition small_grid (G : Z) : @LongNetViT.t Small.backend :=
  @LongNetViT.Build_t Small.backend G [[]] (1, 0, 2)%nat 0 "" [] [] [] false.

(** Coordinates of dtype float64 from integers. *)
Definition coords64 (cs : list (list (Z * Z))) : Coords.t :=
  {| Coords.dtype := Dtype.float64;
     Coords.data :=
       map (map (fun c => (Float.of_int Dtype.float64 (fst c),
                           Float.of_int Dtype.float64 (snd c)))) cs |}.

(** A self-fusion block of the small instance that normalizes after the
    attention and the feed-forward layer ([pre_norm=False]). *)
Definition small_post_norm_block : @TransformerBlock.t Small.backend :=
  @TransformerBlock.Build_t Small.backend false
    (@MultiheadAttention.Build_t Small.backend 2 1 0.1%Q true 2%nat)
    (@LayerNorm.__init__ Small.backend 2)
    (@LayerScale.__init__ Small.backend 2 TransformerBlock.default_init_values false)
    (DropPath.DropPath 0.1%Q)
    (@Mlp.Build_t Small.backend 2 4 0.1%Q 2%nat)
    (@LayerNorm.__init__ Small.backend 2)
    (@LayerScale.__init__ Small.backend 2 TransformerBlock.default_init_values false)
    (DropPath.DropPath 0.1%Q).

(** * Properties *)

(** ** The monad *)

Section monad_facts.
Context {S : Type}.

Lemma bind_Ok_inv {A C} (c : M S A) (k : A -> M S C) s b s' :
  bind c k s = (Ok b, s') ->
  exists a s1, c s = (Ok a, s1) ∧ k a s1 = (Ok b, s').
Proof.
  unfold bind. destruct (c s) as [[a|e] s1]; [eauto | discriminate].
Qed.

Lemma pure_res_Ok_inv {A} (r : Res A) (s : S) a s' :
  pure_res r s = (Ok a, s') -> r = Ok a ∧ s' = s.
Proof. unfold pure_res. intros [= -> ->]. auto. Qed.

Lemma total_ret {A} (P : S -> Prop) (Q : A -> S -> Prop) a :
  (forall s, P s -> Q a s) -> total P (ret a) Q.
Proof. intros H s Hs. exists a, s. split; [reflexivity | auto]. Qed.

Lemma total_pure_res {A} (P : S -> Prop) (Q : A -> S -> Prop) (r : Res A) a :
  r = Ok a -> (forall s, P s -> Q a s) -> total P (pure_res r) Q.
Proof. intros -> H s Hs. exists a, s. split; [reflexivity | auto]. Qed.

Lemma total_bind {A C} (P : S -> Prop) (Q : A -> S -> Prop) (R : C -> S -> Prop)
    (c : M S A) (k : A -> M S C) :
  total P c Q -> (forall a, total (Q a) (k a) R) -> total P (bind c k) R.
Proof.
  intros Hc Hk s Hs. destruct (Hc s Hs) as (a & s1 & Ec & Hq).
  destruct (Hk a s1 Hq) as (b & s2 & Ek & Hr).
  exists b, s2. unfold bind. rewrite Ec. auto.
Qed.

Lemma total_weaken {A} (P P' : S -> Prop) (Q Q' : A -> S -> Prop) (c : M S A) :
  total P c Q -> (forall s, P' s -> P s) -> (forall a s, Q a s -> Q' a s) ->
  total P' c Q'.
Proof.
  intros Hc HP HQ s Hs. destruct (Hc s (HP s Hs)) as (a & s1 & Ec & Hq). eauto.
Qed.

Lemma deterministic_ret {A} (a : A) : deterministic (ret (S := S) a).
Proof. exists (Ok a). reflexivity. Qed.

Lemma deterministic_pure_res {A} (r : Res A) : deterministic (pure_res (S := S) r).
Proof. exists r. reflexivity. Qed.

Lemma deterministic_bind {A C} (c : M S A) (k : A -> M S C) :
  deterministic c -> (forall a, deterministic (k a)) -> deterministic (bind c k).
Proof.
  intros [r Hr] Hk. destruct r as [a|e].
  - destruct (Hk a) as [r' Hr']. exists r'. intros s. unfold bind. rewrite Hr. apply Hr'.
  - exists (Raise e). intros s. unfold bind. rewrite Hr. reflexivity.
Qed.
End monad_facts.

(** ** Lists of results and shapes *)

Lemma mapR_ok {A C} (f : A -> Res C) (P : A -> Prop) (Q : C -> Prop) xs :
  Forall P xs -> (forall x, P x -> exists c, f x = Ok c ∧ Q c) ->
  exists cs, mapR f xs = Ok cs ∧ length cs = length xs ∧ Forall Q cs.
Proof.
  intros HP Hf. induction HP as [|x xs Hx _ IH]; simpl.
  - exists []. auto.
  - destruct (Hf x Hx) as (c & -> & Hc). destruct IH as (cs & -> & Hl & Hcs).
    exists (c :: cs). simpl. auto.
Qed.

Lemma zipR_ok {A} (f : A -> A -> Res A) (P : A -> Prop) xs ys :
  length xs = length ys -> Forall P xs -> Forall P ys ->
  (forall x y, P x -> P y -> exists c, f x y = Ok c ∧ P c) ->
  exists cs, zipR f xs ys = Ok cs ∧ length cs = length xs ∧ Forall P cs.
Proof.
  intros Hl Hx Hy Hf. revert ys Hl Hy.
  induction Hx as [|x xs Hx _ IH]; intros [|y ys] Hl Hy; simpl in *; try discriminate.
  - exists []. auto.
  - inversion Hy as [|? ? Py Hys]; subst.
    destruct (Hf x y Hx Py) as (c & -> & Hc).
    destruct (IH ys) as (cs & -> & Hlc & Hcs); [congruence | assumption |].
    exists (c :: cs). simpl. auto.
Qed.

Lemma broadcast_ok {A} (f : A -> A -> Res A) (P : A -> Prop) xs ys :
  length xs = length ys -> Forall P xs -> Forall P ys ->
  (forall x y, P x -> P y -> exists c, f x y = Ok c ∧ P c) ->
  exists cs, broadcast f xs ys = Ok cs ∧ length cs = length xs ∧ Forall P cs.
Proof.
  intros Hl. unfold broadcast. rewrite decide_True by assumption. now apply zipR_ok.
Qed.

Section shapes.
Context `{B : Backend}.

Lemma tadd_shape n l d (a b : tensor3) :
  shape3 n l d a -> shape3 n l d b -> exists c, tadd a b = Ok c ∧ shape3 n l d c.
Proof.
  intros [La Ha] [Lb Hb].
  destruct (broadcast_ok
              (broadcast (broadcast (fun x y => Ok (fadd x y)))) (shape2 l d) a b)
    as (c & E & Lc & Hc); try assumption; [congruence | | ].
  - intros x y [Lx Hx] [Ly Hy].
    destruct (broadcast_ok (broadcast (fun x y => Ok (fadd x y)))
                (fun v => length v = d) x y) as (r & Er & Lr & Hr);
      try assumption; [congruence | | ].
    + intros u v Lu Lv.
      destruct (broadcast_ok (fun x y => Ok (fadd x y)) (fun _ => True) u v)
        as (w & Ew & Lw & _); [congruence | | | | ].
      * apply Forall_forall; auto.
      * apply Forall_forall; auto.
      * intros; eauto.
      * exists w. split; [assumption | congruence].
    + exists r. split; [assumption|]. split; [congruence | assumption].
  - exists c. split; [exact E|]. split; [congruence | assumption].
Qed.

Lemma tmul_last_shape n l d (x : tensor3) (gamma : list F) :
  shape3 n l d x -> length gamma = d ->
  exists y, tmul_last x gamma = Ok y ∧ shape3 n l d y.
Proof.
  intros [Lx Hx] Lg. unfold tmul_last.
  destruct (mapR_ok
              (mapR (fun v => broadcast (fun a g => Ok (fmul a g)) v gamma))
              (shape2 l d) (shape2 l d) x Hx) as (y & E & Ly & Hy).
  - intros r [Lr Hr].
    destruct (mapR_ok (fun v => broadcast (fun a g => Ok (fmul a g)) v gamma)
                (fun v => length v = d) (fun v => length v = d) r Hr)
      as (s & Es & Ls & Hs).
    + intros v Lv.
      destruct (broadcast_ok (fun a g => Ok (fmul a g)) (fun _ => True) v gamma)
        as (w & Ew & Lw & _); [congruence | | | | ].
      * apply Forall_forall; auto.
      * apply Forall_forall; auto.
      * intros; eauto.
      * exists w. split; [assumption | congruence].
    + exists s. split; [assumption|]. split; [congruence | assumption].
  - exists y. split; [assumption|]. split; [congruence | assumption].
Qed.
End shapes.

Lemma zip_with_app_rows {A} (P : list A -> Prop) (R : list A -> Prop) q i
    (a b : list (list A)) :
  length a = length b ->
  Forall (fun r => length r = q ∧ P r) a -> Forall (fun r => length r = i ∧ P r) b ->
  (forall x y, P x -> P y -> R (x ++ y)) ->
  Forall (fun r => length r = (q + i)%nat ∧ R r) (zip_with app a b).
Proof.
  intros Hl Ha. revert b Hl.
  induction Ha as [|x a [Lx Px] _ IH]; intros [|y b] Hl Hb HR; simpl in *;
    try discriminate; [constructor|].
  inversion Hb as [|? ? [Ly Py] Hb']; subst. constructor.
  - split; [rewrite length_app; reflexivity | auto].
  - apply IH; [congruence | assumption | assumption].
Qed.

Lemma cat_dim1_shape2 {A} n q i (a b : list (list A)) :
  shape2 n q a -> shape2 n i b ->
  cat_dim1 a b = Ok (zip_with app a b) ∧ shape2 n (q + i) (zip_with app a b).
Proof.
  intros [La Ha] [Lb Hb]. unfold cat_dim1.
  rewrite decide_True by congruence. split; [reflexivity|]. split.
  - rewrite length_zip_with. lia.
  - eapply Forall_impl.
    + apply (zip_with_app_rows (fun _ => True) (fun _ => True) q i a b); [congruence | | | auto].
      * eapply Forall_impl; [exact Ha | simpl; auto].
      * eapply Forall_impl; [exact Hb | simpl; auto].
    + simpl. tauto.
Qed.

Lemma shape3_last_sizes {A} n l d (x : list (list (list A))) :
  shape3 n l d x -> Forall (fun w => w = d) (last_sizes x).
Proof.
  intros [_ Hx]. unfold last_sizes. apply Forall_concat, Forall_map.
  eapply Forall_impl; [exact Hx|]. intros r [_ Hr]. simpl.
  apply Forall_map. exact Hr.
Qed.

Lemma shape3_sizes {A} n l d (x : list (list (list A))) :
  shape3 n l d x -> sizes x = replicate n (replicate l d).
Proof.
  intros [Lx Hx]. subst n. unfold sizes.
  induction Hx as [|r x [Lr Hr] _ IH]; simpl; [reflexivity|]. f_equal; [|exact IH].
  subst l. clear -Hr. induction Hr as [|v r Hv _ IHr]; simpl; [reflexivity|].
  f_equal; assumption.
Qed.

Lemma cat_dim1_shape3 {A} n q i d (a b : list (list (list A))) :
  shape3 n q d a -> shape3 n i d b ->
  cat3_dim1 a b = Ok (zip_with app a b) ∧ shape3 n (q + i) d (zip_with app a b).
Proof.
  intros Sa Sb.
  pose proof (shape3_last_sizes _ _ _ _ Sa) as Wa.
  pose proof (shape3_last_sizes _ _ _ _ Sb) as Wb.
  destruct Sa as [La Ha], Sb as [Lb Hb]. unfold cat3_dim1.
  rewrite decide_True.
  2:{ split; [congruence|]. eapply Forall_impl; [exact Wa|]. intros wa ->.
      eapply Forall_impl; [exact Wb|]. intros wb ->. reflexivity. }
  split; [reflexivity|]. split.
  - rewrite length_zip_with. lia.
  - apply (zip_with_app_rows (Forall (fun v => length v = d))
             (Forall (fun v => length v = d)) q i a b); [congruence | exact Ha | exact Hb |].
    intros x y Hx Hy. apply Forall_app. auto.
Qed.

Lemma take_rows_shape3 {A} n q i d (querys x : list (list (list A))) :
  shape3 n q d querys -> shape3 n (q + i) d x ->
  shape3 n q d (map (take (shape1 querys)) x).
Proof.
  intros [Lq Hq] [Lx Hx]. split; [rewrite length_map; assumption|].
  destruct querys as [|r querys].
  - simpl in Lq. subst n. destruct x; [constructor | discriminate].
  - inversion Hq as [|? ? [Lr _] _]; subst. simpl.
    apply Forall_map. eapply Forall_impl; [exact Hx|].
    intros row [Lrow Hrow]. simpl. split.
    + rewrite length_take. lia.
    + apply Forall_take. assumption.
Qed.

Lemma map3_shape3 {A C} (f : A -> C) n l d (x : list (list (list A))) :
  shape3 n l d x -> shape3 n l d (map (map (map f)) x).
Proof.
  intros [Lx Hx]. split; [rewrite length_map; assumption|].
  apply Forall_map. eapply Forall_impl; [exact Hx|].
  intros r [Lr Hr]. split; [simpl; rewrite length_map; assumption|].
  simpl. apply Forall_map. eapply Forall_impl; [exact Hr|].
  intros v Lv. simpl. rewrite length_map. assumption.
Qed.

(** ** Indexing the table *)

Lemma index_row_Ok {A} (table : list A) i :
  in_table (Z.of_nat (length table)) i ->
  exists r, index_row table i = Ok r
            ∧ table !! Z.to_nat (i mod Z.of_nat (length table)) = Some r.
Proof.
  unfold in_table, index_row. intros Hi.
  set (n := Z.of_nat (length table)) in *.
  assert (Hj : (if i <? 0 then i + n else i) = i mod n).
  { destruct (Z.ltb_spec i 0).
    - apply Z.mod_unique with (q := -1); lia.
    - symmetry. apply Z.mod_small. lia. }
  rewrite Hj.
  assert (Hr : 0 <= i mod n < n) by (apply Z.mod_pos_bound; lia).
  destruct (Z.leb_spec 0 (i mod n)); [|lia].
  destruct (Z.ltb_spec (i mod n) n); [|lia]. simpl.
  destruct (table !! Z.to_nat (i mod n)) as [r|] eqn:E; [eauto|].
  apply lookup_ge_None in E. lia.
Qed.

Lemma index_row_Raise {A} (table : list A) i :
  ¬ in_table (Z.of_nat (length table)) i -> index_row table i = Raise IndexError.
Proof.
  unfold in_table, index_row. intros Hi.
  set (n := Z.of_nat (length table)) in *.
  destruct (Z.ltb_spec i 0).
  - destruct (Z.leb_spec 0 (i + n)); [lia|]. reflexivity.
  - destruct (Z.leb_spec 0 i); [|lia].
    destruct (Z.ltb_spec i n); [lia|]. reflexivity.
Qed.

Lemma mapR_Raise {A C} (f : A -> Res C) e xs :
  (forall x r, f x = Raise r -> r = e) ->
  Exists (fun x => f x = Raise e) xs -> mapR f xs = Raise e.
Proof.
  intros He Hx. induction Hx as [x xs Hx | x xs _ IH]; simpl.
  - rewrite Hx. reflexivity.
  - destruct (f x) as [c|r] eqn:E; simpl.
    + rewrite IH. reflexivity.
    + f_equal. eauto.
Qed.

Lemma index_row_error {A} (table : list A) i r :
  index_row table i = Raise r -> r = IndexError.
Proof.
  unfold index_row.
  repeat match goal with |- context [if ?b then _ else _] => destruct b end;
    simpl; try congruence;
    destruct (table !! _); congruence.
Qed.

Lemma mapR_error {A C} (f : A -> Res C) e xs r :
  (forall x r, f x = Raise r -> r = e) -> mapR f xs = Raise r -> r = e.
Proof.
  intros He. induction xs as [|x xs IH]; simpl; [discriminate|].
  destruct (f x) as [c|r'] eqn:E; simpl.
  - destruct (mapR f xs) as [cs|r'']; simpl; [discriminate|].
    intros [= <-]. auto.
  - intros [= <-]. eauto.
Qed.

Section gather_facts.
Context `{B : Backend}.

Lemma gather_shape n l d (table : list (list F)) (pos : list (list Z)) :
  shape2 n l pos -> Forall (fun r => length r = d) table ->
  Forall (Forall (in_table (Z.of_nat (length table)))) pos ->
  exists e, gather [table] pos = Ok e ∧ shape3 n l d e.
Proof.
  intros [Lp Hp] Ht Hin. simpl.
  assert (Hboth : Forall (fun r => length r = l
                                   ∧ Forall (in_table (Z.of_nat (length table))) r) pos).
  { apply Forall_and; auto. }
  destruct (mapR_ok (mapR (index_row table)) _ (shape2 l d) pos Hboth)
    as (e & E & Le & He).
  - intros r [Lr Hr].
    destruct (mapR_ok (index_row table) _ (fun v => length v = d) r Hr)
      as (s & Es & Ls & Hs).
    + intros i Hi. destruct (index_row_Ok table i Hi) as (v & Ev & Hv).
      exists v. split; [assumption|].
      eapply (proj1 (Forall_lookup _ _) Ht); eauto.
    + exists s. split; [assumption|]. split; [congruence | assumption].
  - exists e. split; [assumption|]. split; [congruence | assumption].
Qed.

Lemma gather_Raise (table : list (list F)) (pos : list (list Z)) :
  Exists (Exists (fun i => ¬ in_table (Z.of_nat (length table)) i)) pos ->
  gather [table] pos = Raise IndexError.
Proof.
  intros Hex. simpl. apply mapR_Raise.
  - intros x r. apply mapR_error. intros i r'. apply index_row_error.
  - eapply Exists_impl; [exact Hex|]. intros r Hr. simpl.
    apply mapR_Raise; [intros i r'; apply index_row_error|].
    eapply Exists_impl; [exact Hr|]. intros i Hi. simpl.
    apply index_row_Raise. assumption.
Qed.
End gather_facts.

(** ** The modules return tensors of the shape of their input *)

Section monad_rules.
Context {S : Type}.

Lemma total_bind_inv {A C} (I : S -> Prop) (phi : A -> Prop) (R : C -> S -> Prop)
    (c : M S A) (k : A -> M S C) :
  total I c (fun a s => phi a ∧ I s) ->
  (forall a, phi a -> total I (k a) R) ->
  total I (bind c k) R.
Proof.
  intros Hc Hk. eapply total_bind; [exact Hc|].
  intros a s [Ha Hs]. exact (Hk a Ha s Hs).
Qed.

Lemma total_pure_inv {A} (I : S -> Prop) (phi : A -> Prop) (r : Res A) :
  (exists a, r = Ok a ∧ phi a) ->
  total I (pure_res r) (fun a s => phi a ∧ I s).
Proof. intros (a & -> & Ha) s Hs. exists a, s. split; [reflexivity | auto]. Qed.

Lemma total_frame {A} (phi : A -> Prop) (c : M S A) :
  total (fun _ => True) c (fun a _ => phi a) ->
  total (fun _ => True) c (fun a _ => phi a ∧ True).
Proof. intros Hc. eapply total_weaken; [exact Hc | auto | simpl; auto]. Qed.
End monad_rules.

Section module_shapes.
Context `{B : Backend} {L : BackendLaws}.

Lemma LayerNorm_forward_shape d (m : LayerNorm.t) n l (x : tensor3) :
  wf_LayerNorm d m -> shape3 n l d x ->
  exists y, LayerNorm.forward m x = Ok y ∧ shape3 n l d y.
Proof.
  intros (Hd & Hw & Hb) Hx. unfold LayerNorm.forward. rewrite Hd.
  now apply layer_norm_shape.
Qed.

Lemma LayerScale_forward_shape d (m : LayerScale.t) n l (x : tensor3) :
  length (LayerScale.gamma m) = d -> shape3 n l d x ->
  exists y, LayerScale.forward m x = Ok y ∧ shape3 n l d y.
Proof.
  intros Hg Hx. unfold LayerScale.forward.
  destruct (tmul_last_shape n l d x (LayerScale.gamma m) Hx Hg) as (y & E & Hy).
  exists y. split; [|exact Hy].
  destruct (LayerScale.inplace m); [|exact E].
  rewrite E. simpl. rewrite decide_True; [reflexivity|].
  rewrite (shape3_sizes _ _ _ _ Hx), (shape3_sizes _ _ _ _ Hy). reflexivity.
Qed.

Lemma DropPath_forward_total (m : DropPath.t) tr n l d (x : tensor3) :
  shape3 n l d x ->
  total (fun _ => True) (DropPath.forward m tr x) (fun y _ => shape3 n l d y).
Proof.
  intros Hx. destruct m as [p|]; simpl.
  - now apply drop_path_shape.
  - now apply total_ret.
Qed.

Lemma MultiheadAttention_forward_total d (m : MultiheadAttention.t) tr n lq lk
    (q k v : tensor3) mask :
  wf_MultiheadAttention d m ->
  shape3 n lq d q -> shape3 n lk d k -> shape3 n lk d v -> mask_shape n lk mask ->
  total (fun _ => True) (MultiheadAttention.forward m tr q k v mask)
    (fun r _ => shape3 n lq d (fst r) ∧ shape3 n lq lk (snd r)).
Proof.
  intros (Hd & Hh & Hm) Hq Hk Hv Hmask. unfold MultiheadAttention.forward.
  subst d. now apply mha_shape.
Qed.

Lemma invert_mask_shape n l mask :
  mask_shape n l mask -> mask_shape n l (TransformerBlock.invert_mask mask).
Proof.
  destruct mask as [rows|]; simpl; [|auto].
  intros [Ln Hr]. split; [rewrite length_map; assumption|].
  apply Forall_map. eapply Forall_impl; [exact Hr|].
  intros r Lr. simpl. rewrite length_map. assumption.
Qed.

Lemma CrossAttention_forward_total d (m : CrossAttention.t) tr n lq lk
    (q k v : tensor3) mask rw :
  wf_CrossAttention d m ->
  shape3 n lq d q -> shape3 n lk d k -> shape3 n lk d v -> mask_shape n lk mask ->
  total (fun _ => True) (CrossAttention.forward m tr q k v mask rw)
    (fun r _ => shape3 n lq d (fst r)).
Proof.
  intros [Ha Hn] Hq Hk Hv Hmask. unfold CrossAttention.forward.
  eapply total_bind_inv.
  { apply total_frame.
    apply (MultiheadAttention_forward_total d _ tr n lq lk q k v mask); assumption. }
  intros [attn_output attn_weights] [Ho Hw]. simpl in Ho.
  eapply total_bind_inv.
  { apply total_frame. apply dropout_shape. exact Ho. }
  intros dropped Hdr.
  eapply total_bind_inv.
  { apply total_pure_inv. apply (tadd_shape n lq d); assumption. }
  intros summed Hs.
  eapply total_bind_inv.
  { apply total_pure_inv. apply (LayerNorm_forward_shape d); eassumption. }
  intros output Hout.
  destruct rw; apply total_ret; auto.
Qed.

Lemma Mlp_forward_total d (m : Mlp.t) tr n l (x : tensor3) :
  mlp_dim (Mlp.params m) = d -> shape3 n l d x ->
  total (fun _ => True) (Mlp.forward m tr x) (fun y _ => shape3 n l d y).
Proof. intros <- Hx. unfold Mlp.forward. now apply mlp_shape. Qed.

Lemma TransformerBlock_forward_total d (m : TransformerBlock.t) tr n l
    (x : tensor3) mask :
  wf_TransformerBlock d m -> shape3 n l d x -> mask_shape n l mask ->
  total (fun _ => True) (TransformerBlock.forward m tr x mask)
    (fun y _ => shape3 n l d y).
Proof.
  intros (Ha & Hn1 & Hn2 & Hg1 & Hg2 & Hf) Hx Hmask.
  apply invert_mask_shape in Hmask.
  unfold TransformerBlock.forward. destruct (TransformerBlock.pre_norm m).
  - eapply total_bind_inv.
    { apply total_pure_inv. apply (LayerNorm_forward_shape d); eassumption. }
    intros x_norm Hxn.
    eapply total_bind_inv.
    { apply total_frame.
      apply (MultiheadAttention_forward_total d _ tr n l l); eassumption. }
    intros [attn_output w] [Ho _]. simpl in Ho.
    eapply total_bind_inv.
    { apply total_pure_inv. apply (LayerScale_forward_shape d); eassumption. }
    intros scaled Hsc.
    eapply total_bind_inv.
    { apply total_frame. apply DropPath_forward_total. exact Hsc. }
    intros kept Hk.
    eapply total_bind_inv.
    { apply total_pure_inv. apply (tadd_shape n l d); assumption. }
    intros x1 Hx1.
    eapply total_bind_inv.
    { apply total_pure_inv. apply (LayerNorm_forward_shape d); eassumption. }
    intros x_norm2 Hxn2.
    eapply total_bind_inv.
    { apply total_frame. apply (Mlp_forward_total d); eassumption. }
    intros ffn_output Hff.
    eapply total_bind_inv.
    { apply total_pure_inv. apply (LayerScale_forward_shape d); eassumption. }
    intros scaled2 Hsc2.
    eapply total_bind_inv.
    { apply total_frame. apply DropPath_forward_total. exact Hsc2. }
    intros kept2 Hk2.
    destruct (tadd_shape n l d x1 kept2 Hx1 Hk2) as (y & E & Hy).
    eapply total_pure_res; eauto.
  - eapply total_bind_inv.
    { apply total_frame.
      apply (MultiheadAttention_forward_total d _ tr n l l); eassumption. }
    intros [attn_output w] [Ho _]. simpl in Ho.
    eapply total_bind_inv.
    { apply total_pure_inv. apply (LayerNorm_forward_shape d); eassumption. }
    intros normed Hno.
    eapply total_bind_inv.
    { apply total_pure_inv. apply (LayerScale_forward_shape d); eassumption. }
    intros scaled Hsc.
    eapply total_bind_inv.
    { apply total_frame. apply DropPath_forward_total. exact Hsc. }
    intros kept Hk.
    eapply total_bind_inv.
    { apply total_pure_inv. apply (tadd_shape n l d); assumption. }
    intros x1 Hx1.
    eapply total_bind_inv.
    { apply total_frame. apply (Mlp_forward_total d); eassumption. }
    intros ffn_output Hff.
    eapply total_bind_inv.
    { apply total_pure_inv. apply (LayerNorm_forward_shape d); eassumption. }
    intros normed2 Hno2.
    eapply total_bind_inv.
    { apply total_pure_inv. apply (LayerScale_forward_shape d); eassumption. }
    intros scaled2 Hsc2.
    eapply total_bind_inv.
    { apply total_frame. apply DropPath_forward_total. exact Hsc2. }
    intros kept2 Hk2.
    destruct (tadd_shape n l d x1 kept2 Hx1 Hk2) as (y & E & Hy).
    eapply total_pure_res; eauto.
Qed.

Lemma LongNet_forward_total d (m : LongNet.t) tr n l (x : tensor3) mask :
  encoder_dim (LongNet.params m) = d -> shape3 n l d x -> mask_shape n l mask ->
  total (fun _ => True) (LongNet.forward m tr x mask) (fun y _ => shape3 n l d y).
Proof. intros <- Hx Hm. unfold LongNet.forward. now apply encoder_shape. Qed.
End module_shapes.

(** ** The forward pass: the model is only read *)

Section world_facts.
Context `{B : Backend}.
Import LongNetViT.

Lemma keeps_ret {A} (a : A) : keeps_model (ret a).
Proof. intros w. reflexivity. Qed.

Lemma keeps_raise {A} e : keeps_model (raise (A := A) e).
Proof. intros w. reflexivity. Qed.

Lemma keeps_pure_res {A} (r : Res A) : keeps_model (pure_res r).
Proof. intros w. reflexivity. Qed.

Lemma keeps_gets {A} (f : World -> A) : keeps_model (gets f).
Proof. intros w. reflexivity. Qed.

Lemma keeps_lift {A} (c : M RNG A) : keeps_model (lift c).
Proof. intros w. unfold lift. destruct (c (generator w)). reflexivity. Qed.

Lemma keeps_bind {A C} (c : M World A) (k : A -> M World C) :
  keeps_model c -> (forall a, keeps_model (k a)) -> keeps_model (bind c k).
Proof.
  intros Hc Hk w. unfold bind. specialize (Hc w).
  destruct (c w) as [[a|e] w1]; simpl in *; [|assumption].
  rewrite Hk. assumption.
Qed.

Lemma keeps_module_at {A} (modules : t -> list A) i : keeps_model (module_at modules i).
Proof.
  unfold module_at. apply keeps_bind; [apply keeps_gets|].
  intros l. destruct (l !! i); [apply keeps_ret | apply keeps_raise].
Qed.

Lemma keeps_for_range {A} (body : nat -> A -> M World A) idx a :
  (forall i x, keeps_model (body i x)) -> keeps_model (for_range idx body a).
Proof.
  intros Hb. revert a. induction idx as [|i idx IH]; intros a; simpl.
  - apply keeps_ret.
  - apply keeps_bind; auto.
Qed.

Lemma keeps_layer instructs query_length mask kpm i st :
  keeps_model (layer instructs query_length mask kpm i st).
Proof.
  unfold layer. destruct st as [contexts querys].
  repeat first
    [ apply keeps_ret | apply keeps_lift | apply keeps_gets | apply keeps_pure_res
    | apply keeps_module_at
    | apply keeps_bind; [|intros ?]
    | match goal with |- keeps_model (match ?x with _ => _ end) => destruct x end ].
Qed.

Lemma keeps_forward querys contexts instructs coords patch_size mask kpm :
  keeps_model (forward querys contexts instructs coords patch_size mask kpm).
Proof.
  unfold forward.
  repeat first
    [ apply keeps_ret | apply keeps_gets | apply keeps_pure_res
    | apply keeps_for_range; intros; apply keeps_layer
    | apply keeps_bind; [|intros ?]
    | match goal with |- keeps_model (match ?x with _ => _ end) => destruct x end ].
Qed.

(** Reading the steps back from a call that returned. *)

Lemma gets_Ok_inv {A} (f : World -> A) w a w' :
  gets f w = (Ok a, w') -> a = f w ∧ w' = w.
Proof. unfold gets. intros [= <- <-]. auto. Qed.

Lemma lift_Ok_inv {A} (c : M RNG A) w a w' :
  lift c w = (Ok a, w') ->
  c (generator w) = (Ok a, generator w') ∧ model w' = model w.
Proof.
  unfold lift. destruct (c (generator w)) as [r g]. intros [= -> <-]. auto.
Qed.

Lemma module_at_Ok_inv {A} (modules : t -> list A) i w x w' :
  module_at modules i w = (Ok x, w') -> modules (model w) !! i = Some x ∧ w' = w.
Proof.
  unfold module_at. intros H. apply bind_Ok_inv in H. destruct H as (l & w1 & Hg & H).
  apply gets_Ok_inv in Hg. destruct Hg as [-> ->].
  destruct (modules (model w) !! i); [|discriminate].
  unfold ret in H. injection H as <- <-. auto.
Qed.

Lemma layer_Ok_inv instructs query_length mask kpm i contexts querys w contexts' querys' w' :
  layer instructs query_length mask kpm i (contexts, querys) w = (Ok (contexts', querys'), w') ->
  layer_step (model w) instructs query_length mask kpm i
    (contexts, querys, generator w) (contexts', querys', generator w')
  ∧ model w' = model w.
Proof.
  unfold layer. intros H.
  apply bind_Ok_inv in H. destruct H as (mode & w1 & Hmode & H).
  apply gets_Ok_inv in Hmode. destruct Hmode as [-> ->].
  apply bind_Ok_inv in H. destruct H as (enc & w1 & Henc & H).
  apply module_at_Ok_inv in Henc. destruct Henc as [Henc ->].
  apply bind_Ok_inv in H. destruct H as (c1 & w1 & Hc1 & H).
  apply lift_Ok_inv in Hc1. destruct Hc1 as [Hc1 M1].
  apply bind_Ok_inv in H. destruct H as (combined & w2 & Hcat & H).
  apply pure_res_Ok_inv in Hcat. destruct Hcat as [Hcat ->].
  apply bind_Ok_inv in H. destruct H as (blk & w2 & Hblk & H).
  apply module_at_Ok_inv in Hblk. destruct Hblk as [Hblk ->].
  apply bind_Ok_inv in H. destruct H as (fused & w2 & Hf & H).
  apply lift_Ok_inv in Hf. destruct Hf as [Hf M2].
  apply bind_Ok_inv in H. destruct H as (ca & w3 & Hca & H).
  apply module_at_Ok_inv in Hca. destruct Hca as [Hca ->].
  apply bind_Ok_inv in H. destruct H as ([q2 wts] & w3 & Hq & H).
  apply lift_Ok_inv in Hq. destruct Hq as [Hq M3].
  unfold ret in H. injection H as <- <- <-.
  rewrite M1 in Hblk. rewrite M2, M1 in Hca.
  assert (wts = None) as ->.
  { unfold CrossAttention.forward in Hq.
    apply bind_Ok_inv in Hq. destruct Hq as ([? ?] & ? & _ & Hq).
    repeat (apply bind_Ok_inv in Hq; destruct Hq as (? & ? & _ & Hq)).
    unfold ret in Hq. congruence. }
  split; [|congruence].
  econstructor; eauto.
Qed.
End world_facts.

Section forward_structure.
Context `{B : Backend}.
Import LongNetViT.

Lemma for_range_layers instructs query_length mask kpm k :
  forall i contexts querys w contexts' querys' w',
    for_range (seq i k) (layer instructs query_length mask kpm) (contexts, querys) w
      = (Ok (contexts', querys'), w') ->
    layers (model w) instructs query_length mask kpm i k
      (contexts, querys, generator w) (contexts', querys', generator w')
    ∧ model w' = model w.
Proof.
  induction k as [|k IH]; intros i contexts querys w contexts' querys' w' H; simpl in H.
  - unfold ret in H. injection H as <- <- <-. split; [constructor | reflexivity].
  - apply bind_Ok_inv in H. destruct H as ([c1 q1] & w1 & Hstep & H).
    apply layer_Ok_inv in Hstep. destruct Hstep as [Hstep M1].
    apply IH in H. destruct H as [Hrest M2]. rewrite M1 in Hrest.
    split; [econstructor; eassumption | congruence].
Qed.

Lemma forward_Ok_inv querys contexts instructs coords patch_size mask kpm w out w' :
  forward querys contexts instructs coords patch_size mask kpm w = (Ok out, w') ->
  exists mask' embedded contexts0 contexts' querys',
    self_fusion_mask querys mask = Ok mask'
    ∧ gather (pos_embed (model w)) (coords_to_pos (model w) coords patch_size) = Ok embedded
    ∧ tadd contexts embedded = Ok contexts0
    ∧ layers (model w) instructs (shape1 querys) mask' kpm 0 (num_layers (model w))
        (contexts0, querys, generator w) (contexts', querys', generator w')
    ∧ out = map (map (map to_bfloat16)) querys'
    ∧ model w' = model w.
Proof.
  unfold forward. intros H.
  apply bind_Ok_inv in H. destruct H as (mask' & w1 & Hm & H).
  apply pure_res_Ok_inv in Hm. destruct Hm as [Hm ->].
  apply bind_Ok_inv in H. destruct H as (self & w1 & Hs & H).
  apply gets_Ok_inv in Hs. destruct Hs as [-> ->].
  apply bind_Ok_inv in H. destruct H as (embedded & w1 & He & H).
  apply pure_res_Ok_inv in He. destruct He as [He ->].
  apply bind_Ok_inv in H. destruct H as (contexts0 & w1 & Hc & H).
  apply pure_res_Ok_inv in Hc. destruct Hc as [Hc ->].
  apply bind_Ok_inv in H. destruct H as (n & w1 & Hn & H).
  apply gets_Ok_inv in Hn. destruct Hn as [-> ->].
  apply bind_Ok_inv in H. destruct H as ([c q] & w1 & Hl & H).
  apply for_range_layers in Hl. destruct Hl as [Hl M1].
  unfold ret in H. injection H as <- <-.
  exists mask', embedded, contexts0, c, q. repeat split; assumption || reflexivity.
Qed.
End forward_structure.

Section forward_total.
Context `{B : Backend} {L : BackendLaws}.
Import LongNetViT.

Lemma total_lift {A} (m : t) (c : M RNG A) (phi : A -> Prop) :
  total (fun _ => True) c (fun a _ => phi a) ->
  total (fun w => model w = m) (lift c) (fun a w => phi a ∧ model w = m).
Proof.
  intros Hc w Hw. destruct (Hc (generator w) I) as (a & g & E & Ha).
  exists a, {| model := model w; generator := g |}.
  unfold lift. rewrite E. auto.
Qed.

Lemma total_gets_model {A} (m : t) (f : t -> A) :
  total (fun w => model w = m) (gets (fun w => f (model w)))
    (fun a w => a = f m ∧ model w = m).
Proof. intros w Hw. exists (f (model w)), w. rewrite <- Hw. auto. Qed.

Lemma total_module_at {A} (m : t) (modules : t -> list A) i :
  (i < length (modules m))%nat ->
  total (fun w => model w = m) (module_at modules i)
    (fun x w => modules m !! i = Some x ∧ model w = m).
Proof.
  intros Hi w Hw. destruct (lookup_lt_is_Some_2 _ _ Hi) as [x Hx].
  exists x, w. unfold module_at, bind, gets. rewrite Hw, Hx. auto.
Qed.

Lemma ones_shape n q d (querys : tensor3) :
  shape3 n q d querys -> shape2 n q (ones (shape0 querys) (shape1 querys)).
Proof.
  intros [Ln Hq]. unfold ones, shape0. split; [rewrite length_replicate; assumption|].
  destruct querys as [|r querys]; [constructor|].
  inversion Hq as [|? ? [Lr _] _]; subst. simpl shape1.
  apply Forall_replicate. apply length_replicate.
Qed.

Lemma self_fusion_mask_shape n q d i (querys : tensor3) mask :
  shape3 n q d querys -> mask_shape n i mask ->
  exists mask', self_fusion_mask querys mask = Ok mask' ∧ mask_shape n (q + i) mask'.
Proof.
  intros Hq Hm. destruct mask as [rows|]; simpl in *.
  - destruct (cat_dim1_shape2 n q i _ rows (ones_shape n q d querys Hq) Hm) as [E Hs].
    rewrite E. simpl. eauto.
  - exists None. simpl. auto.
Qed.

Lemma layer_total d (m : t) n l q ii (querys0 : tensor3) instructs mask kpm i
    (contexts querys : tensor3) :
  wf_model d m -> (i < num_layers m)%nat ->
  shape3 n q d querys0 -> shape3 n ii d instructs ->
  mask_shape n (q + ii) mask -> mask_shape n l kpm ->
  shape3 n l d contexts -> shape3 n q d querys ->
  total (fun w => model w = m)
    (layer instructs (shape1 querys0) mask kpm i (contexts, querys))
    (fun st w => (shape3 n l d (fst st) ∧ shape3 n q d (snd st)) ∧ model w = m).
Proof.
  intros (_ & Le & Ls & Lc & He & Hs & Hc) Hi Hq0 Hin Hmask Hkpm Hctx Hq.
  unfold layer.
  eapply total_bind_inv; [apply (total_gets_model m training)|].
  intros mode ->.
  eapply total_bind_inv; [apply (total_module_at m encoder_wsi i); lia|].
  intros enc Henc.
  eapply total_bind_inv.
  { apply total_lift. apply (LongNet_forward_total d _ _ n l); try assumption.
    exact (Forall_lookup_1 _ _ _ _ He Henc). }
  intros c1 Hc1.
  eapply total_bind_inv.
  { apply total_pure_inv. destruct (cat_dim1_shape3 n q ii d querys instructs Hq Hin); eauto. }
  intros combined Hcomb.
  eapply total_bind_inv; [apply (total_module_at m self_attention i); lia|].
  intros blk Hblk.
  eapply total_bind_inv.
  { apply total_lift. apply (TransformerBlock_forward_total d _ _ n (q + ii)); try assumption.
    exact (Forall_lookup_1 _ _ _ _ Hs Hblk). }
  intros fused Hf.
  eapply total_bind_inv; [apply (total_module_at m cross_attention i); lia|].
  intros ca Hca.
  eapply total_bind_inv.
  { apply total_lift.
    apply (CrossAttention_forward_total d _ _ n q l); try assumption.
    - exact (Forall_lookup_1 _ _ _ _ Hc Hca).
    - eapply take_rows_shape3; eassumption. }
  intros [q2 wts] Hq2. simpl in Hq2.
  apply total_ret. simpl. auto.
Qed.

Lemma for_range_total d (m : t) n l q ii (querys0 : tensor3) instructs mask kpm k :
  wf_model d m ->
  shape3 n q d querys0 -> shape3 n ii d instructs ->
  mask_shape n (q + ii) mask -> mask_shape n l kpm ->
  forall i (contexts querys : tensor3),
    (i + k <= num_layers m)%nat ->
    shape3 n l d contexts -> shape3 n q d querys ->
    total (fun w => model w = m)
      (for_range (seq i k) (layer instructs (shape1 querys0) mask kpm) (contexts, querys))
      (fun st w => (shape3 n l d (fst st) ∧ shape3 n q d (snd st)) ∧ model w = m).
Proof.
  intros Hwf Hq0 Hin Hmask Hkpm.
  induction k as [|k IH]; intros i contexts querys Hi Hctx Hq; simpl.
  - apply total_ret. simpl. auto.
  - eapply total_bind_inv.
    + eapply layer_total; try eassumption. lia.
    + intros [c1 q1] [Hc1 Hq1]. simpl in *. apply IH; [lia | assumption | assumption].
Qed.

Lemma coords_to_pos_shape2 (m : t) n l coords patch_size :
  shape2 n l (Coords.data coords) -> shape2 n l (coords_to_pos m coords patch_size).
Proof.
  intros [Ln Hr]. unfold coords_to_pos. split; [rewrite length_map; assumption|].
  apply Forall_map. eapply Forall_impl; [exact Hr|].
  intros r Lr. simpl. rewrite length_map. assumption.
Qed.

Lemma forward_total d (m : t) n l q ii (querys contexts instructs : tensor3)
    coords patch_size mask kpm :
  wf_model d m ->
  shape3 n q d querys -> shape3 n l d contexts -> shape3 n ii d instructs ->
  shape2 n l (Coords.data coords) ->
  Forall (Forall (in_table (slide_ngrids m ^ 2))) (coords_to_pos m coords patch_size) ->
  mask_shape n ii mask -> mask_shape n l kpm ->
  total (fun w => model w = m)
    (forward querys contexts instructs coords patch_size mask kpm)
    (fun out w => shape3 n q d out ∧ model w = m).
Proof.
  intros Hwf Hq Hctx Hin Hco Hpos Hmask Hkpm. unfold forward.
  eapply total_bind_inv.
  { apply total_pure_inv. eapply self_fusion_mask_shape; eassumption. }
  intros mask' Hmask'.
  eapply total_bind_inv; [apply (total_gets_model m (fun x => x))|].
  intros self ->.
  destruct Hwf as [(table & Et & Lt & Ht) Hrest].
  eapply total_bind_inv.
  { apply total_pure_inv. rewrite Et. apply (gather_shape n l d).
    - apply coords_to_pos_shape2. assumption.
    - assumption.
    - rewrite Lt. rewrite Z2Nat.id by lia. assumption. }
  intros embedded Hemb.
  eapply total_bind_inv.
  { apply total_pure_inv. apply (tadd_shape n l d); assumption. }
  intros contexts0 Hc0.
  eapply total_bind_inv; [apply (total_gets_model m num_layers)|].
  intros layers_ ->.
  eapply total_bind_inv.
  { eapply (for_range_total d m n l q ii querys); try eassumption.
    - split; [exists table; auto | exact Hrest].
    - simpl. lia. }
  intros [c1 q1] [_ Hq1]. simpl in Hq1.
  apply total_ret. intros w Hw. split; [|assumption].
  apply map3_shape3. assumption.
Qed.
End forward_total.

(** ** Outside training no module draws a random number *)

Section eval_mode.
Context `{B : Backend} {L : BackendLaws}.
Import LongNetViT.

Lemma pure_on_bind {S A C} (P : S -> Prop) (c : M S A) (k : A -> M S C) :
  pure_on P c -> (forall a, pure_on P (k a)) -> pure_on P (bind c k).
Proof.
  intros [r Hr] Hk. destruct r as [a|e].
  - destruct (Hk a) as [r' Hr']. exists r'. intros s Hs.
    unfold bind. rewrite (Hr s Hs). auto.
  - exists (Raise e). intros s Hs. unfold bind. rewrite (Hr s Hs). reflexivity.
Qed.

Lemma pure_on_ret {S A} (P : S -> Prop) (a : A) : pure_on P (ret a).
Proof. exists (Ok a). reflexivity. Qed.

Lemma pure_on_raise {S A} (P : S -> Prop) e : pure_on P (raise (A := A) e).
Proof. exists (Raise e). reflexivity. Qed.

Lemma pure_on_pure_res {S A} (P : S -> Prop) (r : Res A) : pure_on P (pure_res r).
Proof. exists r. reflexivity. Qed.

Lemma pure_on_lift {A} (m : t) (c : M RNG A) :
  deterministic c -> pure_on (fun w => model w = m) (lift c).
Proof.
  intros [r Hr]. exists r. intros [m' g] _. unfold lift. simpl. rewrite Hr. reflexivity.
Qed.

Lemma pure_on_gets_model {A} (m : t) (f : t -> A) :
  pure_on (fun w => model w = m) (gets (fun w => f (model w))).
Proof. exists (Ok (f m)). intros w <-. reflexivity. Qed.

Lemma pure_on_module_at {A} (m : t) (modules : t -> list A) i :
  pure_on (fun w => model w = m) (module_at modules i).
Proof.
  unfold module_at. apply pure_on_bind; [apply (pure_on_gets_model m modules)|].
  intros l. destruct (l !! i); [apply pure_on_ret | apply pure_on_raise].
Qed.

Lemma pure_on_for_range {S A} (P : S -> Prop) (body : nat -> A -> M S A) idx a :
  (forall i x, pure_on P (body i x)) -> pure_on P (for_range idx body a).
Proof.
  intros Hb. revert a. induction idx as [|i idx IH]; intros a; simpl.
  - apply pure_on_ret.
  - apply pure_on_bind; auto.
Qed.

Lemma DropPath_forward_eval (m : DropPath.t) (x : tensor3) :
  deterministic (DropPath.forward m false x).
Proof. destruct m; simpl; [apply drop_path_eval | apply deterministic_ret]. Qed.

Ltac eval_steps :=
  repeat first
    [ apply deterministic_ret | apply deterministic_pure_res
    | apply mha_eval | apply mlp_eval | apply dropout_eval | apply encoder_eval
    | apply DropPath_forward_eval
    | apply deterministic_bind; [|intros ?]
    | match goal with
      | |- deterministic (match ?x with _ => _ end) => destruct x
      | |- deterministic (if ?b then _ else _) => destruct b
      end ].

Lemma CrossAttention_forward_eval (m : CrossAttention.t) (q k v : tensor3) mask rw :
  deterministic (CrossAttention.forward m false q k v mask rw).
Proof.
  unfold CrossAttention.forward, MultiheadAttention.forward. eval_steps.
Qed.

Lemma TransformerBlock_forward_eval (m : TransformerBlock.t) (x : tensor3) mask :
  deterministic (TransformerBlock.forward m false x mask).
Proof.
  unfold TransformerBlock.forward, MultiheadAttention.forward, Mlp.forward. eval_steps.
Qed.

Lemma LongNet_forward_eval (m : LongNet.t) (x : tensor3) mask :
  deterministic (LongNet.forward m false x mask).
Proof. apply encoder_eval. Qed.

Lemma pure_on_bind_gets {A C} (m : t) (f : t -> A) (k : A -> M World C) :
  pure_on (fun w => model w = m) (k (f m)) ->
  pure_on (fun w => model w = m) (bind (gets (fun w => f (model w))) k).
Proof.
  intros [r Hr]. exists r. intros w Hw. unfold bind, gets. rewrite Hw.
  apply Hr. assumption.
Qed.

Ltac pure_steps :=
  repeat first
    [ apply pure_on_ret | apply pure_on_pure_res | apply pure_on_module_at
    | apply pure_on_lift;
      first [ apply LongNet_forward_eval | apply TransformerBlock_forward_eval
            | apply CrossAttention_forward_eval ]
    | apply pure_on_bind; [|intros ?]
    | match goal with |- pure_on _ (match ?x with _ => _ end) => destruct x end ].

Lemma layer_eval (m : t) instructs query_length mask kpm i st :
  training m = false ->
  pure_on (fun w => model w = m) (layer instructs query_length mask kpm i st).
Proof.
  intros Hm. unfold layer. destruct st as [contexts querys].
  apply (pure_on_bind_gets m training). rewrite Hm. pure_steps.
Qed.

Lemma forward_eval (m : t) querys contexts instructs coords patch_size mask kpm :
  training m = false ->
  pure_on (fun w => model w = m)
    (forward querys contexts instructs coords patch_size mask kpm).
Proof.
  intros Hm. unfold forward.
  apply pure_on_bind; [apply pure_on_pure_res|]. intros mask'.
  apply (pure_on_bind_gets m (fun x => x)).
  apply pure_on_bind; [apply pure_on_pure_res|]. intros embedded.
  apply pure_on_bind; [apply pure_on_pure_res|]. intros contexts0.
  apply (pure_on_bind_gets m num_layers).
  apply pure_on_bind.
  - apply pure_on_for_range. intros j st. apply layer_eval. assumption.
  - intros [c q]. apply pure_on_ret.
Qed.
End eval_mode.

(** ** The construction *)

Section construction.
Context `{B : Backend}.
Import LongNetViT.

Lemma ret_Ok_inv {S A} (a b : A) (s s' : S) : ret a s = (Ok b, s') -> b = a ∧ s' = s.
Proof. unfold ret. intros [= <- <-]. auto. Qed.

Lemma repeatM_Ok_inv {S A} (P : A -> Prop) (c : M S A) n :
  (forall s x s', c s = (Ok x, s') -> P x) ->
  forall s xs s', repeatM n c s = (Ok xs, s') -> length xs = n ∧ Forall P xs.
Proof.
  intros Hc. induction n as [|n IH]; intros s xs s' H; simpl in H.
  - apply ret_Ok_inv in H. destruct H as [-> _]. auto.
  - apply bind_Ok_inv in H. destruct H as (x & s1 & Hx & H).
    apply bind_Ok_inv in H. destruct H as (xs' & s2 & Hxs & H).
    apply ret_Ok_inv in H. destruct H as [-> _].
    destruct (IH _ _ _ Hxs) as [Hl Hf]. simpl. split; [congruence|].
    constructor; eauto.
Qed.

Lemma mapS_Ok_inv {S A C} (P : A -> Prop) (Q : C -> Prop) (f : A -> M S C) :
  (forall x s y s', P x -> f x s = (Ok y, s') -> Q y) ->
  forall xs s ys s', Forall P xs -> mapS f xs s = (Ok ys, s') ->
                     length ys = length xs ∧ Forall Q ys.
Proof.
  intros Hf. induction xs as [|x xs IH]; intros s ys s' HP H; simpl in H.
  - apply ret_Ok_inv in H. destruct H as [-> _]. auto.
  - inversion HP as [|? ? Px HP']; subst.
    apply bind_Ok_inv in H. destruct H as (y & s1 & Hy & H).
    apply bind_Ok_inv in H. destruct H as (ys' & s2 & Hys & H).
    apply ret_Ok_inv in H. destruct H as [-> _].
    destruct (IH _ _ _ HP' Hys) as [Hl Hq]. simpl. split; [congruence|].
    constructor; eauto.
Qed.

Lemma MultiheadAttention_init_Ok_inv e h p bf g a g' :
  MultiheadAttention.__init__ e h p bf g = (Ok a, g') ->
  MultiheadAttention.embed_dim a = e ∧ MultiheadAttention.num_heads a = h
  ∧ MultiheadAttention.dropout a = p
  ∧ h ≠ 0%nat ∧ (e mod h)%nat = 0%nat
  ∧ exists g0, mha_init e h g0 = (Ok (MultiheadAttention.params a), g').
Proof.
  unfold MultiheadAttention.__init__.
  destruct (decide (e = 0%nat ∨ h = 0%nat)) as [|Hpos]; [discriminate|].
  destruct (decide _) as [Hm|]; [|discriminate].
  intros H. apply bind_Ok_inv in H. destruct H as (w & g1 & Hw & H).
  apply ret_Ok_inv in H. destruct H as [-> ->]. simpl.
  assert (Hh : h ≠ 0%nat) by tauto. eauto 10.
Qed.

Lemma TransformerBlock_init_built dim h ff iv dr dp pn g b g' :
  TransformerBlock.__init__ dim h ff iv dr dp pn g = (Ok b, g') ->
  self_fusion_built dim h ff dr dp b.
Proof.
  unfold TransformerBlock.__init__. intros H.
  apply bind_Ok_inv in H. destruct H as (a & g1 & Ha & H).
  apply MultiheadAttention_init_Ok_inv in Ha. destruct Ha as (E1 & E2 & E3 & _).
  apply bind_Ok_inv in H. destruct H as (f & g2 & Hf & H).
  unfold Mlp.__init__ in Hf.
  apply bind_Ok_inv in Hf. destruct Hf as (w & g3 & _ & Hf).
  apply ret_Ok_inv in Hf. destruct Hf as [-> _].
  apply ret_Ok_inv in H. destruct H as [-> _].
  unfold self_fusion_built. simpl. auto 10.
Qed.

Lemma CrossAttention_init_built dim h dr g c g' :
  CrossAttention.__init__ dim h dr g = (Ok c, g') -> cross_fusion_built dim h dr c.
Proof.
  unfold CrossAttention.__init__. intros H.
  apply bind_Ok_inv in H. destruct H as (a & g1 & Ha & H).
  apply MultiheadAttention_init_Ok_inv in Ha. destruct Ha as (E1 & E2 & E3 & _).
  apply ret_Ok_inv in H. destruct H as [-> _].
  unfold cross_fusion_built. simpl. auto.
Qed.

Lemma LongNet_make_built name dpr dr seg g e g' :
  LongNet.make name dpr dr seg g = (Ok e, g') -> encoder_built dpr dr e.
Proof.
  unfold LongNet.make. intros H.
  apply bind_Ok_inv in H. destruct H as (w & g1 & _ & H).
  apply ret_Ok_inv in H. destruct H as [-> _].
  unfold encoder_built. simpl. auto.
Qed.

Lemma apply_TransformerBlock_built dim h ff dr dp b g b' g' :
  self_fusion_built dim h ff dr dp b ->
  apply_TransformerBlock b g = (Ok b', g') -> self_fusion_built dim h ff dr dp b'.
Proof.
  unfold apply_TransformerBlock, apply_MultiheadAttention, apply_Mlp. intros Hb H.
  apply bind_Ok_inv in H. destruct H as (a & g1 & Ha & H).
  apply bind_Ok_inv in Ha. destruct Ha as (w & g2 & _ & Ha).
  apply ret_Ok_inv in Ha. destruct Ha as [-> _].
  apply bind_Ok_inv in H. destruct H as (f & g3 & Hf & H).
  apply bind_Ok_inv in Hf. destruct Hf as (w' & g4 & _ & Hf).
  apply ret_Ok_inv in Hf. destruct Hf as [-> _].
  apply ret_Ok_inv in H. destruct H as [-> _].
  exact Hb.
Qed.

Lemma apply_CrossAttention_built dim h dr c g c' g' :
  cross_fusion_built dim h dr c ->
  apply_CrossAttention c g = (Ok c', g') -> cross_fusion_built dim h dr c'.
Proof.
  unfold apply_CrossAttention, apply_MultiheadAttention. intros Hc H.
  apply bind_Ok_inv in H. destruct H as (a & g1 & Ha & H).
  apply bind_Ok_inv in Ha. destruct Ha as (w & g2 & _ & Ha).
  apply ret_Ok_inv in Ha. destruct Ha as [-> _].
  apply ret_Ok_inv in H. destruct H as [-> _].
  exact Hc.
Qed.

Lemma apply_LongNet_built dpr dr e g e' g' :
  encoder_built dpr dr e -> apply_LongNet e g = (Ok e', g') -> encoder_built dpr dr e'.
Proof.
  unfold apply_LongNet. intros He H.
  apply bind_Ok_inv in H. destruct H as (w & g1 & _ & H).
  apply ret_Ok_inv in H. destruct H as [-> _].
  exact He.
Qed.

(** What a model that [__init__] returned is made of: the three lists hold
    what the constructors of the modules returned, after [apply]. *)
Lemma init_Ok_gen (Pe : LongNet.t -> Prop) (Ps : TransformerBlock.t -> Prop)
    (Pc : CrossAttention.t -> Prop) (a : Args.t) g m g' :
  (forall s e s',
     LongNet.make (encoder_name_of a) (Args.drop_path_rate a) (Args.dropout a)
       "[512, 1024, 2048, 4096, 8192]" s = (Ok e, s') -> Pe e) ->
  (forall s b s',
     TransformerBlock.__init__ (Args.embed_dim a) (Args.num_heads a) (Args.ff_dim a)
       TransformerBlock.default_init_values TransformerBlock.default_dropout
       TransformerBlock.default_drop_path TransformerBlock.default_pre_norm s
     = (Ok b, s') -> Ps b) ->
  (forall s c s',
     CrossAttention.__init__ (Args.embed_dim a) (Args.num_heads a)
       CrossAttention.default_dropout s = (Ok c, s') -> Pc c) ->
  (forall e s e' s', Pe e -> apply_LongNet e s = (Ok e', s') -> Pe e') ->
  (forall b s b' s', Ps b -> apply_TransformerBlock b s = (Ok b', s') -> Ps b') ->
  (forall c s c' s', Pc c -> apply_CrossAttention c s = (Ok c', s') -> Pc c') ->
  __init__ a g = (Ok m, g') ->
  slide_ngrids m = Args.slide_ngrids a
  ∧ num_layers m = Args.num_layers a
  ∧ training m = true
  ∧ copy_ (zeros 1 (Z.to_nat (Args.slide_ngrids a ^ 2)) (Args.embed_dim a))
      [map (map to_float32)
         (get_2d_sincos_pos_embed (Args.embed_dim a) (Args.slide_ngrids a) false)]
    = Ok (pos_embed m)
  ∧ (length (encoder_wsi m) = Args.num_layers a ∧ Forall Pe (encoder_wsi m))
  ∧ (length (self_attention m) = Args.num_layers a ∧ Forall Ps (self_attention m))
  ∧ (length (cross_attention m) = Args.num_layers a ∧ Forall Pc (cross_attention m)).
Proof.
  intros He0 Hs0 Hc0 He1 Hs1 Hc1. unfold __init__. intros H.
  apply bind_Ok_inv in H. destruct H as (encs & g1 & Hencs & H).
  apply bind_Ok_inv in H. destruct H as (selfs & g2 & Hselfs & H).
  apply bind_Ok_inv in H. destruct H as (crosses & g3 & Hcrosses & H).
  apply (repeatM_Ok_inv Pe) in Hencs; [|exact He0].
  apply (repeatM_Ok_inv Ps) in Hselfs; [|exact Hs0].
  apply (repeatM_Ok_inv Pc) in Hcrosses; [|exact Hc0].
  destruct Hencs as [Le He], Hselfs as [Ls Hs], Hcrosses as [Lc Hc].
  unfold initialize_vit_weights in H. simpl in H.
  apply bind_Ok_inv in H. destruct H as (filled & g4 & Hfill & H).
  apply pure_res_Ok_inv in Hfill. destruct Hfill as [Hfill ->].
  apply bind_Ok_inv in H. destruct H as (encs' & g5 & Hencs' & H).
  apply bind_Ok_inv in H. destruct H as (selfs' & g6 & Hselfs' & H).
  apply bind_Ok_inv in H. destruct H as (crosses' & g7 & Hcrosses' & H).
  apply ret_Ok_inv in H. destruct H as [-> _]. simpl.
  eapply mapS_Ok_inv in Hencs'; [| |exact He].
  2:{ intros x s y s' Hx Hy. eapply He1; eassumption. }
  eapply mapS_Ok_inv in Hselfs'; [| |exact Hs].
  2:{ intros x s y s' Hx Hy. eapply Hs1; eassumption. }
  eapply mapS_Ok_inv in Hcrosses'; [| |exact Hc].
  2:{ intros x s y s' Hx Hy. eapply Hc1; eassumption. }
  destruct Hencs' as [Le' He'], Hselfs' as [Ls' Hs'], Hcrosses' as [Lc' Hc'].
  repeat split; try assumption; try congruence.
Qed.

Lemma init_Ok_inv (a : Args.t) g m g' :
  __init__ a g = (Ok m, g') ->
  slide_ngrids m = Args.slide_ngrids a
  ∧ num_layers m = Args.num_layers a
  ∧ training m = true
  ∧ copy_ (zeros 1 (Z.to_nat (Args.slide_ngrids a ^ 2)) (Args.embed_dim a))
      [map (map to_float32)
         (get_2d_sincos_pos_embed (Args.embed_dim a) (Args.slide_ngrids a) false)]
    = Ok (pos_embed m)
  ∧ (length (encoder_wsi m) = Args.num_layers a
     ∧ Forall (encoder_built (Args.drop_path_rate a) (Args.dropout a)) (encoder_wsi m))
  ∧ (length (self_attention m) = Args.num_layers a
     ∧ Forall (self_fusion_built (Args.embed_dim a) (Args.num_heads a) (Args.ff_dim a)
                 TransformerBlock.default_dropout TransformerBlock.default_drop_path)
          (self_attention m))
  ∧ (length (cross_attention m) = Args.num_layers a
     ∧ Forall (cross_fusion_built (Args.embed_dim a) (Args.num_heads a)
                 CrossAttention.default_dropout)
          (cross_attention m)).
Proof.
  apply init_Ok_gen.
  - intros ? ? ?. apply LongNet_make_built.
  - intros ? ? ?. apply TransformerBlock_init_built.
  - intros ? ? ?. apply CrossAttention_init_built.
  - intros ? ? ? ?. apply apply_LongNet_built.
  - intros ? ? ? ?. apply apply_TransformerBlock_built.
  - intros ? ? ? ?. apply apply_CrossAttention_built.
Qed.
End construction.

(** ** The small instance keeps the contracts *)

Lemma tick_total {A} (phi : A -> Prop) tr (a : A) :
  phi a -> total (fun _ => True) (Small.tick tr a) (fun y _ => phi y).
Proof. intros Ha g _. eexists a, _. split; [reflexivity | exact Ha]. Qed.

Lemma tick_eval {A} (a : A) : deterministic (Small.tick false a).
Proof. exists (Ok a). reflexivity. Qed.

Lemma Small_attention_shape n lq lk d (q k : list (list (list Z))) m :
  shape3 n lq d q -> shape3 n lk d k ->
  shape3 n lq d (fst (Small.attention q k m)) ∧ shape3 n lq lk (snd (Small.attention q k m)).
Proof.
  intros Hq Hk. simpl. split; [apply map3_shape3; assumption|].
  destruct Hq as [Lq Hq], Hk as [Lk Hk].
  split; [rewrite length_map; assumption|].
  destruct k as [|k0 k].
  - simpl in Lk. subst n. destruct q; [constructor | discriminate].
  - inversion Hk as [|? ? [Lk0 _] _]; subst. simpl shape1.
    apply Forall_map. eapply Forall_impl; [exact Hq|].
    intros r [Lr _]. split; [simpl; rewrite length_map; assumption|].
    simpl. apply Forall_map. apply Forall_forall. intros v _. simpl.
    apply length_replicate.
Qed.

Lemma Small_laws : @BackendLaws Small.backend.
Proof.
  constructor; simpl.
  - intros d eps w b n l x _ _ Hx. eauto.
  - intros p tr n l d x Hx. now apply tick_total.
  - intros p tr n l d x Hx. now apply tick_total.
  - intros w h p tr n lq lk q k v m _ _ Hq Hk _ _.
    apply (tick_total (fun r => shape3 n lq w (fst r) ∧ shape3 n lq lk (snd r))).
    now apply Small_attention_shape.
  - intros w p tr n l x Hx. now apply tick_total.
  - intros w tr n l x m Hx _. now apply tick_total.
  - intros p x. apply tick_eval.
  - intros p x. apply tick_eval.
  - intros w h p q k v m. apply tick_eval.
  - intros w p x. apply tick_eval.
  - intros w x m. apply tick_eval.
Qed.

Lemma Small_init_laws : @InitLaws Small.backend.
Proof.
  constructor; simpl; unfold Small.tick; intros; congruence.
Qed.

Lemma Small_init : Small.init_result = (Ok Small.model, 8%nat).
Proof. vm_compute. reflexivity. Qed.

Lemma Small_model_wf : wf_model 2 Small.model.
Proof.
  unfold wf_model. split.
  - exists [[0; 0]; [1; 1]; [2; 2]; [3; 3]]. repeat split; repeat constructor.
  - repeat split; repeat constructor; try reflexivity; simpl; lia.
Qed.

Lemma Small_eval_wf : wf_model 2 (Small.eval Small.model).
Proof.
  unfold wf_model. split.
  - exists [[0; 0]; [1; 1]; [2; 2]; [3; 3]]. repeat split; repeat constructor.
  - repeat split; repeat constructor; try reflexivity; simpl; lia.
Qed.

(** ** The position indexer *)

Lemma lookup_map {A C} (f : A -> C) (l : list A) i :
  map f l !! i = option_map f (l !! i).
Proof.
  revert i. induction l as [|x l IH]; intros [|i]; simpl; auto.
Qed.

Lemma at2_map {A C} (f : A -> C) (t : list (list A)) n j :
  at2 (map (map f) t) n j = option_map f (at2 t n j).
Proof.
  unfold at2. rewrite lookup_map. destruct (t !! n) as [r|]; simpl; [|reflexivity].
  apply lookup_map.
Qed.

Lemma at2_Forall {A} (P : A -> Prop) (t : list (list A)) n j x :
  Forall (Forall P) t -> at2 t n j = Some x -> P x.
Proof.
  unfold at2. intros Ht H. destruct (t !! n) as [r|] eqn:E; [|discriminate].
  eapply Forall_lookup_1; [|exact H]. eapply Forall_lookup_1; [exact Ht | exact E].
Qed.

(** *** The arithmetic of a dtype on integers

    A float format with [prec] bits of significand holds every integer
    below [2 ^ prec], and products and sums of such integers that stay
    below [2 ^ prec] are computed without rounding. *)

Section float_format.
Variables prec emax : Z.
Hypothesis Hprec : 1 < prec.
Hypothesis Hemax : prec <= emax.

Lemma digits2_pos_log2 (p : positive) : Zpos (digits2_pos p) = Z.log2 (Zpos p) + 1.
Proof.
  assert (Hs : digits2_pos p = Pos.size p).
  { induction p as [p IH|p IH|]; simpl; congruence. }
  rewrite Hs. destruct p; simpl; rewrite ?Pos2Z.inj_succ; lia.
Qed.

Lemma iter_pos_nat {A} (f : A -> A) (p : positive) (x : A) :
  iter_pos f p x = Nat.iter (Pos.to_nat p) f x.
Proof.
  revert x. induction p as [p IH|p IH|]; intros x; simpl iter_pos.
  - rewrite !IH. rewrite Pos2Nat.inj_xI. rewrite <- Nat.iter_add.
    replace (S (2 * Pos.to_nat p)) with (S (Pos.to_nat p + Pos.to_nat p)) by lia.
    rewrite Nat.iter_succ_r. reflexivity.
  - rewrite !IH. rewrite Pos2Nat.inj_xO. rewrite <- Nat.iter_add.
    f_equal. lia.
  - reflexivity.
Qed.

Lemma shr_1_exact (k : nat) (M : Z) :
  0 < M ->
  Nat.iter k shr_1 {| shr_m := M * 2 ^ Z.of_nat k; shr_r := false; shr_s := false |}
  = {| shr_m := M; shr_r := false; shr_s := false |}.
Proof.
  intros HM. induction k as [|k IH].
  - simpl. rewrite Z.mul_1_r. reflexivity.
  - rewrite Nat.iter_succ_r.
    assert (Hpos : 0 < M * 2 ^ Z.of_nat k) by (apply Z.mul_pos_pos; [lia | apply Z.pow_pos_nonneg; lia]).
    destruct (M * 2 ^ Z.of_nat k) as [|q|q] eqn:E; try lia.
    replace (M * 2 ^ Z.of_nat (S k)) with (Zpos q~0)
      by (rewrite Nat2Z.inj_succ, Z.pow_succ_r by lia; lia).
    simpl shr_1. exact IH.
Qed.

Lemma shr_exact (M k e : Z) :
  0 < M -> 0 <= k ->
  shr {| shr_m := M * 2 ^ k; shr_r := false; shr_s := false |} e k
  = ({| shr_m := M; shr_r := false; shr_s := false |}, e + k).
Proof.
  intros HM Hk. unfold shr. destruct k as [|p|p]; try lia.
  - rewrite Z.mul_1_r, Z.add_0_r. reflexivity.
  - rewrite iter_pos_nat. rewrite <- (positive_nat_Z p) at 1. rewrite shr_1_exact by assumption.
    reflexivity.
Qed.

Lemma Zdigits2_log2 (M : Z) : 0 < M -> Zdigits2 M = Z.log2 M + 1.
Proof. destruct M as [|p|p]; try lia. intros _. apply digits2_pos_log2. Qed.

(** A significand of full width times a power of two rounds to itself. *)
Lemma binary_round_aux_exact (s : bool) (m0 : positive) (e0 k : Z) :
  Z.log2 (Zpos m0) + 1 = prec -> 3 - emax - prec <= e0 <= emax - prec -> 0 <= k ->
  binary_round_aux prec emax s (Zpos m0 * 2 ^ k) (e0 - k) loc_Exact = S754_finite s m0 e0.
Proof.
  intros Hd He Hk. unfold binary_round_aux, shr_fexp.
  assert (Hpow : 0 < 2 ^ k) by (apply Z.pow_pos_nonneg; lia).
  rewrite (Zdigits2_log2 (Zpos m0 * 2 ^ k)) by lia.
  rewrite Z.log2_mul_pow2 by lia.
  replace (fexp prec emax (k + Z.log2 (Zpos m0) + 1 + (e0 - k))) with e0
    by (unfold fexp, emin; lia).
  replace (e0 - (e0 - k)) with k by lia.
  cbn [shr_record_of_loc]. rewrite shr_exact by lia.
  cbn [shr_m loc_of_shr_record round_nearest_even].
  rewrite (Zdigits2_log2 (Zpos m0)) by lia.
  replace (fexp prec emax (Z.log2 (Zpos m0) + 1 + (e0 - k + k))) with e0
    by (unfold fexp, emin; lia).
  replace (e0 - (e0 - k + k)) with 0 by lia.
  cbn [shr shr_record_of_loc shr_m].
  replace (e0 - k + k) with e0 by lia.
  destruct (Z.leb_spec e0 (emax - prec)); [reflexivity | lia].
Qed.

Lemma shl_align_fst (m : positive) (e e' : Z) :
  e' <= e -> Zpos (fst (shl_align m e e')) = Zpos m * 2 ^ (e - e').
Proof.
  intros He. unfold shl_align. destruct (e' - e) as [|d|d] eqn:E; try lia.
  - replace (e - e') with 0 by lia. simpl. lia.
  - replace (e - e') with (Zpos d) by lia. simpl fst.
    rewrite <- Z.shiftl_mul_pow2 by lia. simpl Z.shiftl.
    apply (Pos.iter_swap_gen _ _ Zpos xO (Z.mul 2)). reflexivity.
Qed.

Lemma shl_align_snd (m : positive) (e e' : Z) :
  e' <= e -> snd (shl_align m e e') = e'.
Proof.
  intros He. unfold shl_align. destruct (e' - e) as [|d|d] eqn:E; simpl; lia.
Qed.

Lemma shl_align_id (m : positive) (e e' : Z) :
  e <= e' -> shl_align m e e' = (m, e).
Proof.
  intros He. unfold shl_align. destruct (e' - e) as [|d|d] eqn:E; try reflexivity; lia.
Qed.

(** The float that holds the integer [n], for [0 < n < 2 ^ prec]. *)
Lemma binary_round_aux_int (s : bool) (N : positive) (e n : Z) :
  0 < n < 2 ^ prec ->
  Zpos N = n * 2 ^ (- e) -> prec - (Z.log2 n + 1) <= - e ->
  binary_round_aux prec emax s (Zpos N) e loc_Exact
  = S754_finite s (Z.to_pos (n * 2 ^ (prec - (Z.log2 n + 1)))) (Z.log2 n + 1 - prec).
Proof.
  intros Hn HN He.
  assert (Hl : 0 <= Z.log2 n < prec).
  { split; [apply Z.log2_nonneg | apply Z.log2_lt_pow2; lia]. }
  set (c := prec - (Z.log2 n + 1)) in *.
  assert (Hm : 0 < n * 2 ^ c) by (apply Z.mul_pos_pos; [lia | apply Z.pow_pos_nonneg; lia]).
  replace (Zpos N) with (Zpos (Z.to_pos (n * 2 ^ c)) * 2 ^ (- e - c)).
  - replace e with (Z.log2 n + 1 - prec - (- e - c)) at 2 by lia.
    apply binary_round_aux_exact.
    + rewrite Z2Pos.id by lia. rewrite Z.log2_mul_pow2 by lia. lia.
    + lia.
    + lia.
  - rewrite Z2Pos.id by lia. rewrite HN, <- Z.mul_assoc, <- Z.pow_add_r by lia.
    f_equal. f_equal. lia.
Qed.

Lemma binary_normalize_int (n : Z) :
  0 < n < 2 ^ prec ->
  binary_normalize prec emax n 0 false
  = S754_finite false (Z.to_pos (n * 2 ^ (prec - (Z.log2 n + 1)))) (Z.log2 n + 1 - prec).
Proof.
  intros Hn.
  assert (Hl : 0 <= Z.log2 n < prec).
  { split; [apply Z.log2_nonneg | apply Z.log2_lt_pow2; lia]. }
  destruct n as [|p|p]; try lia. unfold binary_normalize, binary_round.
  rewrite digits2_pos_log2.
  replace (fexp prec emax (Z.log2 (Zpos p) + 1 + 0)) with (Z.log2 (Zpos p) + 1 - prec)
    by (unfold fexp, emin; lia).
  pose proof (shl_align_fst p 0 (Z.log2 (Zpos p) + 1 - prec)) as Hf.
  pose proof (shl_align_snd p 0 (Z.log2 (Zpos p) + 1 - prec)) as Hs.
  destruct (shl_align p 0 (Z.log2 (Zpos p) + 1 - prec)) as [mz ez]. cbn [fst snd] in Hf, Hs.
  rewrite Hs by lia. apply binary_round_aux_int; [lia | | lia].
  rewrite Hf by lia. reflexivity.
Qed.

Lemma SFmul_int (a b : Z) :
  0 < a -> 0 < b -> a * b < 2 ^ prec ->
  SFmul prec emax (binary_normalize prec emax a 0 false) (binary_normalize prec emax b 0 false)
  = binary_normalize prec emax (a * b) 0 false.
Proof.
  intros Ha Hb Hab.
  assert (Ha' : a < 2 ^ prec) by nia. assert (Hb' : b < 2 ^ prec) by nia.
  assert (Hla : 0 <= Z.log2 a < prec).
  { split; [apply Z.log2_nonneg | apply Z.log2_lt_pow2; lia]. }
  assert (Hlb : 0 <= Z.log2 b < prec).
  { split; [apply Z.log2_nonneg | apply Z.log2_lt_pow2; lia]. }
  pose proof (Z.log2_mul_below a b Ha Hb) as Hlab.
  rewrite (binary_normalize_int a), (binary_normalize_int b), (binary_normalize_int (a * b))
    by lia.
  set (ca := prec - (Z.log2 a + 1)). set (cb := prec - (Z.log2 b + 1)).
  assert (Hma : 0 < a * 2 ^ ca) by (apply Z.mul_pos_pos; [lia | apply Z.pow_pos_nonneg; lia]).
  assert (Hmb : 0 < b * 2 ^ cb) by (apply Z.mul_pos_pos; [lia | apply Z.pow_pos_nonneg; lia]).
  unfold SFmul. cbn [xorb].
  apply binary_round_aux_int; [lia | | lia].
  rewrite Pos2Z.inj_mul, !Z2Pos.id by lia.
  replace (- (Z.log2 a + 1 - prec + (Z.log2 b + 1 - prec))) with (ca + cb) by lia.
  rewrite Z.pow_add_r by lia. ring.
Qed.

Lemma SFadd_int (a b : Z) :
  0 < a -> 0 < b -> a + b < 2 ^ prec ->
  SFadd prec emax (binary_normalize prec emax a 0 false) (binary_normalize prec emax b 0 false)
  = binary_normalize prec emax (a + b) 0 false.
Proof.
  intros Ha Hb Hab.
  assert (Hla : 0 <= Z.log2 a < prec).
  { split; [apply Z.log2_nonneg | apply Z.log2_lt_pow2; lia]. }
  assert (Hlb : 0 <= Z.log2 b < prec).
  { split; [apply Z.log2_nonneg | apply Z.log2_lt_pow2; lia]. }
  assert (Hls : Z.log2 a <= Z.log2 (a + b) ∧ Z.log2 b <= Z.log2 (a + b) ∧ Z.log2 (a + b) < prec).
  { split; [apply Z.log2_le_mono; lia|]. split; [apply Z.log2_le_mono; lia|].
    apply Z.log2_lt_pow2; lia. }
  rewrite (binary_normalize_int a), (binary_normalize_int b), (binary_normalize_int (a + b))
    by lia.
  set (ca := prec - (Z.log2 a + 1)). set (cb := prec - (Z.log2 b + 1)).
  assert (Hma : 0 < a * 2 ^ ca) by (apply Z.mul_pos_pos; [lia | apply Z.pow_pos_nonneg; lia]).
  assert (Hmb : 0 < b * 2 ^ cb) by (apply Z.mul_pos_pos; [lia | apply Z.pow_pos_nonneg; lia]).
  unfold SFadd. cbn [cond_Zopp].
  replace (Z.log2 a + 1 - prec) with (- ca) by lia.
  replace (Z.log2 b + 1 - prec) with (- cb) by lia.
  set (ez := Z.min (- ca) (- cb)).
  pose proof (shl_align_fst (Z.to_pos (a * 2 ^ ca)) (- ca) ez ltac:(lia)) as Fa.
  pose proof (shl_align_fst (Z.to_pos (b * 2 ^ cb)) (- cb) ez ltac:(lia)) as Fb.
  rewrite Z2Pos.id in Fa, Fb by lia.
  rewrite <- Pos2Z.inj_add.
  assert (Hsum : Zpos (fst (shl_align (Z.to_pos (a * 2 ^ ca)) (- ca) ez)
                      + fst (shl_align (Z.to_pos (b * 2 ^ cb)) (- cb) ez))
                 = (a + b) * 2 ^ (- ez)).
  { rewrite Pos2Z.inj_add, Fa, Fb.
    rewrite <- !Z.mul_assoc, <- !Z.pow_add_r by lia.
    replace (ca + (- ca - ez)) with (- ez) by lia.
    replace (cb + (- cb - ez)) with (- ez) by lia. ring. }
  set (N := (fst (shl_align (Z.to_pos (a * 2 ^ ca)) (- ca) ez)
             + fst (shl_align (Z.to_pos (b * 2 ^ cb)) (- cb) ez))%positive) in *.
  unfold binary_normalize, binary_round.
  rewrite digits2_pos_log2, Hsum. rewrite Z.log2_mul_pow2 by lia.
  replace (fexp prec emax (- ez + Z.log2 (a + b) + 1 + ez)) with (Z.log2 (a + b) + 1 - prec)
    by (unfold fexp, emin; lia).
  rewrite shl_align_id by lia.
  apply binary_round_aux_int; [lia | exact Hsum | lia].
Qed.

Lemma to_long_int (n : Z) :
  0 < n < 2 ^ prec -> prec <= 63 ->
  Float.to_long (binary_normalize prec emax n 0 false) = n.
Proof.
  intros Hn Hp.
  assert (Hl : 0 <= Z.log2 n < prec).
  { split; [apply Z.log2_nonneg | apply Z.log2_lt_pow2; lia]. }
  rewrite binary_normalize_int by lia. unfold Float.to_long. cbn [cond_Zopp].
  set (c := prec - (Z.log2 n + 1)).
  assert (Hm : 0 < n * 2 ^ c) by (apply Z.mul_pos_pos; [lia | apply Z.pow_pos_nonneg; lia]).
  rewrite Z2Pos.id by lia.
  replace (Z.log2 n + 1 - prec) with (- c) by lia.
  rewrite Z.shiftl_opp_r, Z.shiftr_div_pow2 by lia.
  rewrite Z.div_mul by (apply Z.pow_nonzero; lia).
  assert (H63 : 2 ^ prec <= 2 ^ 63) by (apply Z.pow_le_mono_r; lia).
  unfold Float.INT64_MIN.
  destruct (Z.leb_spec (- 2 ^ 63) n); [|lia].
  destruct (Z.ltb_spec n (2 ^ 63)); [reflexivity | lia].
Qed.

(** On a float of the format with no fractional bit, [torch.floor] is the
    identity: the float of its integer is the float itself. *)
Lemma binary_normalize_integral (s : bool) (m : positive) (e : Z) :
  bounded prec emax m e = true -> 0 <= e ->
  binary_normalize prec emax (Z.shiftl (cond_Zopp s (Zpos m)) e) 0 s = S754_finite s m e.
Proof.
  intros Hb He. unfold bounded, canonical_mantissa in Hb.
  apply andb_prop in Hb. destruct Hb as [Hc Hm].
  apply Z.eqb_eq in Hc. apply Z.leb_le in Hm.
  rewrite digits2_pos_log2 in Hc. unfold fexp, emin in Hc.
  assert (Hd : Z.log2 (Zpos m) + 1 = prec) by lia.
  assert (Hpow : 0 < 2 ^ e) by (apply Z.pow_pos_nonneg; lia).
  rewrite Z.shiftl_mul_pow2 by lia.
  assert (Hval : 0 < Zpos m * 2 ^ e) by lia.
  assert (Hnorm : forall p, Zpos p = Zpos m * 2 ^ e ->
            binary_round prec emax s p 0 = S754_finite s m e).
  { intros p Hp. unfold binary_round. rewrite digits2_pos_log2, Hp.
    rewrite Z.log2_mul_pow2 by lia.
    replace (fexp prec emax (e + Z.log2 (Zpos m) + 1 + 0)) with e
      by (unfold fexp, emin; lia).
    rewrite shl_align_id by lia. rewrite Hp.
    replace 0 with (e - e) at 1 by lia.
    apply binary_round_aux_exact; lia. }
  destruct (Zpos m * 2 ^ e) as [|p|p] eqn:E; try lia.
  destruct s.
  - replace (cond_Zopp true (Zpos m) * 2 ^ e) with (Zneg p) by (cbn [cond_Zopp]; lia).
    apply Hnorm. reflexivity.
  - replace (cond_Zopp false (Zpos m) * 2 ^ e) with (Zpos p) by (cbn [cond_Zopp]; lia).
    apply Hnorm. reflexivity.
Qed.
End float_format.


Lemma dtype_bounds (d : Dtype.t) :
  1 < Dtype.prec d ∧ Dtype.prec d <= Dtype.emax d ∧ Dtype.prec d <= 63.
Proof. destruct d; simpl; lia. Qed.

Lemma floor_integral (d : Dtype.t) (s : bool) (m : positive) (e : Z) :
  bounded (Dtype.prec d) (Dtype.emax d) m e = true -> 0 <= e ->
  Float.floor d (S754_finite s m e) = S754_finite s m e.
Proof.
  intros Hb He. destruct (dtype_bounds d) as (H1 & H2 & _).
  unfold Float.floor. apply binary_normalize_integral; assumption.
Qed.

Lemma floor_is_floor (d : Dtype.t) (x : spec_float) (n : Z) :
  Float.floorZ x = Some n -> 0 <= n -> is_floor d (Float.floor d x) n.
Proof.
  intros Hf Hn. destruct x as [s|s| |s m e]; simpl in Hf; try discriminate.
  - injection Hf as <-. destruct s; [right | left]; auto.
  - injection Hf as Hf. unfold is_floor, Float.floor, Float.of_int. rewrite Hf.
    destruct n as [|p|p]; try lia.
    + destruct s; [right | left]; auto.
    + left. reflexivity.
Qed.

Lemma of_int_finite (d : Dtype.t) (n : Z) :
  0 < n < 2 ^ Dtype.prec d -> exists m e, Float.of_int d n = S754_finite false m e.
Proof.
  intros Hn. destruct (dtype_bounds d) as (H1 & H2 & _).
  unfold Float.of_int. rewrite (binary_normalize_int _ _ H1 H2) by assumption. eauto.
Qed.

Lemma index_exact (d : Dtype.t) (G r k : Z) (qx qy : spec_float) :
  0 <= r < 2 ^ Dtype.prec d -> 0 <= k -> 0 <= G < 2 ^ Dtype.prec d ->
  r * G + k < 2 ^ Dtype.prec d ->
  is_floor d qx r -> is_floor d qy k ->
  Float.to_long (Float.add d (Float.mul d qx (Float.of_int d G)) qy) = r * G + k.
Proof.
  intros Hr Hk HG Hs Hx Hy. destruct (dtype_bounds d) as (H1 & H2 & H3).
  assert (Hprod : exists sp, (r * G = 0 ∧ Float.mul d qx (Float.of_int d G) = S754_zero sp)
                     ∨ (0 < r * G ∧ Float.mul d qx (Float.of_int d G) = Float.of_int d (r * G))).
  { destruct (Z.eq_dec G 0) as [->|HG0].
    - assert (Hz : exists s, Float.mul d qx (S754_zero false) = S754_zero s).
      { destruct Hx as [-> | [-> ->]]; [|simpl; eauto].
        destruct (Z.eq_dec r 0) as [->|Hr0]; [simpl; eauto|].
        destruct (of_int_finite d r) as (m & e & ->); [lia|]. simpl. eauto. }
      destruct Hz as [s Hz]. exists s. left. split; [lia|]. exact Hz.
    - destruct (of_int_finite d G) as (mg & eg & EG); [lia|].
      destruct Hx as [-> | [-> ->]].
      + destruct (Z.eq_dec r 0) as [->|Hr0].
        * exists false. left. split; [lia|]. rewrite EG. reflexivity.
        * exists false. right. split; [nia|]. unfold Float.mul, Float.of_int.
          apply SFmul_int; first [lia | nia].
      + exists true. left. split; [lia|]. rewrite EG. reflexivity. }
  destruct Hprod as [sp [[Hz Hp] | [Hnz Hp]]]; rewrite Hp.
  - rewrite Hz, Z.add_0_l. destruct Hy as [-> | [-> ->]].
    + destruct (Z.eq_dec k 0) as [->|Hk0].
      * destruct sp; reflexivity.
      * destruct (of_int_finite d k) as (m & e & E); [lia|].
        pose proof (to_long_int _ _ H1 H2 k ltac:(lia) H3) as Hl.
        fold (Float.of_int d k) in Hl. rewrite E in *. simpl. exact Hl.
    + destruct sp; reflexivity.
  - assert (Hrg : Float.to_long (Float.of_int d (r * G)) = r * G).
    { apply (to_long_int _ _ H1 H2); lia. }
    destruct Hy as [-> | [-> ->]].
    + destruct (Z.eq_dec k 0) as [->|Hk0].
      * destruct (of_int_finite d (r * G)) as (m & e & E); [lia|].
        rewrite E in *. simpl. rewrite Z.add_0_r. exact Hrg.
      * unfold Float.add, Float.of_int. rewrite SFadd_int by lia.
        apply (to_long_int _ _ H1 H2); lia.
    + destruct (of_int_finite d (r * G)) as (m & e & E); [lia|].
      rewrite E in *. simpl. rewrite Z.add_0_r. exact Hrg.
Qed.

Lemma index_zero_tile (d : Dtype.t) (x y g : spec_float) (s : bool) :
  Float.to_long
    (Float.add d (Float.mul d (Float.floor d (Float.div d x (S754_zero s))) g)
       (Float.floor d (Float.div d y (S754_zero s))))
  = Float.INT64_MIN.
Proof.
  assert (Hq : forall z,
             (exists b, Float.floor d (Float.div d z (S754_zero s)) = S754_infinity b)
             ∨ Float.floor d (Float.div d z (S754_zero s)) = S754_nan).
  { intros [sz|sz| |sz m e]; simpl; eauto. }
  destruct (Hq x) as [[bx ->] | ->], (Hq y) as [[by_ ->] | ->];
    destruct g as [sg|sg| |sg mg eg]; simpl; try reflexivity;
    try (destruct bx, sg, by_; reflexivity); try (destruct bx, sg; reflexivity).
Qed.

(** *** The index of a coordinate *)

Lemma coords_to_pos_at `{B : Backend} (self : LongNetViT.t) (coords : Coords.t)
    (patch_size : spec_float) n j c :
  at2 (Coords.data coords) n j = Some c ->
  let d := Coords.dtype coords in
  at2 (LongNetViT.coords_to_pos self coords patch_size) n j
  = Some (Float.to_long
            (Float.add d
               (Float.mul d (Float.floor d (Float.div d (fst c) (Float.cast d patch_size)))
                  (Float.of_int d (LongNetViT.slide_ngrids self)))
               (Float.floor d (Float.div d (snd c) (Float.cast d patch_size))))).
Proof.
  intros Hc d. unfold LongNetViT.coords_to_pos. rewrite at2_map, Hc. reflexivity.
Qed.

Lemma cell_Some (d : Dtype.t) (patch_size : spec_float) (c : spec_float * spec_float) r k :
  cell d patch_size c = Some (r, k) ->
  Float.floorZ (Float.div d (fst c) (Float.cast d patch_size)) = Some r
  ∧ Float.floorZ (Float.div d (snd c) (Float.cast d patch_size)) = Some k.
Proof.
  unfold cell. destruct (Float.floorZ _) as [r'|]; [|discriminate].
  destruct (Float.floorZ _) as [k'|]; [|discriminate]. intros [= -> ->]. auto.
Qed.

(** When the arithmetic is exact for the integers at hand, the index of a
    coordinate is [row * G + col] of its cell. *)
Lemma cell_index (d : Dtype.t) (G : Z) (patch_size : spec_float)
    (c : spec_float * spec_float) (r k : Z) :
  cell d patch_size c = Some (r, k) ->
  0 <= r < 2 ^ Dtype.prec d -> 0 <= k -> 0 <= G < 2 ^ Dtype.prec d ->
  r * G + k < 2 ^ Dtype.prec d ->
  Float.to_long
    (Float.add d
       (Float.mul d (Float.floor d (Float.div d (fst c) (Float.cast d patch_size)))
          (Float.of_int d G))
       (Float.floor d (Float.div d (snd c) (Float.cast d patch_size))))
  = r * G + k.
Proof.
  intros Hc Hr Hk HG Hs. apply cell_Some in Hc. destruct Hc as [Hx Hy].
  apply index_exact; try assumption.
  - apply floor_is_floor; [exact Hx | lia].
  - apply floor_is_floor; [exact Hy | lia].
Qed.

Lemma in_grid_exact (d : Dtype.t) (G r k : Z) :
  G * G <= 2 ^ Dtype.prec d -> in_grid G (r, k) ->
  0 <= r < 2 ^ Dtype.prec d ∧ 0 <= k ∧ 0 <= G < 2 ^ Dtype.prec d
  ∧ r * G + k < 2 ^ Dtype.prec d ∧ 0 <= r * G + k < G ^ 2.
Proof.
  intros HG [Hr Hk]. simpl in Hr, Hk.
  assert (H4 : 2 ^ 2 <= 2 ^ Dtype.prec d).
  { apply Z.pow_le_mono_r; [lia|]. destruct (dtype_bounds d). lia. }
  replace (G ^ 2) with (G * G) by lia. nia.
Qed.

Lemma coords_to_pos_in_grid `{B : Backend} (self : LongNetViT.t) (coords : Coords.t)
    (patch_size : spec_float) n j c r k :
  let G := LongNetViT.slide_ngrids self in
  G * G <= 2 ^ Dtype.prec (Coords.dtype coords) ->
  at2 (Coords.data coords) n j = Some c ->
  cell (Coords.dtype coords) patch_size c = Some (r, k) -> in_grid G (r, k) ->
  at2 (LongNetViT.coords_to_pos self coords patch_size) n j = Some (r * G + k)
  ∧ 0 <= r * G + k < G ^ 2.
Proof.
  intros G HG Hc Hcell Hin.
  destruct (in_grid_exact _ _ _ _ HG Hin) as (Hr & Hk & HG' & Hs & Hrange).
  split; [|exact Hrange].
  rewrite (coords_to_pos_at self coords patch_size n j c Hc). f_equal.
  apply cell_index; assumption.
Qed.

(** C1, as the code has it. The position indexer computes in the dtype of
    the coordinates. When that dtype holds every integer up to [G ** 2]
    ([G ** 2 <= 2 ** p] for a significand of [p] bits, 24 for float32) and
    every coordinate falls in a cell of the grid, the cell being the floor
    of the quotients as the dtype computes them, the indexer returns at
    every position the index [row * G + col] of its cell, an integer of
    [0, G ** 2); the result depends on the model through the grid
    resolution only. Four coordinates in the corner cells of the grid get
    [0], [G - 1], [(G - 1) * G] and [G ** 2 - 1], which are four different
    indices as soon as the grid has two cells a side. *)
Theorem coords_to_pos_grid_index `{B : Backend} (self : LongNetViT.t)
    (coords : Coords.t) (patch_size : spec_float) :
  let G := LongNetViT.slide_ngrids self in
  let d := Coords.dtype coords in
  G * G <= 2 ^ Dtype.prec d ->
  Forall (Forall (fun c => cell_in_grid G (cell d patch_size c))) (Coords.data coords) ->
  (forall n j c, at2 (Coords.data coords) n j = Some c ->
     exists r k,
       cell d patch_size c = Some (r, k)
       ∧ at2 (LongNetViT.coords_to_pos self coords patch_size) n j = Some (r * G + k)
       ∧ 0 <= r * G + k < G ^ 2)
  ∧ Forall (Forall (fun p => 0 <= p < G ^ 2))
      (LongNetViT.coords_to_pos self coords patch_size)
  ∧ (forall self' : LongNetViT.t,
       LongNetViT.slide_ngrids self' = G ->
       LongNetViT.coords_to_pos self' coords patch_size
         = LongNetViT.coords_to_pos self coords patch_size)
  ∧ (forall z c : spec_float,
       1 <= G ->
       cell d patch_size (z, z) = Some (0, 0) ->
       cell d patch_size (c, c) = Some (G - 1, G - 1) ->
       LongNetViT.coords_to_pos self (grid_corners d z c) patch_size
         = [[0; G - 1; (G - 1) * G; G ^ 2 - 1]])
  ∧ (2 <= G -> NoDup [0; G - 1; (G - 1) * G; G ^ 2 - 1]).
Proof.
  intros G d HG Hgrid.
  assert (Hone : forall c, cell_in_grid G (cell d patch_size c) ->
            exists r k, cell d patch_size c = Some (r, k) ∧ in_grid G (r, k)).
  { intros c Hc. destruct (cell d patch_size c) as [[r k]|]; [eauto | contradiction]. }
  split; [|split; [|split; [|split]]].
  - intros n j c Hc.
    destruct (Hone c (at2_Forall _ _ _ _ _ Hgrid Hc)) as (r & k & Hcell & Hin).
    exists r, k. split; [exact Hcell|].
    exact (coords_to_pos_in_grid self coords patch_size n j c r k HG Hc Hcell Hin).
  - unfold LongNetViT.coords_to_pos. apply Forall_map.
    eapply Forall_impl; [exact Hgrid|]. intros row Hrow. cbn beta.
    apply Forall_map. eapply Forall_impl; [exact Hrow|]. intros c Hc. cbn beta.
    destruct (Hone c Hc) as (r & k & Hcell & Hin).
    destruct (in_grid_exact _ _ _ _ HG Hin) as (Hr & Hk & HG' & Hs & Hrange).
    fold d G. rewrite (cell_index d G patch_size c r k Hcell Hr Hk HG' Hs). exact Hrange.
  - intros self' HG'. unfold LongNetViT.coords_to_pos. rewrite HG'. reflexivity.
  - intros z c HG1 Hz Hc.
    apply cell_Some in Hz. apply cell_Some in Hc. simpl in Hz, Hc.
    destruct Hz as [Hz _], Hc as [Hc _].
    assert (Hcell : forall x y r k,
              Float.floorZ (Float.div d x (Float.cast d patch_size)) = Some r ->
              Float.floorZ (Float.div d y (Float.cast d patch_size)) = Some k ->
              cell d patch_size (x, y) = Some (r, k)).
    { intros x y r k Hx Hy. unfold cell. simpl. rewrite Hx, Hy. reflexivity. }
    assert (Hidx : forall x y r k,
              cell d patch_size (x, y) = Some (r, k) -> in_grid G (r, k) ->
              Float.to_long
                (Float.add d
                   (Float.mul d (Float.floor d (Float.div d x (Float.cast d patch_size)))
                      (Float.of_int d G))
                   (Float.floor d (Float.div d y (Float.cast d patch_size))))
              = r * G + k).
    { intros x y r k Hxy Hin.
      destruct (in_grid_exact _ _ _ _ HG Hin) as (Hr & Hk & HG' & Hs & _).
      exact (cell_index d G patch_size (x, y) r k Hxy Hr Hk HG' Hs). }
    unfold LongNetViT.coords_to_pos, grid_corners. cbn [Coords.dtype Coords.data map fst snd].
    fold G.
    rewrite (Hidx z z 0 0), (Hidx z c 0 (G - 1)), (Hidx c z (G - 1) 0),
      (Hidx c c (G - 1) (G - 1));
      try (apply Hcell; assumption); try (unfold in_grid; simpl; lia).
    repeat f_equal; lia.
  - intros HG2. repeat constructor; rewrite ?elem_of_cons, ?elem_of_nil; nia.
Qed.

Lemma coords_to_pos_grid_index_witness :
  LongNetViT.coords_to_pos Small.model Small.corners Small.patch_size = [[0; 1; 2; 3]]
  ∧ Forall (Forall (fun p => 0 <= p < 4))
      (LongNetViT.coords_to_pos Small.model Small.corners Small.patch_size).
Proof.
  assert (HG : LongNetViT.slide_ngrids Small.model * LongNetViT.slide_ngrids Small.model
               <= 2 ^ Dtype.prec (Coords.dtype Small.corners)) by (vm_compute; discriminate).
  assert (Hgrid : Forall (Forall (fun c =>
            cell_in_grid (LongNetViT.slide_ngrids Small.model)
              (cell (Coords.dtype Small.corners) Small.patch_size c)))
            (Coords.data Small.corners)).
  { repeat constructor; vm_compute; congruence. }
  destruct (coords_to_pos_grid_index Small.model Small.corners Small.patch_size HG Hgrid)
    as (_ & Hall & _ & _ & _).
  split; [reflexivity | exact Hall].
Defined.

(** The claim C1 as the specification words it, for every grid, fails in
    float32. On a grid of 5000 by 5000 every corner lies in its cell, yet
    the last corner gets the index 25000000, which is [G ** 2] and not
    [G ** 2 - 1]: the sum 24995000 + 4999 has no float32 and is rounded.
    The same coordinates in float64 get 24999999. On a grid of 4097 by 4097
    two different cells of the last row share an index. On a grid of one
    cell the four corners are one point and share the index 0. *)
Lemma coords_to_pos_float32_rounds :
  Forall (Forall (fun c => cell_in_grid 5000 (cell Dtype.float32 Small.patch_size c)))
    (Coords.data (Small.coords [[(0, 0); (0, 1279744); (1279744, 0); (1279744, 1279744)]]))
  ∧ LongNetViT.coords_to_pos (small_grid 5000)
      (Small.coords [[(0, 0); (0, 1279744); (1279744, 0); (1279744, 1279744)]])
      Small.patch_size
    = [[0; 4999; 24995000; 25000000]]
  ∧ 25000000 = 5000 ^ 2
  ∧ LongNetViT.coords_to_pos (small_grid 5000)
      (coords64 [[(0, 0); (0, 1279744); (1279744, 0); (1279744, 1279744)]])
      Small.patch_size
    = [[0; 4999; 24995000; 24999999]]
  ∧ cell Dtype.float32 Small.patch_size
      (Float.of_int Dtype.float32 1048576, Float.of_int Dtype.float32 0) = Some (4096, 0)
  ∧ cell Dtype.float32 Small.patch_size
      (Float.of_int Dtype.float32 1048576, Float.of_int Dtype.float32 256) = Some (4096, 1)
  ∧ LongNetViT.coords_to_pos (small_grid 4097)
      (Small.coords [[(1048576, 0); (1048576, 256)]]) Small.patch_size
    = [[16781312; 16781312]]
  ∧ LongNetViT.coords_to_pos (small_grid 1)
      (grid_corners Dtype.float32 (Float.of_int Dtype.float32 0)
         (Float.of_int Dtype.float32 0)) Small.patch_size
    = [[0; 0; 0; 0]]
  ∧ ¬ NoDup [0; 0; 0; 0].
Proof.
  split; [repeat constructor; vm_compute; congruence|].
  split; [vm_compute; reflexivity|]. split; [reflexivity|].
  split; [vm_compute; reflexivity|]. split; [vm_compute; reflexivity|].
  split; [vm_compute; reflexivity|]. split; [vm_compute; reflexivity|].
  split; [vm_compute; reflexivity|].
  intros H. apply NoDup_cons in H. destruct H as [H _]. apply H. left.
Qed.

(** ** The masks of the self-fusion *)

Lemma at2_zip_with_app_l {A} (a b : list (list A)) n j ra rb :
  a !! n = Some ra -> b !! n = Some rb -> (j < length ra)%nat ->
  at2 (zip_with app a b) n j = ra !! j.
Proof.
  intros Ha Hb Hj. unfold at2. rewrite lookup_zip_with, Ha, Hb. simpl.
  apply lookup_app_l. assumption.
Qed.

Lemma at2_zip_with_app_r {A} (a b : list (list A)) n j ra rb :
  a !! n = Some ra -> b !! n = Some rb ->
  at2 (zip_with app a b) n (length ra + j) = rb !! j.
Proof.
  intros Ha Hb. unfold at2. rewrite lookup_zip_with, Ha, Hb. simpl.
  rewrite lookup_app_r by lia. f_equal. lia.
Qed.

Lemma excluded_invert_mask (m : list (list Z)) n j :
  excluded (TransformerBlock.invert_mask (Some m)) n j
  = match at2 m n j with Some e => e =? 0 | None => false end.
Proof.
  unfold excluded, at2. simpl. rewrite lookup_map.
  destruct (m !! n) as [r|]; simpl; [|reflexivity].
  rewrite lookup_map. destruct (r !! j); reflexivity.
Qed.

(** C3. When the caller supplies an instruction mask, the mask handed to
    every self-fusion block of the call is the row of [Q] ones followed by
    the caller's row: it has length [Q + I], its first [Q] entries are 1,
    which the block does not exclude from the attention, whatever the
    caller's mask is, and the entries after them are the caller's. *)
Theorem self_fusion_mask_valid_queries `{B : Backend} (n q d i : nat)
    (querys : tensor3) (mask : list (list Z)) :
  shape3 n q d querys -> shape2 n i mask ->
  exists full,
    LongNetViT.self_fusion_mask querys (Some mask) = Ok (Some full)
    ∧ shape2 n (q + i) full
    ∧ (forall b j, (b < n)%nat -> (j < q)%nat ->
         at2 full b j = Some 1
         ∧ excluded (TransformerBlock.invert_mask (Some full)) b j = false)
    ∧ (forall b j, (b < n)%nat -> at2 full b (q + j) = at2 mask b j)
    ∧ (forall contexts instructs coords patch_size kpm w out w',
         LongNetViT.forward querys contexts instructs coords patch_size (Some mask) kpm w
           = (Ok out, w') ->
         exists contexts0 contexts' querys',
           layers (LongNetViT.model w) instructs (shape1 querys) (Some full) kpm
             0 (LongNetViT.num_layers (LongNetViT.model w))
             (contexts0, querys, LongNetViT.generator w)
             (contexts', querys', LongNetViT.generator w')).
Proof.
  intros Hq Hm.
  pose proof (ones_shape n q d querys Hq) as Hones.
  destruct (cat_dim1_shape2 n q i _ mask Hones Hm) as [E Hfull].
  exists (zip_with app (ones (shape0 querys) (shape1 querys)) mask).
  assert (Hrows : forall b, (b < n)%nat ->
            exists ra rb, ones (shape0 querys) (shape1 querys) !! b = Some ra
                          ∧ mask !! b = Some rb ∧ ra = replicate q 1).
  { intros b Hb. destruct Hones as [Lo Ho], Hm as [Lm _].
    destruct (lookup_lt_is_Some_2 (ones (shape0 querys) (shape1 querys)) b) as [ra Hra];
      [lia|].
    destruct (lookup_lt_is_Some_2 mask b) as [rb Hrb]; [lia|].
    exists ra, rb. split; [assumption|]. split; [assumption|].
    pose proof (Forall_lookup_1 _ _ _ _ Ho Hra) as Lra. simpl in Lra.
    unfold ones in Hra. apply lookup_replicate in Hra. destruct Hra as [-> _].
    rewrite length_replicate in Lra. congruence. }
  split; [|split; [|split; [|split]]].
  - unfold LongNetViT.self_fusion_mask. rewrite E. reflexivity.
  - exact Hfull.
  - intros b j Hb Hj. destruct (Hrows b Hb) as (ra & rb & Hra & Hrb & ->).
    assert (Hat : at2 (zip_with app (ones (shape0 querys) (shape1 querys)) mask) b j
                  = Some 1).
    { rewrite (at2_zip_with_app_l _ _ b j _ _ Hra Hrb)
        by (rewrite length_replicate; assumption).
      apply lookup_replicate_2. assumption. }
    split; [exact Hat|]. rewrite excluded_invert_mask, Hat. reflexivity.
  - intros b j Hb. destruct (Hrows b Hb) as (ra & rb & Hra & Hrb & ->).
    pose proof (at2_zip_with_app_r _ _ b j _ _ Hra Hrb) as Hat.
    rewrite length_replicate in Hat. rewrite Hat. unfold at2. rewrite Hrb. reflexivity.
  - intros contexts instructs coords patch_size kpm w out w' Hrun.
    apply forward_Ok_inv in Hrun.
    destruct Hrun as (mask' & emb & c0 & c' & q' & Hmask & _ & _ & Hl & _).
    unfold LongNetViT.self_fusion_mask in Hmask. rewrite E in Hmask. simpl in Hmask.
    injection Hmask as <-. eauto.
Qed.

Lemma self_fusion_mask_valid_queries_witness :
  exists full,
    LongNetViT.self_fusion_mask Small.querys (Some [[0]]) = Ok (Some full)
    ∧ shape2 1 (2 + 1) full
    ∧ at2 full 0 0 = Some 1 ∧ at2 full 0 1 = Some 1 ∧ at2 full 0 2 = Some 0.
Proof.
  assert (Hq : shape3 1 2 2 Small.querys) by (repeat constructor).
  assert (Hm : shape2 1 1 [[0]]) by (repeat constructor).
  destruct (self_fusion_mask_valid_queries 1 2 2 1 Small.querys [[0]] Hq Hm)
    as (full & E & Hs & H1 & H2 & _).
  exists full. split; [exact E|]. split; [exact Hs|].
  split; [apply (H1 0%nat 0%nat); lia|].
  split; [apply (H1 0%nat 1%nat); lia|].
  exact (H2 0%nat 0%nat (Nat.lt_0_succ 0)).
Defined.

(** C4, as the code has it. The self-fusion block turns the caller's mask
    into the mask of the attention by the test [== 0] and calls its
    attention with that mask as [key_padding_mask]: a position is excluded
    from the attention exactly when the caller's entry is zero, so the
    caller's convention is "non-zero: attend, zero: padding". A call of the
    block that returns has called the attention, on the input (normalized
    first when the block normalizes before its sub-layers), with the
    inverted mask; when that call of the attention raises, so does the
    block. *)
Theorem invert_mask_excludes_zero `{B : Backend} (mask : list (list Z)) :
  let kpm := map (map (fun e => e =? 0)) mask in
  (forall n j e, at2 mask n j = Some e ->
     at2 kpm n j = Some (e =? 0) ∧ (excluded (Some kpm) n j = true <-> e = 0))
  ∧ (forall (blk : TransformerBlock.t) tr (x : tensor3) g y g',
       TransformerBlock.forward blk tr x (Some mask) g = (Ok y, g') ->
       exists x_in r g1,
         (if TransformerBlock.pre_norm blk
          then LayerNorm.forward (TransformerBlock.norm1 blk) x = Ok x_in
          else x_in = x)
         ∧ MultiheadAttention.forward (TransformerBlock.attention blk) tr x_in x_in x_in
             (Some kpm) g = (Ok r, g1))
  ∧ (forall (blk : TransformerBlock.t) tr (x x_in : tensor3) g e g1,
       (if TransformerBlock.pre_norm blk
        then LayerNorm.forward (TransformerBlock.norm1 blk) x = Ok x_in
        else x_in = x) ->
       MultiheadAttention.forward (TransformerBlock.attention blk) tr x_in x_in x_in
         (Some kpm) g = (Raise e, g1) ->
       TransformerBlock.forward blk tr x (Some mask) g = (Raise e, g1)).
Proof.
  intros kpm. split; [|split].
  - intros n j e Hat.
    assert (Hk : at2 kpm n j = Some (e =? 0)).
    { unfold kpm. rewrite at2_map, Hat. reflexivity. }
    split; [exact Hk|].
    change (Some kpm) with (TransformerBlock.invert_mask (Some mask)).
    rewrite excluded_invert_mask, Hat. apply Z.eqb_eq.
  - intros blk tr x g y g' H. unfold TransformerBlock.forward in H.
    change (TransformerBlock.invert_mask (Some mask)) with (Some kpm) in H.
    destruct (TransformerBlock.pre_norm blk).
    + apply bind_Ok_inv in H. destruct H as (x_norm & g0 & Hn & H).
      apply pure_res_Ok_inv in Hn. destruct Hn as [Hn ->].
      apply bind_Ok_inv in H. destruct H as (r & g1 & Ha & _). eauto.
    + apply bind_Ok_inv in H. destruct H as (r & g1 & Ha & _). eauto.
  - intros blk tr x x_in g e g1 Hin Ha. unfold TransformerBlock.forward.
    change (TransformerBlock.invert_mask (Some mask)) with (Some kpm).
    destruct (TransformerBlock.pre_norm blk).
    + unfold bind at 1. unfold pure_res at 1. rewrite Hin.
      unfold bind at 1. rewrite Ha. reflexivity.
    + subst x_in. unfold bind at 1. rewrite Ha. reflexivity.
Qed.

Lemma invert_mask_excludes_zero_witness :
  excluded (Some (map (map (fun e => e =? 0)) [[1; 0]])) 0 1 = true
  ∧ exists r g1,
      MultiheadAttention.forward (TransformerBlock.attention small_post_norm_block) true
        [[[1; 2]; [3; 4]]] [[[1; 2]; [3; 4]]] [[[1; 2]; [3; 4]]]
        (Some [[false; true]]) 0%nat = (Ok r, g1).
Proof.
  destruct (@invert_mask_excludes_zero Small.backend [[1; 0]]) as (H1 & H2 & _).
  split.
  - apply (proj2 (H1 0%nat 1%nat 0 eq_refl)). reflexivity.
  - destruct (H2 small_post_norm_block true [[[1; 2]; [3; 4]]] 0%nat
                [[[10; 14]; [18; 22]]] 4%nat) as (x_in & r & g1 & Hin & Ha).
    + vm_compute. reflexivity.
    + simpl in Hin. subst x_in. eauto.
Defined.

(** The claim C4 as the specification words it ("excluded exactly when the
    entry is non-zero") fails on the mask [1, 0]: the entry 1 is not
    excluded and the entry 0 is. In a forward call of the small model an
    instruction with the entry 1 is attended to, as it is without a mask,
    and an instruction with the entry 0 is left out. *)
Lemma invert_mask_nonzero_attended :
  at2 [[1; 0]] 0 0 = Some 1
  ∧ excluded (TransformerBlock.invert_mask (Some [[1; 0]])) 0 0 = false
  ∧ at2 [[1; 0]] 0 1 = Some 0
  ∧ excluded (TransformerBlock.invert_mask (Some [[1; 0]])) 0 1 = true
  ∧ ¬ (forall (mask : list (list Z)) n j e,
         at2 mask n j = Some e ->
         (excluded (TransformerBlock.invert_mask (Some mask)) n j = true <-> e ≠ 0))
  ∧ fst (LongNetViT.forward Small.querys Small.contexts Small.instructs Small.corners
           Small.patch_size (Some [[1]]) None Small.world)
    = fst (LongNetViT.forward Small.querys Small.contexts Small.instructs Small.corners
             Small.patch_size None None Small.world)
  ∧ fst (LongNetViT.forward Small.querys Small.contexts Small.instructs Small.corners
           Small.patch_size (Some [[0]]) None Small.world)
    ≠ fst (LongNetViT.forward Small.querys Small.contexts Small.instructs Small.corners
             Small.patch_size None None Small.world).
Proof.
  split; [reflexivity|]. split; [reflexivity|]. split; [reflexivity|].
  split; [reflexivity|]. split; [|split].
  - intros H. destruct (H [[1; 0]] 0%nat 0%nat 1 eq_refl) as [_ H1].
    discriminate H1. lia.
  - vm_compute. reflexivity.
  - vm_compute. discriminate.
Qed.

(** C10. Without an instruction mask the forward pass builds no mask: every
    self-fusion block of the call is given [None], hands [None] on to its
    attention as [key_padding_mask], and no position of the queries and the
    instructions is excluded; it is not given a mask of ones. *)
Theorem forward_without_mask `{B : Backend} (querys : tensor3) :
  LongNetViT.self_fusion_mask querys None = Ok None
  ∧ (forall full, LongNetViT.self_fusion_mask querys None ≠ Ok (Some full))
  ∧ TransformerBlock.invert_mask None = None
  ∧ (forall b j, excluded (TransformerBlock.invert_mask None) b j = false)
  ∧ (forall contexts instructs coords patch_size kpm w out w',
       LongNetViT.forward querys contexts instructs coords patch_size None kpm w
         = (Ok out, w') ->
       exists contexts0 contexts' querys',
         layers (LongNetViT.model w) instructs (shape1 querys) None kpm
           0 (LongNetViT.num_layers (LongNetViT.model w))
           (contexts0, querys, LongNetViT.generator w)
           (contexts', querys', LongNetViT.generator w'))
  ∧ (forall (blk : TransformerBlock.t) tr (x : tensor3) g y g',
       TransformerBlock.forward blk tr x None g = (Ok y, g') ->
       exists x_in r g1,
         MultiheadAttention.forward (TransformerBlock.attention blk) tr x_in x_in x_in
           None g = (Ok r, g1)).
Proof.
  split; [reflexivity|]. split; [discriminate|]. split; [reflexivity|].
  split; [reflexivity|]. split.
  - intros contexts instructs coords patch_size kpm w out w' Hrun.
    apply forward_Ok_inv in Hrun.
    destruct Hrun as (mask' & emb & c0 & c' & q' & Hmask & _ & _ & Hl & _).
    simpl in Hmask. injection Hmask as <-. eauto.
  - intros blk tr x g y g' H. unfold TransformerBlock.forward in H. simpl in H.
    destruct (TransformerBlock.pre_norm blk).
    + apply bind_Ok_inv in H. destruct H as (x_norm & g0 & Hn & H).
      apply pure_res_Ok_inv in Hn. destruct Hn as [_ ->].
      apply bind_Ok_inv in H. destruct H as (r & g1 & Ha & _). eauto.
    + apply bind_Ok_inv in H. destruct H as (r & g1 & Ha & _). eauto.
Qed.

Lemma forward_without_mask_witness :
  LongNetViT.self_fusion_mask Small.querys None = Ok None
  ∧ excluded (TransformerBlock.invert_mask None) 0 2 = false.
Proof.
  destruct (forward_without_mask Small.querys) as (H1 & _ & _ & H4 & _).
  split; [exact H1 | exact (H4 0%nat 2%nat)].
Defined.

(** ** The gather of the position table *)

Section gather_forward.
Context `{B : Backend}.
Import LongNetViT.

Lemma forward_gather_Raise querys contexts instructs coords patch_size mask kpm w e :
  (exists mask', self_fusion_mask querys mask = Ok mask') ->
  gather (pos_embed (model w)) (coords_to_pos (model w) coords patch_size) = Raise e ->
  forward querys contexts instructs coords patch_size mask kpm w = (Raise e, w).
Proof.
  intros [mask' Hm] Hg. unfold forward, bind, pure_res, gets. rewrite Hm, Hg. reflexivity.
Qed.

Lemma gather_Ok (table : list (list F)) (pos : list (list Z)) :
  Forall (Forall (in_table (Z.of_nat (length table)))) pos ->
  exists e, gather [table] pos = Ok e.
Proof.
  intros Hall. simpl.
  destruct (mapR_ok (mapR (index_row table)) _ (fun _ => True) pos Hall) as (e & E & _).
  - intros r Hr.
    destruct (mapR_ok (index_row table) _ (fun _ => True) r Hr) as (s & Es & _).
    + intros i Hi. destruct (index_row_Ok table i Hi) as (v & Ev & _). eauto.
    + eauto.
  - eauto.
Qed.

Lemma gather_rows (table : list (list F)) (pos : list (list Z)) e :
  gather [table] pos = Ok e ->
  forall n j p, at2 pos n j = Some p ->
    in_table (Z.of_nat (length table)) p
    ∧ at2 e n j = table !! Z.to_nat (p mod Z.of_nat (length table)).
Proof.
  simpl. revert e. induction pos as [|r pos IH]; intros e He n j p Hp.
  - unfold at2 in Hp. rewrite lookup_nil in Hp. discriminate.
  - simpl in He. destruct (mapR (index_row table) r) as [er|] eqn:Er; [|discriminate].
    destruct (mapR (mapR (index_row table)) pos) as [es|] eqn:Es; [|discriminate].
    simpl in He. injection He as <-. destruct n as [|n].
    + unfold at2 in *. simpl in *. clear IH Es.
      revert er Er j Hp. induction r as [|i r IHr]; intros er Er j Hp.
      * rewrite lookup_nil in Hp. discriminate.
      * simpl in Er. destruct (index_row table i) as [v|] eqn:Ei; [|discriminate].
        destruct (mapR (index_row table) r) as [vs|] eqn:Evs; [|discriminate].
        simpl in Er. injection Er as <-. destruct j as [|j].
        -- simpl in Hp. injection Hp as ->. simpl.
           destruct (decide (in_table (Z.of_nat (length table)) p)) as [Hin|Hout].
           ++ destruct (index_row_Ok table p Hin) as (v' & Ev' & Hv').
              split; [assumption|]. congruence.
           ++ rewrite (index_row_Raise table p Hout) in Ei. discriminate.
        -- simpl in Hp. simpl. apply (IHr vs eq_refl j Hp).
    + unfold at2 in *. simpl in *. apply (IH es eq_refl n j p Hp).
Qed.
End gather_forward.

(** C5, as the code has it. The gather of the position table raises an
    out-of-range lookup failure, and the forward pass with it, as soon as
    the index that the position indexer returns for one coordinate lies
    outside [-G ** 2, G ** 2). So it does for a coordinate whose row cell
    is [G] and whose column cell [k] is not negative, when the dtype of the
    coordinates holds [G ** 2 + k] (it is below [2 ** p]) and the index is
    computed without rounding. An index in that range is never refused and
    never clamped: the row it reads is the row of that index, counted from
    the end of the table when the index is negative. *)
Theorem forward_index_out_of_range `{B : Backend} (querys contexts instructs : tensor3)
    (coords : Coords.t) (patch_size : spec_float) mask kpm
    (w : LongNetViT.World) (table : list (list F)) :
  LongNetViT.pos_embed (LongNetViT.model w) = [table] ->
  length table = Z.to_nat (LongNetViT.slide_ngrids (LongNetViT.model w) ^ 2) ->
  (exists mask', LongNetViT.self_fusion_mask querys mask = Ok mask') ->
  let G := LongNetViT.slide_ngrids (LongNetViT.model w) in
  let d := Coords.dtype coords in
  let pos := LongNetViT.coords_to_pos (LongNetViT.model w) coords patch_size in
  (Exists (Exists (fun p => ¬ in_table (G ^ 2) p)) pos ->
     LongNetViT.forward querys contexts instructs coords patch_size mask kpm w
       = (Raise IndexError, w))
  ∧ (0 <= G ->
     Exists (Exists (fun c => exists k,
                       cell d patch_size c = Some (G, k)
                       ∧ 0 <= k ∧ G * G + k < 2 ^ Dtype.prec d))
       (Coords.data coords) ->
     LongNetViT.forward querys contexts instructs coords patch_size mask kpm w
       = (Raise IndexError, w))
  ∧ (Forall (Forall (in_table (G ^ 2))) pos ->
     exists embedded,
       gather [table] pos = Ok embedded
       ∧ forall n j p, at2 pos n j = Some p ->
           at2 embedded n j = table !! Z.to_nat (p mod G ^ 2)).
Proof.
  intros Ht Lt Hmask G d pos.
  assert (HG : Z.of_nat (length table) = G ^ 2).
  { rewrite Lt. apply Z2Nat.id. subst G. lia. }
  assert (Hfail : Exists (Exists (fun p => ¬ in_table (G ^ 2) p)) pos ->
            LongNetViT.forward querys contexts instructs coords patch_size mask kpm w
              = (Raise IndexError, w)).
  { intros Hex. apply forward_gather_Raise; [assumption|].
    rewrite Ht. apply gather_Raise. rewrite HG. exact Hex. }
  split; [exact Hfail|]. split.
  - intros HG0 Hex. apply Hfail. subst pos. unfold LongNetViT.coords_to_pos.
    apply Exists_map. eapply Exists_impl; [exact Hex|]. intros r Hr. cbn beta.
    apply Exists_map. eapply Exists_impl; [exact Hr|]. intros c (k & Hcell & Hk & Hs).
    cbn beta. fold d G.
    assert (HGp : G < 2 ^ Dtype.prec d) by nia.
    rewrite (cell_index d G patch_size c G k Hcell) by lia.
    unfold in_table. nia.
  - intros Hall. rewrite <- HG in Hall.
    destruct (gather_Ok table pos Hall) as [embedded He].
    exists embedded. split; [exact He|].
    intros n j p Hp. rewrite <- HG.
    exact (proj2 (gather_rows table pos embedded He n j p Hp)).
Qed.

Lemma forward_index_out_of_range_witness :
  LongNetViT.forward Small.querys [[[10; 10]]] Small.instructs (Small.coords [[(512, 0)]])
    Small.patch_size None None Small.world
  = (Raise IndexError, Small.world).
Proof.
  assert (Ht : LongNetViT.pos_embed (LongNetViT.model Small.world)
               = [[[0; 0]; [1; 1]; [2; 2]; [3; 3]]]) by reflexivity.
  assert (Hm : exists mask', LongNetViT.self_fusion_mask Small.querys None = Ok mask')
    by (exists None; reflexivity).
  refine (proj1 (proj2 (forward_index_out_of_range Small.querys [[[10; 10]]]
                          Small.instructs (Small.coords [[(512, 0)]]) Small.patch_size
                          None None Small.world _ Ht eq_refl Hm)) _ _).
  - vm_compute. discriminate.
  - repeat constructor. exists 0. repeat split; vm_compute; congruence.
Defined.

(** The claim C5 as the specification words it fails on a grid of 2 by 2
    cells: a coordinate whose column cell is 2, one past the last column,
    is not refused; the forward pass returns, and returns what it returns
    for the cell (1, 0), whose index 2 it shares. A coordinate of the row
    -1 is not refused either and reads the row of the cell (1, 0) too. On a
    grid of 4097 by 4097 in float32 even the row cell 4097, one past the
    last row, is not refused: its index is rounded to [G ** 2 - 1], the
    index of the last cell. *)
Lemma forward_column_past_grid_accepted :
  cell Dtype.float32 Small.patch_size
    (Float.of_int Dtype.float32 0, Float.of_int Dtype.float32 512) = Some (0, 2)
  ∧ ¬ in_grid (LongNetViT.slide_ngrids (LongNetViT.model Small.world)) (0, 2)
  ∧ fst (LongNetViT.forward Small.querys [[[10; 10]]] Small.instructs
           (Small.coords [[(0, 512)]]) Small.patch_size None None Small.world)
    = Ok [[[116; 124]; [132; 140]]]
  ∧ fst (LongNetViT.forward Small.querys [[[10; 10]]] Small.instructs
           (Small.coords [[(256, 0)]]) Small.patch_size None None Small.world)
    = Ok [[[116; 124]; [132; 140]]]
  ∧ fst (LongNetViT.forward Small.querys [[[10; 10]]] Small.instructs
           (Small.coords [[(0, 0)]]) Small.patch_size None None Small.world)
    = Ok [[[112; 120]; [128; 136]]]
  ∧ cell Dtype.float32 Small.patch_size
      (Float.of_int Dtype.float32 (-256), Float.of_int Dtype.float32 0) = Some (-1, 0)
  ∧ fst (LongNetViT.forward Small.querys [[[10; 10]]] Small.instructs
           (Small.coords [[(-256, 0)]]) Small.patch_size None None Small.world)
    = Ok [[[116; 124]; [132; 140]]]
  ∧ cell Dtype.float32 Small.patch_size
      (Float.of_int Dtype.float32 1048832, Float.of_int Dtype.float32 0) = Some (4097, 0)
  ∧ LongNetViT.coords_to_pos (small_grid 4097) (Small.coords [[(1048832, 0)]])
      Small.patch_size = [[16785408]]
  ∧ in_table (4097 ^ 2) 16785408.
Proof.
  split; [vm_compute; reflexivity|]. split; [unfold in_grid; simpl; lia|].
  split; [vm_compute; reflexivity|]. split; [vm_compute; reflexivity|].
  split; [vm_compute; reflexivity|]. split; [vm_compute; reflexivity|].
  split; [vm_compute; reflexivity|]. split; [vm_compute; reflexivity|].
  split; [vm_compute; reflexivity|]. unfold in_table. lia.
Qed.

(** ** The layers of the forward pass *)

(** C2. On a well-formed model and operands of the shapes [N, Q, D],
    [N, L, D], [N, I, D] and [N, L, 2], when every index the position
    indexer returns for the coordinates is an index of the table, the
    forward pass returns. It runs the layers 0, ..., [num_layers - 1] in
    this order; layer [i] first replaces the contexts by the output of
    encoder [i] on them and the padding mask, then runs self-fusion block
    [i] on the queries followed by the instructions as the caller gave
    them, and hands the first [Q] positions of its output to cross-fusion
    block [i] with the new contexts as keys and values. The queries after
    the last layer, cast to bfloat16, are the result; its shape is
    [N, Q, D] whatever [L] is, and the model is left as it was. *)
Theorem forward_layer_sequence `{B : Backend} {L : BackendLaws} (d : nat)
    (n l q ii : nat) (querys contexts instructs : tensor3)
    (coords : Coords.t) (patch_size : spec_float) mask kpm (w : LongNetViT.World) :
  wf_model d (LongNetViT.model w) ->
  shape3 n q d querys -> shape3 n l d contexts -> shape3 n ii d instructs ->
  shape2 n l (Coords.data coords) ->
  Forall (Forall (in_table (LongNetViT.slide_ngrids (LongNetViT.model w) ^ 2)))
    (LongNetViT.coords_to_pos (LongNetViT.model w) coords patch_size) ->
  mask_shape n ii mask -> mask_shape n l kpm ->
  exists out w' mask' embedded contexts0 contexts' querys',
    LongNetViT.forward querys contexts instructs coords patch_size mask kpm w = (Ok out, w')
    ∧ LongNetViT.self_fusion_mask querys mask = Ok mask'
    ∧ gather (LongNetViT.pos_embed (LongNetViT.model w))
        (LongNetViT.coords_to_pos (LongNetViT.model w) coords patch_size) = Ok embedded
    ∧ tadd contexts embedded = Ok contexts0
    ∧ layers (LongNetViT.model w) instructs (shape1 querys) mask' kpm
        0 (LongNetViT.num_layers (LongNetViT.model w))
        (contexts0, querys, LongNetViT.generator w)
        (contexts', querys', LongNetViT.generator w')
    ∧ (n ≠ 0%nat -> shape1 querys = q)
    ∧ out = map (map (map to_bfloat16)) querys'
    ∧ shape3 n q d out
    ∧ LongNetViT.model w' = LongNetViT.model w.
Proof.
  intros Hwf Hq Hctx Hin Hco Hpos Hmask Hkpm.
  destruct (forward_total d (LongNetViT.model w) n l q ii querys contexts instructs
              coords patch_size mask kpm Hwf Hq Hctx Hin Hco Hpos Hmask Hkpm w eq_refl)
    as (out & w' & Hrun & Hout & Hmodel).
  destruct (forward_Ok_inv _ _ _ _ _ _ _ _ _ _ Hrun)
    as (mask' & emb & c0 & c' & q' & H1 & H2 & H3 & H4 & H5 & H6).
  exists out, w', mask', emb, c0, c', q'.
  repeat split; try assumption.
  - intros Hn. destruct Hq as [Lq Hq]. destruct querys as [|r querys]; [simpl in Lq; lia|].
    inversion Hq as [|? ? [Lr _] _]. exact Lr.
  - apply Hout.
  - apply Hout.
Qed.

Lemma forward_layer_sequence_witness :
  exists out w',
    LongNetViT.forward Small.querys Small.contexts Small.instructs Small.corners Small.patch_size
      (Some [[1]]) None Small.world = (Ok out, w')
    ∧ shape3 1 2 2 out.
Proof.
  assert (Hq : shape3 1 2 2 Small.querys) by (repeat constructor).
  assert (Hc : shape3 1 4 2 Small.contexts) by (repeat constructor).
  assert (Hi : shape3 1 1 2 Small.instructs) by (repeat constructor).
  assert (Hco : shape2 1 4 (Coords.data Small.corners)) by (repeat constructor).
  assert (Hpos : Forall (Forall (in_table
            (LongNetViT.slide_ngrids (LongNetViT.model Small.world) ^ 2)))
            (LongNetViT.coords_to_pos (LongNetViT.model Small.world) Small.corners
               Small.patch_size)).
  { repeat constructor; vm_compute; congruence. }
  assert (Hm : mask_shape 1 1 (Some [[1]])) by (repeat constructor).
  destruct (@forward_layer_sequence Small.backend Small_laws 2 1 4 2 1
              Small.querys Small.contexts Small.instructs Small.corners Small.patch_size
              (Some [[1]]) None Small.world Small_eval_wf Hq Hc Hi Hco Hpos Hm I)
    as (out & w' & mask' & emb & c0 & c' & q' & Hrun & _ & _ & _ & _ & _ & _ & Hs & _).
  exists out, w'. split; [exact Hrun | exact Hs].
Defined.

(** ** The cross-fusion block *)

(** C7. On operands of matching shapes the cross-fusion block returns
    [norm(query + dropout(attn_output))], where [attn_output] is what the
    attention returns for the query on the keys and values: the query
    enters the sum as it was given, with nothing multiplied to either
    summand. With [return_weights] the result is that same output paired
    with the attention weights, and the generator ends in the same state. *)
Theorem cross_attention_output `{B : Backend} {L : BackendLaws} (d : nat)
    (self : CrossAttention.t) (tr : bool) (n lq lk : nat)
    (query key value : tensor3) kpm (g : RNG) :
  wf_CrossAttention d self ->
  shape3 n lq d query -> shape3 n lk d key -> shape3 n lk d value ->
  mask_shape n lk kpm ->
  exists attn_output attn_weights g1 dropped g2 summed output,
    MultiheadAttention.forward (CrossAttention.attn self) tr query key value kpm g
      = (Ok (attn_output, attn_weights), g1)
    ∧ dropout_forward (CrossAttention.dropout self) tr attn_output g1 = (Ok dropped, g2)
    ∧ tadd query dropped = Ok summed
    ∧ LayerNorm.forward (CrossAttention.norm self) summed = Ok output
    ∧ CrossAttention.forward self tr query key value kpm false g = (Ok (output, None), g2)
    ∧ CrossAttention.forward self tr query key value kpm true g
        = (Ok (output, Some attn_weights), g2)
    ∧ shape3 n lq d output.
Proof.
  intros [Ha Hn] Hq Hk Hv Hm.
  destruct (MultiheadAttention_forward_total d _ tr n lq lk query key value kpm
              Ha Hq Hk Hv Hm g I) as ([attn_output attn_weights] & g1 & E1 & Ho & _).
  simpl in Ho.
  destruct (dropout_shape (CrossAttention.dropout self) tr n lq d attn_output Ho g1 I)
    as (dropped & g2 & E2 & Hd).
  destruct (tadd_shape n lq d query dropped Hq Hd) as (summed & E3 & Hs).
  destruct (LayerNorm_forward_shape d _ n lq summed Hn Hs) as (output & E4 & Hout).
  exists attn_output, attn_weights, g1, dropped, g2, summed, output.
  split; [exact E1|]. split; [exact E2|]. split; [exact E3|]. split; [exact E4|].
  split; [|split; [|exact Hout]];
    unfold CrossAttention.forward, bind, pure_res, ret; rewrite E1, E2, E3, E4;
    reflexivity.
Qed.

Lemma cross_attention_output_witness :
  CrossAttention.forward Small.cross true Small.querys Small.contexts Small.contexts
    None true 0%nat
  = (Ok ([[[202; 204]; [206; 208]]], Some [[[0; 0; 0; 0]; [0; 0; 0; 0]]]), 2%nat).
Proof.
  assert (Hwf : wf_CrossAttention 2 Small.cross).
  { repeat split; simpl; try reflexivity. lia. }
  assert (Hq : shape3 1 2 2 Small.querys) by (repeat constructor).
  assert (Hc : shape3 1 4 2 Small.contexts) by (repeat constructor).
  destruct (@cross_attention_output Small.backend Small_laws 2 Small.cross true 1 2 4
              Small.querys Small.contexts Small.contexts None 0%nat Hwf Hq Hc Hc I)
    as (ao & aw & g1 & dr & g2 & su & out & _ & _ & _ & _ & _ & Htrue & _).
  rewrite Htrue. vm_compute in Htrue. symmetry. exact Htrue.
Defined.

(** ** Evaluation mode *)

(** C9. Outside training, when the library layers draw no random number,
    a forward call returns a result that its operands and the model
    determine, whatever the state of the generator, and leaves the world,
    model and generator, as it found it: a second call with the same
    operands returns the same result. *)
Theorem forward_eval_deterministic `{B : Backend} {L : BackendLaws}
    (querys contexts instructs : tensor3) (coords : Coords.t)
    (patch_size : spec_float) mask kpm (w : LongNetViT.World) :
  LongNetViT.training (LongNetViT.model w) = false ->
  exists r,
    (forall g,
       LongNetViT.forward querys contexts instructs coords patch_size mask kpm
         {| LongNetViT.model := LongNetViT.model w; LongNetViT.generator := g |}
       = (r, {| LongNetViT.model := LongNetViT.model w; LongNetViT.generator := g |}))
    ∧ LongNetViT.forward querys contexts instructs coords patch_size mask kpm w = (r, w)
    ∧ (forall w1,
         snd (LongNetViT.forward querys contexts instructs coords patch_size mask kpm w)
           = w1 ->
         LongNetViT.forward querys contexts instructs coords patch_size mask kpm w1
           = (r, w)).
Proof.
  intros Hm.
  destruct (forward_eval (LongNetViT.model w) querys contexts instructs coords
              patch_size mask kpm Hm) as [r Hr].
  exists r. split; [|split].
  - intros g. apply Hr. reflexivity.
  - apply Hr. reflexivity.
  - intros w1 <-. rewrite (Hr w eq_refl). simpl. apply Hr. reflexivity.
Qed.

Lemma forward_eval_deterministic_witness :
  fst (LongNetViT.forward Small.querys Small.contexts Small.instructs Small.corners
         Small.patch_size (Some [[0]]) None Small.world)
  = Ok [[[260; 268]; [276; 284]]]
  ∧ snd (LongNetViT.forward Small.querys Small.contexts Small.instructs Small.corners
           Small.patch_size (Some [[0]]) None Small.world)
    = Small.world.
Proof.
  destruct (@forward_eval_deterministic Small.backend Small_laws
              Small.querys Small.contexts Small.instructs Small.corners Small.patch_size
              (Some [[0]]) None Small.world eq_refl) as (r & _ & Hr & _).
  split; [vm_compute; reflexivity|]. rewrite Hr. reflexivity.
Defined.

(** In training mode the same call advances the generator. *)
Example forward_training_draws :
  LongNetViT.generator
    (snd (LongNetViT.forward Small.querys Small.contexts Small.instructs Small.corners
            Small.patch_size (Some [[0]]) None Small.training_world))
  ≠ LongNetViT.generator Small.training_world.
Proof. vm_compute. discriminate. Qed.

(** ** The position table *)

Lemma map_length_replicate {A} (t : list (list A)) n d :
  map length t = replicate n d -> length t = n ∧ Forall (fun r => length r = d) t.
Proof.
  revert n. induction t as [|r t IH]; intros [|n] H; simpl in H; try discriminate.
  - auto.
  - injection H as Hr Ht. destruct (IH n Ht) as [Hl Hf]. simpl. auto.
Qed.

Lemma sizes_zeros `{B : Backend} n d :
  sizes (zeros 1 n d) = [replicate n d].
Proof.
  unfold sizes, zeros. simpl. f_equal.
  induction n as [|n IH]; simpl; [reflexivity|].
  rewrite length_replicate. f_equal. exact IH.
Qed.

Lemma run_all_keeps `{B : Backend} (calls : list Calls.call) (w : LongNetViT.World) :
  LongNetViT.model (snd (Calls.run_all calls w)) = LongNetViT.model w.
Proof.
  revert w. induction calls as [|c calls IH]; intros w; simpl; [reflexivity|].
  pose proof (keeps_forward (Calls.querys c) (Calls.contexts c) (Calls.instructs c)
                (Calls.coords c) (Calls.patch_size c) (Calls.self_attention_mask c)
                (Calls.key_padding_mask c) w) as Hk.
  unfold Calls.run. destruct (LongNetViT.forward _ _ _ _ _ _ _ w) as [r w1]. simpl in Hk.
  specialize (IH w1). destruct (Calls.run_all calls w1) as [rs w2]. simpl in *.
  congruence.
Qed.

Lemma init_pos_embed `{B : Backend} (a : Args.t) g m g' :
  LongNetViT.__init__ a g = (Ok m, g') ->
  Args.slide_ngrids a ≠ 0 ->
  let table :=
    map (map to_float32)
      (get_2d_sincos_pos_embed (Args.embed_dim a) (Args.slide_ngrids a) false) in
  LongNetViT.pos_embed m = [table]
  ∧ length table = Z.to_nat (Args.slide_ngrids a ^ 2)
  ∧ Forall (fun r => length r = Args.embed_dim a) table.
Proof.
  intros Hinit HG table.
  destruct (init_Ok_inv a g m g' Hinit) as (_ & _ & _ & Hcopy & _).
  fold table in Hcopy.
  unfold copy_ in Hcopy. destruct (decide _) as [Hs|]; [|discriminate].
  injection Hcopy as Hm. rewrite sizes_zeros in Hs. unfold sizes in Hs. simpl in Hs.
  injection Hs as Hs. symmetry in Hs. apply map_length_replicate in Hs.
  destruct Hs as [Hl Hf]. auto.
Qed.

(** ** The constructor returns a well-formed model *)

Section init_wf.
Context `{B : Backend} {IL : InitLaws}.
Import LongNetViT.

Lemma wf_LayerNorm_init d : wf_LayerNorm d (LayerNorm.__init__ d).
Proof. unfold wf_LayerNorm. simpl. rewrite !length_replicate. auto. Qed.

Lemma wf_LayerNorm_init_weights d ln : wf_LayerNorm d ln -> wf_LayerNorm d (_init_weights ln).
Proof.
  intros (H1 & H2 & H3). unfold wf_LayerNorm, _init_weights. simpl.
  rewrite !length_map. auto.
Qed.

Lemma wf_MultiheadAttention_init d h p bf g m g' :
  MultiheadAttention.__init__ d h p bf g = (Ok m, g') -> wf_MultiheadAttention d m.
Proof.
  intros H. apply MultiheadAttention_init_Ok_inv in H.
  destruct H as (E1 & E2 & _ & Hh & Hm & g0 & Hw).
  unfold wf_MultiheadAttention. rewrite E2.
  split; [eapply mha_init_dim; exact Hw | auto].
Qed.

Lemma wf_MultiheadAttention_apply d m g m' g' :
  wf_MultiheadAttention d m -> apply_MultiheadAttention m g = (Ok m', g') ->
  wf_MultiheadAttention d m'.
Proof.
  intros (Hd & Hh & Hm) H. unfold apply_MultiheadAttention in H.
  apply bind_Ok_inv in H. destruct H as (w & g1 & Hw & H).
  apply ret_Ok_inv in H. destruct H as [-> _].
  unfold wf_MultiheadAttention. simpl.
  split; [rewrite (mha_apply_init_dim _ _ _ _ Hw); exact Hd | auto].
Qed.

Lemma wf_TransformerBlock_init d h ff iv dr dp pn g b g' :
  TransformerBlock.__init__ d h ff iv dr dp pn g = (Ok b, g') -> wf_TransformerBlock d b.
Proof.
  unfold TransformerBlock.__init__. intros H.
  apply bind_Ok_inv in H. destruct H as (a & g1 & Ha & H).
  apply wf_MultiheadAttention_init in Ha.
  apply bind_Ok_inv in H. destruct H as (f & g2 & Hf & H).
  unfold Mlp.__init__ in Hf.
  apply bind_Ok_inv in Hf. destruct Hf as (w & g3 & Hw & Hf).
  apply ret_Ok_inv in Hf. destruct Hf as [-> _].
  apply ret_Ok_inv in H. destruct H as [-> _].
  unfold wf_TransformerBlock. simpl. rewrite !length_replicate.
  repeat split; try apply wf_LayerNorm_init; try apply Ha.
  eapply mlp_init_dim. exact Hw.
Qed.

Lemma wf_TransformerBlock_apply d b g b' g' :
  wf_TransformerBlock d b -> apply_TransformerBlock b g = (Ok b', g') ->
  wf_TransformerBlock d b'.
Proof.
  intros (Ha & Hn1 & Hn2 & Hg1 & Hg2 & Hf) H. unfold apply_TransformerBlock in H.
  apply bind_Ok_inv in H. destruct H as (a & g1 & Happ & H).
  apply (wf_MultiheadAttention_apply d) in Happ; [|exact Ha].
  apply bind_Ok_inv in H. destruct H as (f & g2 & Hmlp & H).
  unfold apply_Mlp in Hmlp.
  apply bind_Ok_inv in Hmlp. destruct Hmlp as (w & g3 & Hw & Hmlp).
  apply ret_Ok_inv in Hmlp. destruct Hmlp as [-> _].
  apply ret_Ok_inv in H. destruct H as [-> _].
  unfold wf_TransformerBlock. simpl.
  split; [exact Happ|]. split; [apply wf_LayerNorm_init_weights; exact Hn1|].
  split; [apply wf_LayerNorm_init_weights; exact Hn2|].
  split; [exact Hg1|]. split; [exact Hg2|].
  rewrite (mlp_apply_init_dim _ _ _ _ Hw). exact Hf.
Qed.

Lemma wf_CrossAttention_init d h dr g c g' :
  CrossAttention.__init__ d h dr g = (Ok c, g') -> wf_CrossAttention d c.
Proof.
  unfold CrossAttention.__init__. intros H.
  apply bind_Ok_inv in H. destruct H as (a & g1 & Ha & H).
  apply wf_MultiheadAttention_init in Ha.
  apply ret_Ok_inv in H. destruct H as [-> _].
  split; [exact Ha | apply wf_LayerNorm_init].
Qed.

Lemma wf_CrossAttention_apply d c g c' g' :
  wf_CrossAttention d c -> apply_CrossAttention c g = (Ok c', g') ->
  wf_CrossAttention d c'.
Proof.
  intros [Ha Hn] H. unfold apply_CrossAttention in H.
  apply bind_Ok_inv in H. destruct H as (a & g1 & Happ & H).
  apply (wf_MultiheadAttention_apply d) in Happ; [|exact Ha].
  apply ret_Ok_inv in H. destruct H as [-> _].
  split; [exact Happ | apply wf_LayerNorm_init_weights; exact Hn].
Qed.

(** Every model the constructor returns is well-formed, when the encoder
    that goes by the name the constructor asks for is one for the embedding
    width. *)
Lemma init_wf (a : Args.t) g m g' :
  __init__ a g = (Ok m, g') ->
  Args.slide_ngrids a ≠ 0 ->
  (forall s w s',
     make_longnet_from_name (encoder_name_of a) (Args.drop_path_rate a) (Args.dropout a)
       "[512, 1024, 2048, 4096, 8192]" s = (Ok w, s') ->
     encoder_dim w = Args.embed_dim a) ->
  wf_model (Args.embed_dim a) m.
Proof.
  intros Hinit HG Henc.
  destruct (init_pos_embed a g m g' Hinit HG) as (Ht & Hl & Hf).
  destruct (init_Ok_gen
              (fun e => encoder_dim (LongNet.params e) = Args.embed_dim a)
              (wf_TransformerBlock (Args.embed_dim a))
              (wf_CrossAttention (Args.embed_dim a)) a g m g')
    as (HG' & _ & _ & _ & [Le He] & [Ls Hs] & [Lc Hc]); try assumption.
  - intros s e s' H. unfold LongNet.make in H.
    apply bind_Ok_inv in H. destruct H as (w & s1 & Hw & H).
    apply ret_Ok_inv in H. destruct H as [-> _]. simpl. eapply Henc. exact Hw.
  - intros s b s'. apply wf_TransformerBlock_init.
  - intros s c s'. apply wf_CrossAttention_init.
  - intros e s e' s' He H. unfold apply_LongNet in H.
    apply bind_Ok_inv in H. destruct H as (w & s1 & Hw & H).
    apply ret_Ok_inv in H. destruct H as [-> _]. simpl.
    rewrite (encoder_apply_init_dim _ _ _ _ Hw). exact He.
  - intros b s b' s'. apply wf_TransformerBlock_apply.
  - intros c s c' s'. apply wf_CrossAttention_apply.
  - unfold wf_model. split.
    + eexists. split; [exact Ht|]. rewrite HG'. split; [exact Hl | exact Hf].
    + destruct (init_Ok_inv a g m g' Hinit) as (_ & Hn & _).
      rewrite Hn. auto 10.
Qed.
End init_wf.

(** C8. The position table of a model that the constructor returned is the
    table of the sine-cosine generator for the embedding width and the grid
    resolution, cast to float32: [G ** 2] rows of [D] entries, the same
    whatever the generator of random numbers held. No sequence of forward
    calls, in training or not, raising or not, changes the model, so the
    table stays what the constructor wrote; a call that returns has
    gathered rows of that table at the indices of the position indexer and
    added them to the tile embeddings. *)
Theorem pos_embed_written_once `{B : Backend} (a : Args.t) (g : RNG)
    (m : LongNetViT.t) (g' : RNG) :
  LongNetViT.__init__ a g = (Ok m, g') ->
  Args.slide_ngrids a ≠ 0 ->
  let table :=
    map (map to_float32)
      (get_2d_sincos_pos_embed (Args.embed_dim a) (Args.slide_ngrids a) false) in
  LongNetViT.pos_embed m = [table]
  ∧ length table = Z.to_nat (Args.slide_ngrids a ^ 2)
  ∧ Forall (fun r => length r = Args.embed_dim a) table
  ∧ (forall calls gen,
       LongNetViT.model
         (snd (Calls.run_all calls
                 {| LongNetViT.model := m; LongNetViT.generator := gen |})) = m)
  ∧ (forall c gen out w',
       Calls.run c {| LongNetViT.model := m; LongNetViT.generator := gen |} = (Ok out, w') ->
       LongNetViT.pos_embed (LongNetViT.model w') = [table]
       ∧ exists embedded contexts0,
           gather [table] (LongNetViT.coords_to_pos m (Calls.coords c) (Calls.patch_size c))
             = Ok embedded
           ∧ tadd (Calls.contexts c) embedded = Ok contexts0).
Proof.
  intros Hinit HG table.
  destruct (init_pos_embed a g m g' Hinit HG) as (Hm & Hl & Hf). fold table in Hm, Hl, Hf.
  split; [exact Hm|]. split; [exact Hl|]. split; [exact Hf|]. split.
  - intros calls gen. apply (run_all_keeps calls).
  - intros c gen out w' Hrun. unfold Calls.run in Hrun.
    apply forward_Ok_inv in Hrun.
    destruct Hrun as (mask' & emb & c0 & c' & q' & _ & Hg & Ha & _ & _ & Hmodel).
    simpl in Hg, Ha, Hmodel. rewrite Hmodel, Hm. split; [reflexivity|].
    rewrite Hm in Hg. eauto.
Qed.

Lemma pos_embed_written_once_witness :
  LongNetViT.pos_embed Small.model = [[[0; 0]; [1; 1]; [2; 2]; [3; 3]]].
Proof.
  assert (HG : Args.slide_ngrids Small.args ≠ 0) by discriminate.
  exact (proj1 (@pos_embed_written_once Small.backend Small.args 0%nat Small.model 8%nat
                  Small_init HG)).
Defined.

(** ** The arguments of the fusion blocks *)

(** C6, as the code has it. In a model that the constructor returned,
    [num_heads] is the number of heads of the attention of every
    self-fusion and every cross-fusion block and [ff_dim] the hidden width
    of the feed-forward layer of every self-fusion block (a cross-fusion
    block has no feed-forward layer); [dropout] and [drop_path_rate] are
    the regularization strengths of every context encoder. The fusion
    blocks are built with the defaults of their own constructors, a
    dropout and a drop-path probability of 0.1. *)
Theorem fusion_blocks_configuration `{B : Backend} (a : Args.t) (g : RNG)
    (m : LongNetViT.t) (g' : RNG) :
  LongNetViT.__init__ a g = (Ok m, g') ->
  (length (LongNetViT.encoder_wsi m) = Args.num_layers a
   ∧ length (LongNetViT.self_attention m) = Args.num_layers a
   ∧ length (LongNetViT.cross_attention m) = Args.num_layers a)
  ∧ Forall (fun b =>
        MultiheadAttention.num_heads (TransformerBlock.attention b) = Args.num_heads a
        ∧ Mlp.hidden_features (TransformerBlock.ffn b) = Args.ff_dim a)
      (LongNetViT.self_attention m)
  ∧ Forall (fun c =>
        MultiheadAttention.num_heads (CrossAttention.attn c) = Args.num_heads a)
      (LongNetViT.cross_attention m)
  ∧ Forall (fun e =>
        LongNet.dropout e = Args.dropout a
        ∧ LongNet.drop_path_rate e = Args.drop_path_rate a)
      (LongNetViT.encoder_wsi m)
  ∧ Forall (fun b =>
        MultiheadAttention.dropout (TransformerBlock.attention b) = 0.1%Q
        ∧ Mlp.drop (TransformerBlock.ffn b) = 0.1%Q
        ∧ TransformerBlock.drop_path1 b = DropPath.DropPath 0.1%Q
        ∧ TransformerBlock.drop_path2 b = DropPath.DropPath 0.1%Q)
      (LongNetViT.self_attention m)
  ∧ Forall (fun c =>
        MultiheadAttention.dropout (CrossAttention.attn c) = 0.1%Q
        ∧ CrossAttention.dropout c = 0.1%Q)
      (LongNetViT.cross_attention m).
Proof.
  intros Hinit.
  destruct (init_Ok_inv a g m g' Hinit)
    as (_ & _ & _ & _ & [Le He] & [Ls Hs] & [Lc Hc]).
  split; [auto|].
  split.
  { eapply Forall_impl; [exact Hs|]. intros b Hb. simpl.
    unfold self_fusion_built in Hb. tauto. }
  split.
  { eapply Forall_impl; [exact Hc|]. intros c Hb. simpl.
    unfold cross_fusion_built in Hb. tauto. }
  split.
  { eapply Forall_impl; [exact He|]. intros e Hb. simpl.
    unfold encoder_built in Hb. tauto. }
  split.
  - eapply Forall_impl; [exact Hs|]. intros b (_ & _ & H3 & _ & _ & H6 & H7 & H8). simpl.
    auto.
  - eapply Forall_impl; [exact Hc|]. intros c (_ & _ & H3 & H4). simpl. auto.
Qed.

Lemma fusion_blocks_configuration_witness :
  Forall (fun b =>
      MultiheadAttention.num_heads (TransformerBlock.attention b) = 1%nat
      ∧ Mlp.hidden_features (TransformerBlock.ffn b) = 4%nat)
    (LongNetViT.self_attention Small.model)
  ∧ Forall (fun e => LongNet.dropout e = 0.25%Q ∧ LongNet.drop_path_rate e = 0.2%Q)
      (LongNetViT.encoder_wsi Small.model).
Proof.
  destruct (@fusion_blocks_configuration Small.backend Small.args 0%nat Small.model 8%nat
              Small_init) as (_ & Hs & _ & He & _).
  split; [exact Hs | exact He].
Defined.

(** The claim C6 as the specification words it fails on a model built with
    [dropout=0.25] and [drop_path_rate=0.2]: its self-fusion and
    cross-fusion blocks have a dropout and a drop-path probability of
    0.1. *)
Lemma fusion_blocks_ignore_dropout :
  LongNetViT.__init__ (B := Small.backend) Small.args 0%nat = (Ok Small.model, 8%nat)
  ∧ Args.dropout Small.args = 0.25%Q
  ∧ Args.drop_path_rate Small.args = 0.2%Q
  ∧ ¬ Forall (fun b =>
        (MultiheadAttention.dropout (TransformerBlock.attention b)
           == Args.dropout Small.args)%Q)
      (LongNetViT.self_attention Small.model)
  ∧ ¬ Forall (fun b =>
        exists p, TransformerBlock.drop_path1 b = DropPath.DropPath p
                  ∧ (p == Args.drop_path_rate Small.args)%Q)
      (LongNetViT.self_attention Small.model)
  ∧ ¬ Forall (fun c => (CrossAttention.dropout c == Args.dropout Small.args)%Q)
      (LongNetViT.cross_attention Small.model).
Proof.
  split; [exact Small_init|]. split; [reflexivity|]. split; [reflexivity|].
  split; [|split].
  - intros H. inversion H as [|b bs Hb _]; subst. vm_compute in Hb. discriminate.
  - intros H. inversion H as [|b bs [p [Hp Hq]] _]; subst.
    vm_compute in Hp. injection Hp as <-. vm_compute in Hq. discriminate.
  - intros H. inversion H as [|b bs Hb _]; subst. vm_compute in Hb. discriminate.
Qed.

(** * Further properties *)

(** ** The position indexer on the grid *)

(** X1. When the dtype of the coordinates holds every integer up to
    [G ** 2], the position indexer is one-to-one on the grid: the index of
    an in-grid coordinate gives its row back as the quotient by [G] and its
    column as the remainder, so two coordinates in different cells of the
    grid never share a row of the position table. *)
Theorem coords_to_pos_cell_roundtrip `{B : Backend} (self : LongNetViT.t)
    (coords : Coords.t) (patch_size : spec_float) (n j : nat)
    (c : spec_float * spec_float) (r k : Z) :
  let G := LongNetViT.slide_ngrids self in
  let d := Coords.dtype coords in
  G * G <= 2 ^ Dtype.prec d ->
  at2 (Coords.data coords) n j = Some c ->
  cell d patch_size c = Some (r, k) ->
  in_grid G (r, k) ->
  exists p,
    at2 (LongNetViT.coords_to_pos self coords patch_size) n j = Some p
    ∧ p / G = r
    ∧ p mod G = k
    ∧ (forall n' j' c' r' k' p',
         at2 (Coords.data coords) n' j' = Some c' ->
         cell d patch_size c' = Some (r', k') ->
         in_grid G (r', k') ->
         at2 (LongNetViT.coords_to_pos self coords patch_size) n' j' = Some p' ->
         p' = p -> (r', k') = (r, k)).
Proof.
  intros G d HG Hc Hcell Hin.
  assert (Hdiv : forall r0 k0, in_grid G (r0, k0) ->
            (r0 * G + k0) / G = r0 ∧ (r0 * G + k0) mod G = k0).
  { intros r0 k0 [Hr Hk]. simpl in *. split.
    - symmetry. apply (Z.div_unique_pos _ G r0 k0); lia.
    - symmetry. apply (Z.mod_unique_pos _ G r0 k0); lia. }
  exists (r * G + k).
  destruct (Hdiv _ _ Hin) as [Hq Hm].
  destruct (coords_to_pos_in_grid self coords patch_size n j c r k HG Hc Hcell Hin)
    as [Hp _].
  split; [exact Hp|]. split; [exact Hq|]. split; [exact Hm|].
  intros n' j' c' r' k' p' Hc' Hcell' Hin' Hp' Heq.
  destruct (coords_to_pos_in_grid self coords patch_size n' j' c' r' k' HG Hc' Hcell' Hin')
    as [Hp'' _].
  destruct (Hdiv _ _ Hin') as [Hq' Hm'].
  fold G in Hp''. rewrite Hp' in Hp''. injection Hp'' as Hp''.
  f_equal; congruence.
Qed.

Lemma coords_to_pos_cell_roundtrip_witness :
  exists p,
    at2 (LongNetViT.coords_to_pos Small.model Small.corners Small.patch_size) 0 2 = Some p
    ∧ p / 2 = 1 ∧ p mod 2 = 0.
Proof.
  assert (HG : LongNetViT.slide_ngrids Small.model * LongNetViT.slide_ngrids Small.model
               <= 2 ^ Dtype.prec (Coords.dtype Small.corners)) by (vm_compute; discriminate).
  assert (Hc : at2 (Coords.data Small.corners) 0 2
               = Some (Float.of_int Dtype.float32 256, Float.of_int Dtype.float32 0))
    by reflexivity.
  assert (Hcell : cell (Coords.dtype Small.corners) Small.patch_size
                    (Float.of_int Dtype.float32 256, Float.of_int Dtype.float32 0)
                  = Some (1, 0)) by (vm_compute; reflexivity).
  assert (Hin : in_grid (LongNetViT.slide_ngrids Small.model) (1, 0)).
  { vm_compute. repeat split; congruence. }
  destruct (coords_to_pos_cell_roundtrip Small.model Small.corners Small.patch_size 0 2
              _ 1 0 HG Hc Hcell Hin) as (p & Hp & Hq & Hm & _).
  exists p. split; [exact Hp|]. split; [exact Hq | exact Hm].
Defined.

(** ** What the forward pass refuses *)

Lemma broadcast_mismatch {A} (f : A -> A -> Res A) (xs ys : list A) :
  length xs ≠ length ys -> length xs ≠ 1%nat -> length ys ≠ 1%nat ->
  broadcast f xs ys = Raise RuntimeError.
Proof.
  intros Hne Hx Hy. unfold broadcast. rewrite decide_False by assumption.
  destruct xs as [|x [|x' xs]]; destruct ys as [|y [|y' ys]]; simpl in *;
    try reflexivity; congruence.
Qed.

(** X3. An instruction mask whose batch size differs from that of the
    queries is refused at the concatenation with a runtime error, before
    the position table is read and before any layer runs; the world is left
    as it was. *)
Theorem forward_mask_batch_mismatch `{B : Backend} (querys contexts instructs : tensor3)
    (coords : Coords.t) (patch_size : spec_float) (mask : list (list Z)) kpm
    (w : LongNetViT.World) :
  length mask ≠ length querys ->
  LongNetViT.forward querys contexts instructs coords patch_size (Some mask) kpm w
  = (Raise RuntimeError, w).
Proof.
  intros Hne. unfold LongNetViT.forward, LongNetViT.self_fusion_mask, cat_dim1.
  rewrite decide_False.
  - reflexivity.
  - unfold ones, shape0. rewrite length_replicate. congruence.
Qed.

Lemma forward_mask_batch_mismatch_witness :
  LongNetViT.forward Small.querys Small.contexts Small.instructs Small.corners Small.patch_size
    (Some [[1]; [1]]) None Small.world
  = (Raise RuntimeError, Small.world).
Proof.
  apply (forward_mask_batch_mismatch Small.querys Small.contexts Small.instructs
           Small.corners Small.patch_size [[1]; [1]] None Small.world).
  simpl. lia.
Defined.

(** X4. Tile embeddings and coordinates of different lengths are refused:
    when the table lookup succeeds for [L'] coordinates per slide and the
    tile sequence has [L] entries per slide, with [L] and [L'] different
    and neither equal to one, the sum of the embeddings and the gathered
    rows raises a runtime error; nothing is truncated and no layer runs. *)
Theorem forward_length_mismatch `{B : Backend} (n l l' d : nat)
    (querys contexts instructs : tensor3) (coords : Coords.t)
    (patch_size : spec_float) mask kpm (w : LongNetViT.World) (table : list (list F)) :
  LongNetViT.pos_embed (LongNetViT.model w) = [table] ->
  Forall (Forall (in_table (Z.of_nat (length table))))
    (LongNetViT.coords_to_pos (LongNetViT.model w) coords patch_size) ->
  (exists mask', LongNetViT.self_fusion_mask querys mask = Ok mask') ->
  shape3 n l d contexts -> shape2 n l' (Coords.data coords) ->
  n ≠ 0%nat -> l ≠ l' -> l ≠ 1%nat -> l' ≠ 1%nat ->
  LongNetViT.forward querys contexts instructs coords patch_size mask kpm w
  = (Raise RuntimeError, w).
Proof.
  intros Ht Hpos [mask' Hmask] [Ln Hc] Hco Hn Hl Hl1 Hl1'.
  destruct (gather_Ok table _ Hpos) as [embedded He].
  assert (Hsh : length embedded = n ∧ Forall (fun r => length r = l') embedded).
  { simpl in He. destruct Hco as [Lco Hrows].
    assert (Hlen : forall (pos : list (list Z)) e,
              mapR (mapR (index_row table)) pos = Ok e ->
              length e = length pos
              ∧ (forall k, Forall (fun r => length r = k) pos ->
                           Forall (fun r => length r = k) e)).
    { induction pos as [|r pos IH]; intros e Hr; simpl in Hr.
      - injection Hr as <-. split; [reflexivity | constructor].
      - destruct (mapR (index_row table) r) as [er|] eqn:Er; [|discriminate].
        destruct (mapR (mapR (index_row table)) pos) as [es|] eqn:Es; [|discriminate].
        simpl in Hr. injection Hr as <-. destruct (IH es eq_refl) as [Le Hf].
        split; [simpl; congruence|]. intros k Hk. inversion Hk as [|? ? Hr0 Hk']; subst.
        constructor; [|apply Hf; assumption].
        clear - Er. revert er Er. induction r as [|i r IHr]; intros er Er; simpl in Er.
        + injection Er as <-. reflexivity.
        + destruct (index_row table i); [|discriminate]. simpl in Er.
          destruct (mapR (index_row table) r) as [vs|]; [|discriminate].
          simpl in Er. injection Er as <-. simpl. f_equal. apply IHr. reflexivity. }
    destruct (Hlen _ _ He) as [Le Hf]. split.
    - rewrite Le. unfold LongNetViT.coords_to_pos. rewrite length_map. exact Lco.
    - apply Hf. unfold LongNetViT.coords_to_pos. apply Forall_map.
      eapply Forall_impl; [exact Hrows|]. intros r Hr. simpl. rewrite length_map. exact Hr. }
  assert (Hadd : tadd contexts embedded = Raise RuntimeError).
  { destruct Hsh as [Le Hrows]. unfold tadd. unfold broadcast at 1.
    rewrite decide_True by congruence.
    destruct contexts as [|c0 contexts]; [simpl in Ln; congruence|].
    destruct embedded as [|e1 embedded]; [simpl in Le; congruence|].
    inversion Hc as [|? ? [Lc0 _] _]; subst. inversion Hrows as [|? ? Le1 _]; subst.
    simpl. rewrite broadcast_mismatch by congruence. reflexivity. }
  unfold LongNetViT.forward, bind, pure_res, gets. rewrite Hmask, Ht, He, Hadd. reflexivity.
Qed.

Lemma forward_length_mismatch_witness :
  LongNetViT.forward Small.querys Small.contexts Small.instructs
    (Small.coords [[(0, 0); (0, 256)]]) Small.patch_size None None Small.world
  = (Raise RuntimeError, Small.world).
Proof.
  assert (Ht : LongNetViT.pos_embed (LongNetViT.model Small.world)
               = [[[0; 0]; [1; 1]; [2; 2]; [3; 3]]]) by reflexivity.
  assert (Hm : exists mask', LongNetViT.self_fusion_mask Small.querys None = Ok mask')
    by (exists None; reflexivity).
  assert (Hc : shape3 1 4 2 Small.contexts) by (repeat constructor).
  assert (Hco : shape2 1 2 (Coords.data (Small.coords [[(0, 0); (0, 256)]])))
    by (repeat constructor).
  apply (forward_length_mismatch 1 4 2 2 Small.querys Small.contexts Small.instructs
           (Small.coords [[(0, 0); (0, 256)]]) Small.patch_size None None Small.world _ Ht);
    try assumption; try lia.
  repeat constructor; vm_compute; congruence.
Defined.

Lemma Exists_nonempty_map {A} (f : A -> Z) (P : Z -> Prop) (v : Z)
    (rows : list (list A)) :
  Exists (fun row => row ≠ []) rows -> (forall c, f c = v) -> ¬ P v ->
  Exists (Exists (fun p => ¬ P p)) (map (map f) rows).
Proof.
  intros Hex Hf Hv. induction Hex as [row rows Hrow|row rows _ IH]; simpl.
  - apply Exists_cons_hd. destruct row as [|c row]; [congruence|].
    simpl. apply Exists_cons_hd. rewrite Hf. exact Hv.
  - apply Exists_cons_tl. exact IH.
Qed.

(** X17. A tile size of zero is not refused as such: every quotient is an
    infinity or NaN, which [.long()] turns into [INT64_MIN], and the lookup
    of the position table fails. With [patch_size] zero, of either sign,
    every index is [INT64_MIN] and a forward call with at least one
    coordinate raises an out-of-range lookup failure, whatever the
    coordinates, their dtype and the grid are. *)
Theorem forward_zero_patch_size `{B : Backend} (querys contexts instructs : tensor3)
    (coords : Coords.t) (s : bool) mask kpm (w : LongNetViT.World)
    (table : list (list F)) :
  LongNetViT.pos_embed (LongNetViT.model w) = [table] ->
  Z.of_nat (length table) < 2 ^ 63 ->
  (exists mask', LongNetViT.self_fusion_mask querys mask = Ok mask') ->
  Exists (fun row => row ≠ []) (Coords.data coords) ->
  Forall (Forall (fun p => p = Float.INT64_MIN))
    (LongNetViT.coords_to_pos (LongNetViT.model w) coords (S754_zero s))
  ∧ LongNetViT.forward querys contexts instructs coords (S754_zero s) mask kpm w
    = (Raise IndexError, w).
Proof.
  intros Ht Hlen Hmask Hex.
  assert (Hall : Forall (Forall (fun p => p = Float.INT64_MIN))
                   (LongNetViT.coords_to_pos (LongNetViT.model w) coords (S754_zero s))).
  { unfold LongNetViT.coords_to_pos. apply Forall_map, Forall_forall. intros row _.
    cbn beta. apply Forall_map, Forall_forall. intros c _. cbn beta.
    apply index_zero_tile. }
  split; [exact Hall|].
  apply forward_gather_Raise; [exact Hmask|]. rewrite Ht. apply gather_Raise.
  unfold LongNetViT.coords_to_pos. cbn zeta.
  apply (Exists_nonempty_map _ _ Float.INT64_MIN); [exact Hex | |].
  - intros c. apply index_zero_tile.
  - unfold in_table, Float.INT64_MIN. lia.
Qed.

Lemma forward_zero_patch_size_witness :
  LongNetViT.forward Small.querys Small.contexts Small.instructs Small.corners
    (S754_zero false) None None Small.world
  = (Raise IndexError, Small.world).
Proof.
  assert (Ht : LongNetViT.pos_embed (LongNetViT.model Small.world)
               = [[[0; 0]; [1; 1]; [2; 2]; [3; 3]]]) by reflexivity.
  assert (Hm : exists mask', LongNetViT.self_fusion_mask Small.querys None = Ok mask')
    by (exists None; reflexivity).
  refine (proj2 (forward_zero_patch_size Small.querys Small.contexts Small.instructs
                   Small.corners false None None Small.world _ Ht _ Hm _)).
  - simpl. lia.
  - apply Exists_cons_hd. discriminate.
Defined.

(** X5. A model of no layer returns the queries it was given, cast to
    bfloat16: the instructions and the padding mask are never read, while
    the mask concatenation, the table lookup and the sum with the tile
    embeddings are still carried out and have to succeed. *)
Theorem forward_no_layers `{B : Backend} (querys contexts instructs : tensor3)
    (coords : Coords.t) (patch_size : spec_float) mask kpm (w : LongNetViT.World)
    mask' embedded contexts0 :
  LongNetViT.num_layers (LongNetViT.model w) = 0%nat ->
  LongNetViT.self_fusion_mask querys mask = Ok mask' ->
  gather (LongNetViT.pos_embed (LongNetViT.model w))
    (LongNetViT.coords_to_pos (LongNetViT.model w) coords patch_size) = Ok embedded ->
  tadd contexts embedded = Ok contexts0 ->
  LongNetViT.forward querys contexts instructs coords patch_size mask kpm w
  = (Ok (map (map (map to_bfloat16)) querys), w)
  ∧ (forall instructs' kpm',
       LongNetViT.forward querys contexts instructs' coords patch_size mask kpm' w
       = LongNetViT.forward querys contexts instructs coords patch_size mask kpm w).
Proof.
  intros Hn Hmask Hg Ha.
  assert (Hrun : forall i k,
            LongNetViT.forward querys contexts i coords patch_size mask k w
            = (Ok (map (map (map to_bfloat16)) querys), w)).
  { intros i k. unfold LongNetViT.forward, bind, pure_res, gets.
    rewrite Hmask, Hg, Ha, Hn. reflexivity. }
  split; [apply Hrun|]. intros i k. rewrite !Hrun. reflexivity.
Qed.

Lemma forward_no_layers_witness :
  LongNetViT.forward Small.querys Small.contexts Small.instructs Small.corners Small.patch_size
    None None {| LongNetViT.model := small_no_layers; LongNetViT.generator := 0%nat |}
  = (Ok Small.querys,
     {| LongNetViT.model := small_no_layers; LongNetViT.generator := 0%nat |}).
Proof.
  refine (proj1 (forward_no_layers Small.querys Small.contexts Small.instructs
                   Small.corners Small.patch_size None None
                   {| LongNetViT.model := small_no_layers; LongNetViT.generator := 0%nat |}
                   None [[[0; 0]; [1; 1]; [2; 2]; [3; 3]]]
                   [[[10; 10]; [21; 21]; [32; 32]; [43; 43]]] _ _ _ _));
    reflexivity.
Defined.

(** ** The self-fusion block *)

(** X6. A well-formed self-fusion block returns, for every input of shape
    [N, L, D] and every mask of shape [N, L] or none, in either order of
    normalization and in training or not, a tensor of the shape of its
    input. *)
Theorem TransformerBlock_forward_keeps_shape `{B : Backend} {L : BackendLaws} (d : nat)
    (self : TransformerBlock.t) (tr : bool) (n l : nat) (x : tensor3) mask (g : RNG) :
  wf_TransformerBlock d self -> shape3 n l d x -> mask_shape n l mask ->
  exists y g', TransformerBlock.forward self tr x mask g = (Ok y, g') ∧ shape3 n l d y.
Proof.
  intros Hwf Hx Hm.
  destruct (TransformerBlock_forward_total d self tr n l x mask Hwf Hx Hm g I)
    as (y & g' & E & Hy). eauto.
Qed.

Lemma TransformerBlock_forward_keeps_shape_witness :
  exists y g',
    TransformerBlock.forward small_post_norm_block true [[[1; 2]; [3; 4]; [5; 6]]]
      (Some [[1; 1; 0]]) 0%nat = (Ok y, g')
    ∧ shape3 1 3 2 y.
Proof.
  assert (Hwf : wf_TransformerBlock 2 small_post_norm_block).
  { repeat split; simpl; try reflexivity; lia. }
  assert (Hx : shape3 1 3 2 [[[1; 2]; [3; 4]; [5; 6]]]) by (repeat constructor).
  assert (Hm : mask_shape 1 3 (Some [[1; 1; 0]])) by (repeat constructor).
  exact (@TransformerBlock_forward_keeps_shape Small.backend Small_laws 2
           small_post_norm_block true 1 3 [[[1; 2]; [3; 4]; [5; 6]]] (Some [[1; 1; 0]])
           0%nat Hwf Hx Hm).
Defined.

Lemma invert_mask_same_zeros (m1 m2 : list (list Z)) :
  Forall2 (Forall2 (fun a b => (a =? 0) = (b =? 0))) m1 m2 ->
  TransformerBlock.invert_mask (Some m1) = TransformerBlock.invert_mask (Some m2).
Proof.
  intros H. simpl. f_equal. induction H as [|r1 r2 m1 m2 Hr _ IH]; simpl; [reflexivity|].
  f_equal; [|exact IH]. induction Hr as [|a b r1 r2 Hab _ IHr]; simpl; [reflexivity|].
  f_equal; assumption.
Qed.

Lemma bind_ext {S A C} (c1 c2 : M S A) (k1 k2 : A -> M S C) s :
  c1 s = c2 s -> (forall a s', k1 a s' = k2 a s') -> bind c1 k1 s = bind c2 k2 s.
Proof.
  intros Hc Hk. unfold bind. rewrite Hc. destruct (c2 s) as [[a|e] s']; auto.
Qed.

Lemma bind_pure_Ok {S A C} (a1 a2 : A) (k1 k2 : A -> M S C) s :
  k1 a1 s = k2 a2 s -> bind (pure_res (Ok a1)) k1 s = bind (pure_res (Ok a2)) k2 s.
Proof. intros H. exact H. Qed.

Lemma for_range_ext {S A} (body1 body2 : nat -> A -> M S A) idx :
  (forall i a s, body1 i a s = body2 i a s) ->
  forall a s, for_range idx body1 a s = for_range idx body2 a s.
Proof.
  intros Hb. induction idx as [|i idx IH]; intros a s; simpl; [reflexivity|].
  apply bind_ext; auto.
Qed.

Lemma zip_app_same_zeros (o m1 m2 : list (list Z)) :
  Forall2 (Forall2 (fun a b => (a =? 0) = (b =? 0))) m1 m2 ->
  Forall2 (Forall2 (fun a b => (a =? 0) = (b =? 0))) (zip_with app o m1) (zip_with app o m2).
Proof.
  intros Hz. revert o. induction Hz as [|r1 r2 m1 m2 Hr _ IH]; intros [|q qs]; simpl;
    try constructor.
  - apply Forall2_app; [|exact Hr]. apply Forall_Forall2_diag.
    apply Forall_forall. reflexivity.
  - apply IH.
Qed.

Lemma layer_mask_ext `{B : Backend} mask1 mask2 :
  (forall (blk : TransformerBlock.t) tr (x : tensor3),
     TransformerBlock.forward blk tr x mask1 = TransformerBlock.forward blk tr x mask2) ->
  forall instructs query_length kpm i st w,
    LongNetViT.layer instructs query_length mask1 kpm i st w
    = LongNetViT.layer instructs query_length mask2 kpm i st w.
Proof.
  intros Hblk instructs query_length kpm i [contexts querys] w. unfold LongNetViT.layer.
  apply bind_ext; [reflexivity|]. intros mode w1.
  apply bind_ext; [reflexivity|]. intros enc w2.
  apply bind_ext; [reflexivity|]. intros c1 w3.
  apply bind_ext; [reflexivity|]. intros combined w4.
  apply bind_ext; [reflexivity|]. intros blk w5.
  apply bind_ext; [|reflexivity].
  unfold LongNetViT.lift. rewrite Hblk. reflexivity.
Qed.

(** X7. The self-fusion reads the caller's mask through the test [== 0]
    only: two instruction masks with zeros at the same places make the
    self-fusion block, and the whole forward pass, return the same result
    and leave the same world, whatever the non-zero values are. *)
Theorem forward_mask_zero_pattern `{B : Backend} (m1 m2 : list (list Z)) :
  Forall2 (Forall2 (fun a b => (a =? 0) = (b =? 0))) m1 m2 ->
  (forall (blk : TransformerBlock.t) tr (x : tensor3),
     TransformerBlock.forward blk tr x (Some m1)
     = TransformerBlock.forward blk tr x (Some m2))
  ∧ (forall querys contexts instructs coords patch_size kpm w,
       LongNetViT.forward querys contexts instructs coords patch_size (Some m1) kpm w
       = LongNetViT.forward querys contexts instructs coords patch_size (Some m2) kpm w).
Proof.
  intros Hz.
  assert (Hblk : forall ext1 ext2 : list (list Z),
            Forall2 (Forall2 (fun a b => (a =? 0) = (b =? 0))) ext1 ext2 ->
            forall (blk : TransformerBlock.t) tr (x : tensor3),
              TransformerBlock.forward blk tr x (Some ext1)
              = TransformerBlock.forward blk tr x (Some ext2)).
  { intros ext1 ext2 He blk tr x. unfold TransformerBlock.forward.
    rewrite (invert_mask_same_zeros ext1 ext2 He). reflexivity. }
  split; [apply Hblk; exact Hz|].
  intros querys contexts instructs coords patch_size kpm w.
  assert (Hlen : length m1 = length m2) by (eapply Forall2_length; exact Hz).
  unfold LongNetViT.forward, LongNetViT.self_fusion_mask, cat_dim1.
  destruct (decide (length (ones (shape0 querys) (shape1 querys)) = length m1)) as [E1|N1].
  - rewrite decide_True by congruence. simpl bindR.
    pose proof (zip_app_same_zeros (ones (shape0 querys) (shape1 querys)) m1 m2 Hz) as Hext.
    apply bind_pure_Ok.
    apply bind_ext; [reflexivity|]. intros self w1.
    apply bind_ext; [reflexivity|]. intros embedded w2.
    apply bind_ext; [reflexivity|]. intros contexts0 w3.
    apply bind_ext; [reflexivity|]. intros layers_ w4.
    apply bind_ext; [|reflexivity].
    apply for_range_ext. intros i st s. apply layer_mask_ext. apply Hblk. exact Hext.
  - rewrite decide_False by congruence. reflexivity.
Qed.

Lemma forward_mask_zero_pattern_witness :
  LongNetViT.forward Small.querys Small.contexts Small.instructs Small.corners Small.patch_size
    (Some [[7]]) None Small.world
  = LongNetViT.forward Small.querys Small.contexts Small.instructs Small.corners Small.patch_size
      (Some [[1]]) None Small.world.
Proof.
  assert (Hz : Forall2 (Forall2 (fun a b => (a =? 0) = (b =? 0))) [[7]] [[1]])
    by (repeat constructor).
  exact (proj2 (@forward_mask_zero_pattern Small.backend [[7]] [[1]] Hz)
           Small.querys Small.contexts Small.instructs Small.corners Small.patch_size None
           Small.world).
Defined.

(** ** The learned scale *)

Lemma mapR_pure {A C} (f : A -> Res C) (g : A -> C) (P : A -> Prop) (xs : list A) :
  Forall P xs -> (forall x, P x -> f x = Ok (g x)) -> mapR f xs = Ok (map g xs).
Proof.
  intros HP Hf. induction HP as [|x xs Hx _ IH]; simpl; [reflexivity|].
  rewrite (Hf x Hx), IH. reflexivity.
Qed.

Lemma tmul_last_widen `{B : Backend} n l (x : tensor3) (gamma : list F) :
  shape3 n l 1 x -> length gamma ≠ 1%nat ->
  exists y, tmul_last x gamma = Ok y ∧ shape3 n l (length gamma) y.
Proof.
  intros [Lx Hx] Hg. unfold tmul_last.
  destruct (mapR_ok
              (mapR (fun v => broadcast (fun a g => Ok (fmul a g)) v gamma))
              (shape2 l 1) (shape2 l (length gamma)) x Hx) as (y & E & Ly & Hy).
  - intros r [Lr Hr].
    destruct (mapR_ok (fun v => broadcast (fun a g => Ok (fmul a g)) v gamma)
                (fun v => length v = 1%nat) (fun v => length v = length gamma) r Hr)
      as (s & Es & Ls & Hs).
    + intros v Lv. destruct v as [|a [|a' v]]; try discriminate.
      exists (map (fmul a) gamma). split; [|apply length_map].
      unfold broadcast. rewrite decide_False by (simpl; congruence).
      apply (mapR_pure _ _ (fun _ => True)); [apply Forall_forall; auto | auto].
    + exists s. split; [assumption|]. split; [congruence | assumption].
  - exists y. split; [assumption|]. split; [congruence | assumption].
Qed.

(** X8. The learned scale stores its product in the input when [inplace]
    is set, and the input keeps its shape: on an input whose vectors have
    the width of [gamma] the two modes return the same tensor, of the shape
    of the input; on an input of width one and a [gamma] of another length
    the product out of place is broadcast to the width of [gamma], and the
    product in place is refused with a runtime error. *)
Theorem LayerScale_inplace_keeps_shape `{B : Backend} (gamma : list F) (n l d : nat)
    (x : tensor3) :
  shape3 n l d x ->
  let out_of_place := {| LayerScale.inplace := false; LayerScale.gamma := gamma |} in
  let in_place := {| LayerScale.inplace := true; LayerScale.gamma := gamma |} in
  (length gamma = d ->
     exists y, LayerScale.forward out_of_place x = Ok y
               ∧ LayerScale.forward in_place x = Ok y ∧ shape3 n l d y)
  ∧ (d = 1%nat -> length gamma ≠ 1%nat -> n ≠ 0%nat -> l ≠ 0%nat ->
     (exists y, LayerScale.forward out_of_place x = Ok y ∧ shape3 n l (length gamma) y)
     ∧ LayerScale.forward in_place x = Raise RuntimeError).
Proof.
  intros Hx out_of_place in_place. split.
  - intros Hg. destruct (tmul_last_shape n l d x gamma Hx Hg) as (y & E & Hy).
    exists y. unfold LayerScale.forward. simpl. rewrite E. simpl.
    rewrite decide_True
      by (rewrite (shape3_sizes _ _ _ _ Hx), (shape3_sizes _ _ _ _ Hy); reflexivity).
    auto.
  - intros -> Hg Hn Hl.
    destruct (tmul_last_widen n l x gamma Hx Hg) as (y & E & Hy).
    unfold LayerScale.forward. simpl. rewrite E. simpl. split; [eauto|].
    rewrite decide_False; [reflexivity|].
    rewrite (shape3_sizes _ _ _ _ Hx), (shape3_sizes _ _ _ _ Hy).
    destruct n as [|n]; [congruence|]. destruct l as [|l]; [congruence|].
    simpl. intros [= Heq]. congruence.
Qed.

Lemma LayerScale_inplace_keeps_shape_witness :
  LayerScale.forward (@LayerScale.Build_t Small.backend true [2; 3]) [[[1]; [3]]]
  = Raise RuntimeError
  ∧ exists y,
      LayerScale.forward (@LayerScale.Build_t Small.backend false [2; 3]) [[[1]; [3]]]
      = Ok y
      ∧ shape3 1 2 2 y.
Proof.
  assert (Hx : shape3 1 2 1 ([[[1]; [3]]] : @tensor3 Small.backend))
    by (repeat constructor).
  destruct (proj2 (@LayerScale_inplace_keeps_shape Small.backend [2; 3] 1 2 1
                     [[[1]; [3]]] Hx) eq_refl) as [Hout Hin]; try (simpl; lia).
  split; [exact Hin | exact Hout].
Defined.

(** ** The constructor *)

Lemma MultiheadAttention_init_Ok_dim `{B : Backend} e h p bf g a g' :
  MultiheadAttention.__init__ e h p bf g = (Ok a, g') -> e ≠ 0%nat.
Proof.
  unfold MultiheadAttention.__init__.
  destruct (decide (e = 0%nat ∨ h = 0%nat)) as [|Hpos]; [discriminate|]. tauto.
Qed.

Lemma TransformerBlock_init_refused `{B : Backend} dim h ff iv dr dp pn g :
  (dim = 0%nat ∨ h = 0%nat ->
     TransformerBlock.__init__ dim h ff iv dr dp pn g = (Raise ValueError, g))
  ∧ (dim ≠ 0%nat -> h ≠ 0%nat -> (dim mod h)%nat ≠ 0%nat ->
     TransformerBlock.__init__ dim h ff iv dr dp pn g = (Raise AssertionError, g)).
Proof.
  unfold TransformerBlock.__init__, MultiheadAttention.__init__. split.
  - intros H. rewrite decide_True by exact H. reflexivity.
  - intros Hd Hh Hm. rewrite decide_False by tauto. rewrite decide_False by exact Hm.
    reflexivity.
Qed.

Lemma map_length_Forall {A} (t : list (list A)) d :
  Forall (fun r => length r = d) t -> map length t = replicate (length t) d.
Proof.
  induction 1 as [|r t Hr _ IH]; simpl; [reflexivity|]. rewrite Hr, IH. reflexivity.
Qed.

(** X10. The constructor returns a model with at least one layer only when
    the embedding width and the number of heads are not zero and the
    number of heads divides the width. Otherwise, once the encoders are
    built, the attention of the first self-fusion block refuses: with a
    [ValueError] when one of the two is zero, with an [AssertionError] when
    the width is not a multiple of the number of heads; the generator is
    left as the encoders left it. With no layer no attention is built:
    whatever the number of heads, the constructor returns a model with the
    position table and no module, and draws no random number. *)
Theorem init_needs_divisible_heads `{B : Backend} (a : Args.t) (g : RNG) :
  (forall m g',
     LongNetViT.__init__ a g = (Ok m, g') ->
     Args.num_layers a = 0%nat
     ∨ (Args.embed_dim a ≠ 0%nat ∧ Args.num_heads a ≠ 0%nat
        ∧ (Args.embed_dim a mod Args.num_heads a)%nat = 0%nat))
  ∧ (forall encs g1,
       Args.num_layers a ≠ 0%nat ->
       repeatM (Args.num_layers a)
         (LongNet.make (encoder_name_of a) (Args.drop_path_rate a) (Args.dropout a)
            "[512, 1024, 2048, 4096, 8192]") g = (Ok encs, g1) ->
       (Args.embed_dim a = 0%nat ∨ Args.num_heads a = 0%nat ->
          LongNetViT.__init__ a g = (Raise ValueError, g1))
       ∧ (Args.embed_dim a ≠ 0%nat -> Args.num_heads a ≠ 0%nat ->
          (Args.embed_dim a mod Args.num_heads a)%nat ≠ 0%nat ->
          LongNetViT.__init__ a g = (Raise AssertionError, g1)))
  ∧ (Args.num_layers a = 0%nat ->
     let table :=
       map (map to_float32)
         (get_2d_sincos_pos_embed (Args.embed_dim a) (Args.slide_ngrids a) false) in
     length table = Z.to_nat (Args.slide_ngrids a ^ 2) ->
     Forall (fun r => length r = Args.embed_dim a) table ->
     exists m,
       LongNetViT.__init__ a g = (Ok m, g)
       ∧ LongNetViT.pos_embed m = [table]
       ∧ LongNetViT.encoder_wsi m = []
       ∧ LongNetViT.self_attention m = []
       ∧ LongNetViT.cross_attention m = []).
Proof.
  split; [|split].
  - intros m g' Hinit.
    destruct (init_Ok_gen (fun _ => True)
                (fun _ => Args.embed_dim a ≠ 0%nat ∧ Args.num_heads a ≠ 0%nat
                          ∧ (Args.embed_dim a mod Args.num_heads a)%nat = 0%nat)
                (fun _ => True) a g m g')
      as (_ & _ & _ & _ & _ & [Ls Hs] & _); auto.
    + intros s b s' Hb. unfold TransformerBlock.__init__ in Hb.
      apply bind_Ok_inv in Hb. destruct Hb as (att & s1 & Ha & _).
      pose proof (MultiheadAttention_init_Ok_dim _ _ _ _ _ _ _ Ha) as Hd.
      apply MultiheadAttention_init_Ok_inv in Ha. tauto.
    + destruct (LongNetViT.self_attention m) as [|b bs].
      * left. simpl in Ls. congruence.
      * right. inversion Hs. assumption.
  - intros encs g1 Hn Hencs.
    assert (Hrun : forall e,
              TransformerBlock.__init__ (Args.embed_dim a) (Args.num_heads a)
                (Args.ff_dim a) TransformerBlock.default_init_values
                TransformerBlock.default_dropout TransformerBlock.default_drop_path
                TransformerBlock.default_pre_norm g1 = (Raise e, g1) ->
              LongNetViT.__init__ a g = (Raise e, g1)).
    { intros e He. unfold LongNetViT.__init__.
      change (match Args.mlp_ratio a with
              | Some r => _
              | None => _
              end) with (encoder_name_of a).
      unfold bind at 1. rewrite Hencs.
      destruct (Args.num_layers a) as [|k]; [congruence|].
      unfold bind at 1. cbn [repeatM]. unfold bind at 1. rewrite He. reflexivity. }
    split.
    + intros H. apply Hrun. apply TransformerBlock_init_refused. exact H.
    + intros Hd Hh Hm. apply Hrun. apply TransformerBlock_init_refused; assumption.
  - intros Hn table Hl Hf.
    assert (Hs : sizes (zeros 1 (Z.to_nat (Args.slide_ngrids a ^ 2)) (Args.embed_dim a))
                 = sizes [table]).
    { rewrite sizes_zeros. unfold sizes. cbn [map]. f_equal.
      rewrite (map_length_Forall _ _ Hf), Hl. reflexivity. }
    eexists. split.
    + unfold LongNetViT.__init__. rewrite Hn. cbn [repeatM].
      unfold LongNetViT.initialize_vit_weights, bind, ret, pure_res, copy_.
      cbn [LongNetViT.pos_embed LongNetViT.pos_embed_shape LongNetViT.slide_ngrids
           LongNetViT.shape_last snd LongNetViT.encoder_wsi LongNetViT.self_attention
           LongNetViT.cross_attention mapS].
      fold table. rewrite decide_True by exact Hs. reflexivity.
    + repeat split.
Qed.

Lemma init_needs_divisible_heads_witness :
  LongNetViT.__init__ (B := Small.backend)
    {| Args.in_chans := 4096; Args.embed_dim := 2; Args.depth := 2;
       Args.slide_ngrids := 2; Args.tile_size := 256; Args.max_wsi_size := 512;
       Args.dropout := 0.25%Q; Args.drop_path_rate := 0.2%Q; Args.num_layers := 1;
       Args.num_heads := 3; Args.ff_dim := 4; Args.mlp_ratio := None |} 0%nat
  = (Raise AssertionError, 1%nat)
  ∧ exists m,
      LongNetViT.__init__ (B := Small.backend) small_args_no_layers 5%nat = (Ok m, 5%nat)
      ∧ LongNetViT.pos_embed m = [[[0; 0]; [1; 1]; [2; 2]; [3; 3]]]
      ∧ LongNetViT.self_attention m = [].
Proof.
  split.
  - pose proof (proj1 (proj2 (@init_needs_divisible_heads Small.backend
                  {| Args.in_chans := 4096; Args.embed_dim := 2; Args.depth := 2;
                     Args.slide_ngrids := 2; Args.tile_size := 256;
                     Args.max_wsi_size := 512; Args.dropout := 0.25%Q;
                     Args.drop_path_rate := 0.2%Q; Args.num_layers := 1;
                     Args.num_heads := 3; Args.ff_dim := 4; Args.mlp_ratio := None |}
                  0%nat))) as H.
    cbn [Args.num_layers Args.embed_dim Args.num_heads] in H.
    eapply H; [discriminate | reflexivity | discriminate | discriminate | discriminate].
  - destruct (proj2 (proj2 (@init_needs_divisible_heads Small.backend
                               small_args_no_layers 5%nat)) eq_refl eq_refl)
      as (m & Hm & Ht & _ & Hs & _).
    + repeat constructor.
    + exists m. split; [exact Hm|]. split; [exact Ht | exact Hs].
Defined.

(** X11. The constructor and the forward pass fit together: on every model
    the constructor returns, when the encoder of the requested name is one
    for the embedding width, a forward call with operands of the shapes
    [N, Q, D], [N, L, D], [N, I, D] and [N, L, 2], coordinates for which
    the position indexer returns indices of the table, and masks of
    matching shapes returns a tensor of shape [N, Q, D],
    in the training mode the constructor leaves the model in, whatever the
    generator holds. *)
Theorem init_then_forward `{B : Backend} {L : BackendLaws} {IL : InitLaws}
    (a : Args.t) (g : RNG) (m : LongNetViT.t) (g' : RNG)
    (n l q ii : nat) (querys contexts instructs : tensor3)
    (coords : Coords.t) (patch_size : spec_float) mask kpm (gen : RNG) :
  LongNetViT.__init__ a g = (Ok m, g') ->
  Args.slide_ngrids a ≠ 0 ->
  (forall s w s',
     make_longnet_from_name (encoder_name_of a) (Args.drop_path_rate a) (Args.dropout a)
       "[512, 1024, 2048, 4096, 8192]" s = (Ok w, s') ->
     encoder_dim w = Args.embed_dim a) ->
  shape3 n q (Args.embed_dim a) querys ->
  shape3 n l (Args.embed_dim a) contexts ->
  shape3 n ii (Args.embed_dim a) instructs ->
  shape2 n l (Coords.data coords) ->
  Forall (Forall (in_table (Args.slide_ngrids a ^ 2)))
    (LongNetViT.coords_to_pos m coords patch_size) ->
  mask_shape n ii mask -> mask_shape n l kpm ->
  LongNetViT.training m = true
  ∧ exists out gen',
      LongNetViT.forward querys contexts instructs coords patch_size mask kpm
        {| LongNetViT.model := m; LongNetViT.generator := gen |}
      = (Ok out, {| LongNetViT.model := m; LongNetViT.generator := gen' |})
      ∧ shape3 n q (Args.embed_dim a) out.
Proof.
  intros Hinit HG Henc Hq Hc Hi Hco Hgrid Hmask Hkpm.
  pose proof (init_wf a g m g' Hinit HG Henc) as Hwf.
  destruct (init_Ok_inv a g m g' Hinit) as (HGm & _ & Htr & _).
  split; [exact Htr|].
  assert (Hpos : Forall (Forall (in_table (LongNetViT.slide_ngrids m ^ 2)))
                   (LongNetViT.coords_to_pos m coords patch_size)).
  { rewrite HGm. exact Hgrid. }
  destruct (forward_total (Args.embed_dim a) m n l q ii querys contexts instructs
              coords patch_size mask kpm Hwf Hq Hc Hi Hco Hpos Hmask Hkpm
              {| LongNetViT.model := m; LongNetViT.generator := gen |} eq_refl)
    as (out & [m' gen'] & Hrun & Hout & Hm).
  simpl in Hm. subst m'. eauto.
Qed.

Lemma init_then_forward_witness :
  exists out gen',
    LongNetViT.forward Small.querys Small.contexts Small.instructs Small.corners Small.patch_size
      (Some [[1]]) (Some [[false; false; true; false]])
      {| LongNetViT.model := Small.model; LongNetViT.generator := 3%nat |}
    = (Ok out, {| LongNetViT.model := Small.model; LongNetViT.generator := gen' |})
    ∧ shape3 1 2 2 out.
Proof.
  assert (Hq : shape3 1 2 2 Small.querys) by (repeat constructor).
  assert (Hc : shape3 1 4 2 Small.contexts) by (repeat constructor).
  assert (Hi : shape3 1 1 2 Small.instructs) by (repeat constructor).
  assert (Hco : shape2 1 4 (Coords.data Small.corners)) by (repeat constructor).
  assert (Hgrid : Forall (Forall (in_table (Args.slide_ngrids Small.args ^ 2)))
                    (LongNetViT.coords_to_pos Small.model Small.corners Small.patch_size)).
  { repeat constructor; vm_compute; congruence. }
  assert (Hm : mask_shape 1 1 (Some [[1]])) by (repeat constructor).
  assert (Hk : mask_shape 1 4 (Some [[false; false; true; false]]))
    by (repeat constructor).
  assert (HG : Args.slide_ngrids Small.args ≠ 0) by discriminate.
  exact (proj2 (@init_then_forward Small.backend Small_laws Small_init_laws Small.args
                  0%nat Small.model 8%nat 1 4 2 1 Small.querys Small.contexts
                  Small.instructs Small.corners Small.patch_size (Some [[1]])
                  (Some [[false; false; true; false]]) 3%nat Small_init HG
                  (fun _ _ _ _ => eq_refl) Hq Hc Hi Hco Hgrid Hm Hk)).
Defined.

Lemma init_weights_fresh `{B : Backend} d :
  LongNetViT._init_weights (LayerNorm.__init__ d) = LayerNorm.__init__ d.
Proof.
  unfold LongNetViT._init_weights, LayerNorm.__init__. simpl. f_equal.
  - induction d as [|d IH]; simpl; [reflexivity | f_equal; exact IH].
  - induction d as [|d IH]; simpl; [reflexivity | f_equal; exact IH].
Qed.

(** X12. In a model the constructor returned every layer normalization of
    the fusion blocks has the weight one and the bias zero at each of its
    [D] positions and the eps 1e-5, every learned scale of the self-fusion
    blocks has the entry [1e-5 * 1] at each of its [D] positions and is not
    in place, and every self-fusion block normalizes before its
    sub-layers. *)
Theorem init_fresh_parameters `{B : Backend} (a : Args.t) (g : RNG)
    (m : LongNetViT.t) (g' : RNG) :
  LongNetViT.__init__ a g = (Ok m, g') ->
  let d := Args.embed_dim a in
  let norm := {| LayerNorm.normalized_shape := d; LayerNorm.eps := (1 # 100000)%Q;
                 LayerNorm.weight := replicate d (of_Q 1%Q);
                 LayerNorm.bias := replicate d (of_Q 0%Q) |} in
  let scale := {| LayerScale.inplace := false;
                  LayerScale.gamma :=
                    replicate d (fmul (of_Q (1 # 100000)%Q) (of_Q 1%Q)) |} in
  Forall (fun b =>
      TransformerBlock.pre_norm b = true
      ∧ TransformerBlock.norm1 b = norm ∧ TransformerBlock.norm2 b = norm
      ∧ TransformerBlock.layerscale1 b = scale ∧ TransformerBlock.layerscale2 b = scale)
    (LongNetViT.self_attention m)
  ∧ Forall (fun c => CrossAttention.norm c = norm) (LongNetViT.cross_attention m).
Proof.
  intros Hinit d norm scale.
  destruct (init_Ok_gen (fun _ => True)
              (fun b =>
                 TransformerBlock.pre_norm b = true
                 ∧ TransformerBlock.norm1 b = norm ∧ TransformerBlock.norm2 b = norm
                 ∧ TransformerBlock.layerscale1 b = scale
                 ∧ TransformerBlock.layerscale2 b = scale)
              (fun c => CrossAttention.norm c = norm) a g m g')
    as (_ & _ & _ & _ & _ & [_ Hs] & [_ Hc]); auto.
  - intros s b s' Hb. unfold TransformerBlock.__init__ in Hb.
    apply bind_Ok_inv in Hb. destruct Hb as (att & s1 & _ & Hb).
    apply bind_Ok_inv in Hb. destruct Hb as (f & s2 & _ & Hb).
    unfold ret in Hb. injection Hb as <- _. simpl. auto.
  - intros s c s' Hc. unfold CrossAttention.__init__ in Hc.
    apply bind_Ok_inv in Hc. destruct Hc as (att & s1 & _ & Hc).
    unfold ret in Hc. injection Hc as <- _. reflexivity.
  - intros b s b' s' (H1 & H2 & H3 & H4 & H5) Hb.
    unfold LongNetViT.apply_TransformerBlock in Hb.
    apply bind_Ok_inv in Hb. destruct Hb as (att & s1 & _ & Hb).
    apply bind_Ok_inv in Hb. destruct Hb as (f & s2 & _ & Hb).
    unfold ret in Hb. injection Hb as <- _. simpl.
    rewrite H2, H3. unfold norm. fold (LayerNorm.__init__ d).
    rewrite init_weights_fresh. auto.
  - intros c s c' s' Hn Hc. unfold LongNetViT.apply_CrossAttention in Hc.
    apply bind_Ok_inv in Hc. destruct Hc as (att & s1 & _ & Hc).
    unfold ret in Hc. injection Hc as <- _. simpl.
    rewrite Hn. unfold norm. fold (LayerNorm.__init__ d). apply init_weights_fresh.
Qed.

Lemma init_fresh_parameters_witness :
  Forall (fun c : @CrossAttention.t Small.backend =>
            @LayerNorm.weight Small.backend (CrossAttention.norm c) = [1; 1]
            ∧ @LayerNorm.bias Small.backend (CrossAttention.norm c) = [0; 0])
    (LongNetViT.cross_attention Small.model).
Proof.
  pose proof (proj2 (@init_fresh_parameters Small.backend Small.args 0%nat Small.model
                       8%nat Small_init)) as H.
  eapply Forall_impl; [exact H|]. intros c Hc. simpl in Hc. rewrite Hc. split; reflexivity.
Defined.

(** ** create_model *)

Section loader_facts.
Import Stdlib.Strings.Ascii.
Context {Net StateDict Kwargs H : Type}.
Implicit Types h : Loader.handler Net StateDict Kwargs H.

Lemma run_pbind {A C} h (p : Loader.prog Net StateDict Kwargs A)
    (k : A -> Loader.prog Net StateDict Kwargs C) (s : H) :
  Loader.run h (Loader.pbind p k) s
  = match Loader.run h p s with
    | (Ok x, s1, t1) =>
        match Loader.run h (k x) s1 with
        | (r, s2, t2) => (r, s2, t1 ++ t2)
        end
    | (Raise e, s1, t1) => (Raise e, s1, t1)
    end.
Proof.
  revert s. induction p as [a|e|X o f IH]; intros s; simpl.
  - destruct (Loader.run h (k a) s) as [[r s2] t2]. reflexivity.
  - reflexivity.
  - destruct (h X o s) as [[x|e] s1]; [|reflexivity].
    rewrite IH. destruct (Loader.run h (f x) s1) as [[[y|e] s2] t1]; [|reflexivity].
    destruct (Loader.run h (k y) s2) as [[r s3] t2]. reflexivity.
Qed.

Lemma run_prints_Ok h (line : string -> string) (keys : list string) (s : H) s' t :
  Loader.run h (Loader.for_each keys (fun k => Loader.call_op (Loader.Print (line k)))) s
    = (Ok tt, s', t) ->
  t = map (fun k => Loader.Call unit (Loader.Print (line k)) (Ok tt)) keys.
Proof.
  revert s t. induction keys as [|k keys IH]; intros s t Hrun; simpl in Hrun.
  - injection Hrun as _ <-. reflexivity.
  - destruct (h unit (Loader.Print (line k)) s) as [[[]|e] s1]; [|discriminate].
    destruct (Loader.run h _ s1) as [[r s2] t2] eqn:E.
    injection Hrun as -> -> <-. simpl. f_equal. eapply IH. exact E.
Qed.

Lemma run_never_throws {A} h (p : Loader.prog Net StateDict Kwargs A) (s : H) :
  Loader.never_throws p ->
  match Loader.run h p s with
  | (Ok _, _, t) => Forall Loader.answered_ok t
  | (Raise e, _, t) =>
      exists t0 c, t = t0 ++ [c] ∧ Forall Loader.answered_ok t0 ∧ Loader.answered_raise e c
  end.
Proof.
  revert s. induction p as [a|e|X o f IH]; intros s Hp; simpl in *.
  - constructor.
  - contradiction.
  - destruct (h X o s) as [[x|e] s1].
    + specialize (IH x s1 (Hp x)).
      destruct (Loader.run h (f x) s1) as [[[y|e] s2] t].
      * constructor; [exact I | exact IH].
      * destruct IH as (t0 & c & -> & H0 & Hc).
        exists (Loader.Call X o (Ok x) :: t0), c.
        split; [reflexivity|]. split; [constructor; [exact I | exact H0] | exact Hc].
    + exists [], (Loader.Call X o (Raise e)). split; [reflexivity|].
      split; [constructor | reflexivity].
Qed.

Lemma never_throws_pbind {A C} (p : Loader.prog Net StateDict Kwargs A)
    (k : A -> Loader.prog Net StateDict Kwargs C) :
  Loader.never_throws p -> (forall a, Loader.never_throws (k a)) ->
  Loader.never_throws (Loader.pbind p k).
Proof.
  intros Hp Hk. induction p as [a|e|X o f IH]; simpl in *; auto.
Qed.

Lemma never_throws_for_each (keys : list string)
    (body : string -> Loader.prog Net StateDict Kwargs unit) :
  (forall k, Loader.never_throws (body k)) -> Loader.never_throws (Loader.for_each keys body).
Proof.
  intros Hb. induction keys as [|k keys IH]; simpl; [exact I|].
  apply never_throws_pbind; auto.
Qed.
End loader_facts.

(** *** The strings of create_model *)

Section string_facts.
Import Stdlib.Strings.Ascii.

Lemma split_nonempty sep s : Loader.split sep s ≠ [].
Proof.
  destruct s as [|c s]; simpl; [discriminate|].
  destruct (Ascii.eqb c sep); [discriminate|].
  destruct (Loader.split sep s); discriminate.
Qed.

Lemma join_split sep s : Loader.join sep (Loader.split sep s) = s.
Proof.
  induction s as [|c s IH]; simpl; [reflexivity|].
  destruct (Ascii.eqb c sep) eqn:E.
  - apply Ascii.eqb_eq in E. subst c.
    destruct (Loader.split sep s) as [|p ps] eqn:Es; [destruct (split_nonempty _ _ Es)|].
    simpl. simpl in IH. rewrite IH. reflexivity.
  - destruct (Loader.split sep s) as [|p ps] eqn:Es; [destruct (split_nonempty _ _ Es)|].
    simpl in *. destruct ps as [|p' ps]; simpl in *; rewrite <- IH; reflexivity.
Qed.
End string_facts.

Section string_facts2.
Import Stdlib.Strings.Ascii.

Lemma split_no_sep sep s :
  Forall (fun p => Loader.has_char sep p = false) (Loader.split sep s).
Proof.
  induction s as [|c s IH]; simpl; [repeat constructor|].
  destruct (Ascii.eqb c sep) eqn:E.
  - constructor; [reflexivity | exact IH].
  - destruct (Loader.split sep s) as [|p ps]; [repeat constructor; simpl; rewrite E; reflexivity|].
    inversion IH as [|? ? Hp Hps]; subst. constructor; [|exact Hps].
    simpl. rewrite E, Hp. reflexivity.
Qed.

Lemma prefix_app (p s : string) :
  String.prefix p s = true -> exists rest, s = p +:+ rest.
Proof.
  revert s. induction p as [|a p IH]; intros s H.
  - exists s. reflexivity.
  - destruct s as [|b s]; simpl in H; [discriminate|].
    destruct (Ascii.ascii_dec a b) as [->|]; [|discriminate].
    destruct (IH s H) as [rest ->]. exists rest. reflexivity.
Qed.

Lemma split_hub (rest : string) :
  Loader.split ":" ("hf_hub:" +:+ rest) = "hf_hub" :: Loader.split ":" rest.
Proof.
  change ("hf_hub:" +:+ rest)
    with (String "h" (String "f" (String "_" (String "h" (String "u" (String "b"
            (String ":" rest))))))).
  cbn [Loader.split Ascii.eqb Bool.eqb].
  destruct (Loader.split ":" rest) eqn:E; reflexivity.
Qed.

(** What [pretrained.split(":")[1]] is for a name of the hub. *)
Lemma hub_name_of (pretrained : string) :
  String.prefix "hf_hub:" pretrained = true ->
  exists rest hub,
    pretrained = "hf_hub:" +:+ rest
    ∧ Loader.split ":" pretrained !! 1%nat = Some hub
    ∧ Loader.has_char ":" hub = false
    ∧ (rest = hub ∨ exists more, rest = hub +:+ String ":" more).
Proof.
  intros H. destruct (prefix_app _ _ H) as [rest ->].
  rewrite split_hub.
  pose proof (split_no_sep ":" rest) as Hno. pose proof (join_split ":" rest) as Hj.
  destruct (Loader.split ":" rest) as [|hub ps] eqn:Es; [destruct (split_nonempty _ _ Es)|].
  exists rest, hub. split; [reflexivity|]. split; [reflexivity|].
  split; [exact (Forall_inv Hno)|].
  destruct ps as [|p ps]; simpl in Hj.
  - left. congruence.
  - right. eexists. symmetry. exact Hj.
Qed.
End string_facts2.

Section create_model_facts.
Import Stdlib.Strings.Ascii.
Context {Net StateDict Kwargs H : Type}.
Implicit Types h : Loader.handler Net StateDict Kwargs H.

(** The operations of a run of [create_model] that returned. *)
Lemma create_model_Ok_trace h pretrained model_arch tile_size local_dir
    (kwargs : Kwargs) (s : H) net s' t :
  Loader.run h (Loader.create_model pretrained model_arch tile_size local_dir kwargs) s
    = (Ok net, s', t) ->
  exists pre path found tail,
    t = Loader.Call Net (Loader.CreateModel Kwargs model_arch tile_size kwargs) (Ok net)
          :: pre ++ Loader.Call bool (Loader.PathExists path) (Ok found) :: tail
    ∧ (if String.prefix "hf_hub:" pretrained
       then exists hub,
              Loader.split ":" pretrained !! 1%nat = Some hub
              ∧ pre = [Loader.Call unit
                         (Loader.HubDownload hub "slide_encoder.pth" local_dir) (Ok tt)]
              ∧ path = Loader.path_join local_dir "slide_encoder.pth"
       else pre = [] ∧ path = pretrained)
    ∧ (if found
       then exists sd missing unexpected,
              tail = Loader.Call StateDict (Loader.TorchLoad path) (Ok sd)
                     :: Loader.Call _ (Loader.LoadStateDict net sd) (Ok (missing, unexpected))
                     :: map (fun k => Loader.Call unit
                                        (Loader.Print (Loader.missing_line k)) (Ok tt))
                          missing
                     ++ map (fun k => Loader.Call unit
                                        (Loader.Print (Loader.unexpected_line k)) (Ok tt))
                          unexpected
                     ++ [Loader.Call unit
                           (Loader.Print (Loader.loaded_message pretrained)) (Ok tt)]
       else tail = [Loader.Call unit
                      (Loader.Print (Loader.not_found_message path)) (Ok tt)]).
Proof.
  unfold Loader.create_model. intros Hrun.
  rewrite run_pbind in Hrun. cbn [Loader.run Loader.call_op] in Hrun.
  destruct (h Net (Loader.CreateModel Kwargs model_arch tile_size kwargs) s)
    as [[model|e] s1]; [|discriminate].
  rewrite run_pbind in Hrun.
  match type of Hrun with
  | context [Loader.run h ?p s1] => destruct (Loader.run h p s1) as [[[path|e] s2] pre] eqn:Epath
  end; [|discriminate].
  rewrite run_pbind in Hrun. cbn [Loader.run Loader.call_op] in Hrun.
  destruct (h bool (Loader.PathExists path) s2) as [[found|e] s3]; [|discriminate].
  rewrite run_pbind in Hrun.
  match type of Hrun with
  | context [Loader.run h ?p s3] => destruct (Loader.run h p s3) as [[[[]|e] s4] tail] eqn:Etail
  end; [|discriminate].
  cbn [Loader.run] in Hrun. injection Hrun as <- <- <-.
  exists pre, path, found, tail. split.
  { cbn [app]. rewrite app_nil_r. reflexivity. }
  split.
  - destruct (String.prefix "hf_hub:" pretrained).
    + destruct (Loader.split ":" pretrained !! 1%nat) as [hub|]; [|discriminate].
      exists hub. split; [reflexivity|].
      rewrite run_pbind in Epath. cbn [Loader.run Loader.call_op] in Epath.
      destruct (h unit (Loader.HubDownload hub "slide_encoder.pth" local_dir) s1)
        as [[[]|e] s5]; [|discriminate].
      injection Epath as <- _ <-. split; reflexivity.
    + cbn [Loader.run] in Epath. injection Epath as <- _ <-. split; reflexivity.
  - destruct found.
    + rewrite run_pbind in Etail. cbn [Loader.run Loader.call_op] in Etail.
      destruct (h StateDict (Loader.TorchLoad path) s3) as [[sd|e] s5]; [|discriminate].
      rewrite run_pbind in Etail. cbn [Loader.run Loader.call_op] in Etail.
      destruct (h _ (Loader.LoadStateDict model sd) s5) as [[[missing unexpected]|e] s6];
        [|discriminate].
      exists sd, missing, unexpected. cbn [fst snd] in Etail.
      rewrite run_pbind in Etail.
      match type of Etail with
      | context [Loader.run h ?p s6] =>
          destruct (Loader.run h p s6) as [[[[]|e] s7] t1] eqn:E1
      end; [|discriminate].
      rewrite run_pbind in Etail.
      match type of Etail with
      | context [Loader.run h ?p s7] =>
          destruct (Loader.run h p s7) as [[[[]|e] s8] t2] eqn:E2
      end; [|discriminate].
      cbn [Loader.run Loader.call_op] in Etail.
      destruct (h unit (Loader.Print (Loader.loaded_message pretrained)) s8)
        as [[[]|e] s9]; [|discriminate].
      injection Etail as _ <-.
      assert (Ht1 : t1 = map (fun k => Loader.Call unit
                                         (Loader.Print (Loader.missing_line k)) (Ok tt))
                           missing).
      { destruct missing as [|k ks].
        - cbn in E1. injection E1 as _ <-. reflexivity.
        - cbn [length Nat.ltb Nat.leb] in E1. eapply run_prints_Ok. exact E1. }
      assert (Ht2 : t2 = map (fun k => Loader.Call unit
                                         (Loader.Print (Loader.unexpected_line k)) (Ok tt))
                           unexpected).
      { destruct unexpected as [|k ks].
        - cbn in E2. injection E2 as _ <-. reflexivity.
        - cbn [length Nat.ltb Nat.leb] in E2. eapply run_prints_Ok. exact E2. }
      subst t1 t2. cbn [app]. rewrite <- ?app_assoc. reflexivity.
    + cbn [Loader.run Loader.call_op] in Etail.
      destruct (h unit (Loader.Print (Loader.not_found_message path)) s3)
        as [[[]|e] s5]; [|discriminate].
      injection Etail as _ <-. reflexivity.
Qed.

Lemma create_model_never_throws pretrained model_arch tile_size local_dir (kwargs : Kwargs) :
  Loader.never_throws
    (Loader.create_model (Net := Net) (StateDict := StateDict)
       pretrained model_arch tile_size local_dir kwargs).
Proof.
  unfold Loader.create_model.
  apply never_throws_pbind; [intros x; exact I|]. intros model.
  apply never_throws_pbind.
  { destruct (String.prefix "hf_hub:" pretrained) eqn:E; [|exact I].
    destruct (hub_name_of pretrained E) as (rest & hub & _ & -> & _).
    apply never_throws_pbind; [intros x; exact I | intros _; exact I]. }
  intros path. apply never_throws_pbind; [intros x; exact I|]. intros found.
  apply never_throws_pbind; [|intros _; exact I].
  destruct found; [|intros x; exact I].
  apply never_throws_pbind; [intros x; exact I|]. intros sd.
  apply never_throws_pbind; [intros x; exact I|]. intros keys.
  apply never_throws_pbind.
  { destruct (0 <? length keys.1)%nat; [|exact I].
    apply never_throws_for_each. intros k x. exact I. }
  intros _. apply never_throws_pbind.
  { destruct (0 <? length keys.2)%nat; [|exact I].
    apply never_throws_for_each. intros k x. exact I. }
  intros _ x. exact I.
Qed.
End create_model_facts.

Section create_model_theorems.
Import Stdlib.Strings.Ascii.
Context {Net StateDict Kwargs H : Type}.
Implicit Types h : Loader.handler Net StateDict Kwargs H.

Lemma flat_map_prints {C} (f : Loader.call Net StateDict Kwargs -> list C)
    (line : string -> string) (keys : list string) :
  (forall l, f (Loader.Call unit (Loader.Print l) (Ok tt)) = []) ->
  flat_map f (map (fun k => Loader.Call unit (Loader.Print (line k)) (Ok tt)) keys) = [].
Proof.
  intros Hf. induction keys as [|k keys IH]; simpl; [reflexivity|].
  rewrite Hf, IH. reflexivity.
Qed.

Lemma printed_prints (line : string -> string) (keys : list string) :
  Loader.printed
    (map (fun k => Loader.Call (Net := Net) (StateDict := StateDict) (Kwargs := Kwargs)
                     unit (Loader.Print (line k)) (Ok tt)) keys)
  = map line keys.
Proof.
  induction keys as [|k keys IH]; simpl; [reflexivity|]. f_equal. exact IH.
Qed.

Lemma printed_app (t1 t2 : list (Loader.call Net StateDict Kwargs)) :
  Loader.printed (t1 ++ t2) = Loader.printed t1 ++ Loader.printed t2.
Proof. apply flat_map_app. Qed.

Lemma downloads_app (t1 t2 : list (Loader.call Net StateDict Kwargs)) :
  Loader.downloads (t1 ++ t2) = Loader.downloads t1 ++ Loader.downloads t2.
Proof. apply flat_map_app. Qed.

Lemma paths_tested_app (t1 t2 : list (Loader.call Net StateDict Kwargs)) :
  Loader.paths_tested (t1 ++ t2) = Loader.paths_tested t1 ++ Loader.paths_tested t2.
Proof. apply flat_map_app. Qed.

Lemma checkpoints_read_app (t1 t2 : list (Loader.call Net StateDict Kwargs)) :
  Loader.checkpoints_read (t1 ++ t2)
  = Loader.checkpoints_read t1 ++ Loader.checkpoints_read t2.
Proof. apply flat_map_app. Qed.

Lemma state_dicts_loaded_app (t1 t2 : list (Loader.call Net StateDict Kwargs)) :
  Loader.state_dicts_loaded (t1 ++ t2)
  = Loader.state_dicts_loaded t1 ++ Loader.state_dicts_loaded t2.
Proof. apply flat_map_app. Qed.

Lemma models_created_app (t1 t2 : list (Loader.call Net StateDict Kwargs)) :
  Loader.models_created (t1 ++ t2) = Loader.models_created t1 ++ Loader.models_created t2.
Proof. apply flat_map_app. Qed.

Lemma downloads_prints (line : string -> string) (keys : list string) :
  Loader.downloads
    (map (fun k => Loader.Call (Net := Net) (StateDict := StateDict) (Kwargs := Kwargs)
                     unit (Loader.Print (line k)) (Ok tt)) keys) = [].
Proof. apply flat_map_prints. reflexivity. Qed.

Lemma paths_tested_prints (line : string -> string) (keys : list string) :
  Loader.paths_tested
    (map (fun k => Loader.Call (Net := Net) (StateDict := StateDict) (Kwargs := Kwargs)
                     unit (Loader.Print (line k)) (Ok tt)) keys) = [].
Proof. apply flat_map_prints. reflexivity. Qed.

Lemma checkpoints_read_prints (line : string -> string) (keys : list string) :
  Loader.checkpoints_read
    (map (fun k => Loader.Call (Net := Net) (StateDict := StateDict) (Kwargs := Kwargs)
                     unit (Loader.Print (line k)) (Ok tt)) keys) = [].
Proof. apply flat_map_prints. reflexivity. Qed.

Lemma state_dicts_loaded_prints (line : string -> string) (keys : list string) :
  Loader.state_dicts_loaded
    (map (fun k => Loader.Call (Net := Net) (StateDict := StateDict) (Kwargs := Kwargs)
                     unit (Loader.Print (line k)) (Ok tt)) keys) = [].
Proof. apply flat_map_prints. reflexivity. Qed.

Lemma models_created_prints (line : string -> string) (keys : list string) :
  Loader.models_created
    (map (fun k => Loader.Call (Net := Net) (StateDict := StateDict) (Kwargs := Kwargs)
                     unit (Loader.Print (line k)) (Ok tt)) keys) = [].
Proof. apply flat_map_prints. reflexivity. Qed.

(** The trace of a run of [create_model] that returned, cut at its
    operations *)
Lemma create_model_Ok_pieces h pretrained model_arch tile_size local_dir
    (kwargs : Kwargs) (s : H) net s' t :
  Loader.run h (Loader.create_model pretrained model_arch tile_size local_dir kwargs) s
    = (Ok net, s', t) ->
  exists pre path found tail,
    t = [Loader.Call Net (Loader.CreateModel Kwargs model_arch tile_size kwargs) (Ok net)]
        ++ pre ++ [Loader.Call bool (Loader.PathExists path) (Ok found)] ++ tail
    ∧ (if String.prefix "hf_hub:" pretrained
       then exists hub,
              Loader.split ":" pretrained !! 1%nat = Some hub
              ∧ pre = [Loader.Call unit
                         (Loader.HubDownload hub "slide_encoder.pth" local_dir) (Ok tt)]
              ∧ path = Loader.path_join local_dir "slide_encoder.pth"
       else pre = [] ∧ path = pretrained)
    ∧ (if found
       then exists sd missing unexpected,
              tail = [Loader.Call StateDict (Loader.TorchLoad path) (Ok sd)]
                     ++ [Loader.Call (list string * list string)
                           (Loader.LoadStateDict net sd) (Ok (missing, unexpected))]
                     ++ map (fun k => Loader.Call unit
                                        (Loader.Print (Loader.missing_line k)) (Ok tt))
                          missing
                     ++ map (fun k => Loader.Call unit
                                        (Loader.Print (Loader.unexpected_line k)) (Ok tt))
                          unexpected
                     ++ [Loader.Call unit
                           (Loader.Print (Loader.loaded_message pretrained)) (Ok tt)]
       else tail = [Loader.Call unit
                      (Loader.Print (Loader.not_found_message path)) (Ok tt)]).
Proof.
  intros Hrun.
  destruct (create_model_Ok_trace _ _ _ _ _ _ _ _ _ _ Hrun)
    as (pre & path & found & tail & -> & Hpre & Htail).
  exists pre, path, found, tail. split; [reflexivity|]. split; [exact Hpre|].
  destruct found; [|exact Htail].
  destruct Htail as (sd & missing & unexpected & ->).
  exists sd, missing, unexpected. reflexivity.
Qed.

Ltac trace_facts :=
  rewrite ?printed_app, ?downloads_app, ?paths_tested_app, ?checkpoints_read_app,
    ?state_dicts_loaded_app, ?models_created_app,
    ?printed_prints, ?downloads_prints, ?paths_tested_prints, ?checkpoints_read_prints,
    ?state_dicts_loaded_prints, ?models_created_prints.

(** X13. A checkpoint that is not there is no failure: when the registry
    builds the model and the console takes the lines, and no file exists at
    the path that is tested, [create_model] returns the model as the
    registry built it, reads no checkpoint, loads no state dict, whatever
    reading or loading would have done, and prints the one line that says
    where no weights were found. *)
Theorem create_model_missing_checkpoint h pretrained model_arch tile_size local_dir
    (kwargs : Kwargs) (s : H) :
  (forall s0, exists net s1,
     h Net (Loader.CreateModel Kwargs model_arch tile_size kwargs) s0 = (Ok net, s1)) ->
  (forall hub s0, exists s1,
     h unit (Loader.HubDownload hub "slide_encoder.pth" local_dir) s0 = (Ok tt, s1)) ->
  (forall path s0, exists s1, h bool (Loader.PathExists path) s0 = (Ok false, s1)) ->
  (forall line s0, exists s1, h unit (Loader.Print line) s0 = (Ok tt, s1)) ->
  exists net s' t path,
    Loader.run h (Loader.create_model pretrained model_arch tile_size local_dir kwargs) s
      = (Ok net, s', t)
    ∧ Loader.models_created t = [(model_arch, tile_size, kwargs, Ok net)]
    ∧ Loader.paths_tested t = [(path, Ok false)]
    ∧ path = (if String.prefix "hf_hub:" pretrained
              then Loader.path_join local_dir "slide_encoder.pth" else pretrained)
    ∧ Loader.checkpoints_read t = []
    ∧ Loader.state_dicts_loaded t = []
    ∧ Loader.printed t = [Loader.not_found_message path].
Proof.
  intros Hc Hd He Hp. unfold Loader.create_model.
  destruct (Hc s) as (net & s1 & Ec).
  rewrite run_pbind. cbn [Loader.run Loader.call_op]. rewrite Ec.
  destruct (String.prefix "hf_hub:" pretrained) eqn:Epre.
  - destruct (hub_name_of pretrained Epre) as (rest & hub & _ & Ehub & _). rewrite Ehub.
    destruct (Hd hub s1) as (s2 & Ed).
    rewrite !run_pbind. cbn [Loader.run Loader.call_op]. rewrite Ed.
    cbn [Loader.run]. rewrite !run_pbind. cbn [Loader.run Loader.call_op].
    destruct (He (Loader.path_join local_dir "slide_encoder.pth") s2) as (s3 & Ee).
    rewrite Ee. cbn [Loader.run Loader.call_op].
    destruct (Hp (Loader.not_found_message (Loader.path_join local_dir "slide_encoder.pth"))
                s3) as (s4 & Epr).
    rewrite ?run_pbind. cbn [Loader.run Loader.call_op]. rewrite Epr. cbn [Loader.run app].
    eexists net, s4, _, _. split; [reflexivity|]. repeat split; reflexivity.
  - repeat first [rewrite run_pbind | progress cbn [Loader.run Loader.call_op]].
    destruct (He pretrained s1) as (s3 & Ee). rewrite Ee. cbn [Loader.run Loader.call_op].
    destruct (Hp (Loader.not_found_message pretrained) s3) as (s4 & Epr).
    rewrite ?run_pbind. cbn [Loader.run Loader.call_op]. rewrite Epr. cbn [Loader.run app].
    eexists net, s4, _, _. split; [reflexivity|]. repeat split; reflexivity.
Qed.

(** X14. Which checkpoint a run of [create_model] that returned has looked
    for. A name that does not start with [hf_hub:] is taken as a path: no
    download takes place and the path tested is the name itself. For a name
    [hf_hub:] followed by [rest], the one download asks the hub for the
    text of [rest] up to its first colon (all of [rest] when it has none)
    and the file [slide_encoder.pth] into [local_dir], and the path tested
    is that file name joined to [local_dir]. *)
Theorem create_model_checkpoint_path h pretrained model_arch tile_size local_dir
    (kwargs : Kwargs) (s : H) net s' t :
  Loader.run h (Loader.create_model pretrained model_arch tile_size local_dir kwargs) s
    = (Ok net, s', t) ->
  (String.prefix "hf_hub:" pretrained = false ->
     Loader.downloads t = []
     ∧ exists found, Loader.paths_tested t = [(pretrained, Ok found)])
  ∧ (String.prefix "hf_hub:" pretrained = true ->
     exists rest hub,
       pretrained = "hf_hub:" +:+ rest
       ∧ Loader.has_char ":" hub = false
       ∧ (rest = hub ∨ exists more, rest = hub +:+ String ":" more)
       ∧ Loader.downloads t = [(hub, "slide_encoder.pth", local_dir)]
       ∧ exists found,
           Loader.paths_tested t
           = [(Loader.path_join local_dir "slide_encoder.pth", Ok found)]).
Proof.
  intros Hrun.
  destruct (create_model_Ok_pieces _ _ _ _ _ _ _ _ _ _ Hrun)
    as (pre & path & found & tail & -> & Hpre & Htail).
  assert (Htail' : Loader.downloads tail = [] ∧ Loader.paths_tested tail = []).
  { destruct found.
    - destruct Htail as (sd & missing & unexpected & ->). split; trace_facts; reflexivity.
    - subst tail. split; reflexivity. }
  destruct Htail' as [Hd Hp]. trace_facts. rewrite Hd, Hp.
  split; intros Epre; rewrite Epre in Hpre.
  - destruct Hpre as [-> ->]. split; [reflexivity|]. exists found. reflexivity.
  - destruct Hpre as (hub & Ehub & -> & ->).
    destruct (hub_name_of pretrained Epre) as (rest & hub' & Erest & Ehub' & Hno & Hrest).
    rewrite Ehub in Ehub'. injection Ehub' as <-.
    exists rest, hub. split; [exact Erest|]. split; [exact Hno|]. split; [exact Hrest|].
    split; [reflexivity|]. exists found. reflexivity.
Qed.

(** X15. What a run of [create_model] that found its checkpoint has done:
    it has read the checkpoint at the path it tested, loaded that state
    dict into the model the registry built, which is the model it returns,
    and printed one line for each missing key, in their order, then one
    line for each unexpected key, then the line of success, which names
    [pretrained] as the caller gave it; missing and unexpected keys stop
    nothing. *)
Theorem create_model_load_report h pretrained model_arch tile_size local_dir
    (kwargs : Kwargs) (s : H) net s' t path :
  Loader.run h (Loader.create_model pretrained model_arch tile_size local_dir kwargs) s
    = (Ok net, s', t) ->
  Loader.paths_tested t = [(path, Ok true)] ->
  exists sd missing unexpected,
    Loader.models_created t = [(model_arch, tile_size, kwargs, Ok net)]
    ∧ Loader.checkpoints_read t = [(path, Ok sd)]
    ∧ Loader.state_dicts_loaded t = [(net, sd, Ok (missing, unexpected))]
    ∧ Loader.printed t
      = map Loader.missing_line missing ++ map Loader.unexpected_line unexpected
        ++ [Loader.loaded_message pretrained].
Proof.
  intros Hrun Hpath.
  destruct (create_model_Ok_pieces _ _ _ _ _ _ _ _ _ _ Hrun)
    as (pre & path0 & found & tail & -> & Hpre & Htail).
  assert (Hpre' : Loader.paths_tested pre = [] ∧ Loader.models_created pre = []
                  ∧ Loader.checkpoints_read pre = [] ∧ Loader.state_dicts_loaded pre = []
                  ∧ Loader.printed pre = []).
  { destruct (String.prefix "hf_hub:" pretrained).
    - destruct Hpre as (hub & _ & -> & _). repeat split; reflexivity.
    - destruct Hpre as [-> _]. repeat split; reflexivity. }
  destruct Hpre' as (P1 & P2 & P3 & P4 & P5).
  revert Hpath. trace_facts. rewrite P1, P2, P3, P4, P5.
  destruct found.
  - destruct Htail as (sd & missing & unexpected & ->). trace_facts.
    intros [= ->]. exists sd, missing, unexpected. repeat split; reflexivity.
  - subst tail. discriminate.
Qed.

(** X16. No failure of the outside is caught: when a run of [create_model]
    raises, the last operation of its trace is the one that failed, with
    the exception the run raises, and every operation before it had
    succeeded. A failed download, a checkpoint that cannot be read or a
    state dict that cannot be loaded thus end the run, unlike a checkpoint
    that is not there; the index into the pieces of the hub name is never
    out of range. *)
Theorem create_model_error_propagates h pretrained model_arch tile_size local_dir
    (kwargs : Kwargs) (s : H) e s' t :
  Loader.run h (Loader.create_model pretrained model_arch tile_size local_dir kwargs) s
    = (Raise e, s', t) ->
  exists t0 c,
    t = t0 ++ [c] ∧ Forall Loader.answered_ok t0 ∧ Loader.answered_raise e c.
Proof.
  intros Hrun.
  pose proof (run_never_throws h _ s
                (create_model_never_throws pretrained model_arch tile_size local_dir kwargs))
    as Hshape.
  rewrite Hrun in Hshape. exact Hshape.
Qed.
End create_model_theorems.

Section create_model_witnesses.
Import Stdlib.Strings.Ascii.

Lemma create_model_missing_checkpoint_witness :
  exists net s' t path,
    Loader.run SmallHost.bare
      (Loader.create_model "hf_hub:prov-gigapath/prov-gigapath" "gigapath_slide_enc12l768d"
         256 "/tmp" tt) []
      = (Ok net, s', t)
    ∧ Loader.models_created t = [("gigapath_slide_enc12l768d", 256, tt, Ok net)]
    ∧ Loader.paths_tested t = [(path, Ok false)]
    ∧ path = (if String.prefix "hf_hub:" "hf_hub:prov-gigapath/prov-gigapath"
              then Loader.path_join "/tmp" "slide_encoder.pth"
              else "hf_hub:prov-gigapath/prov-gigapath")
    ∧ Loader.checkpoints_read t = []
    ∧ Loader.state_dicts_loaded t = []
    ∧ Loader.printed t = [Loader.not_found_message path].
Proof.
  apply (create_model_missing_checkpoint SmallHost.bare
           "hf_hub:prov-gigapath/prov-gigapath" "gigapath_slide_enc12l768d" 256 "/tmp" tt []).
  - intros s0. exists 1%nat, s0. reflexivity.
  - intros hub s0. eexists. reflexivity.
  - intros path s0. exists s0. reflexivity.
  - intros line s0. exists s0. reflexivity.
Defined.

Lemma create_model_checkpoint_path_witness :
  (String.prefix "hf_hub:" "hf_hub:prov-gigapath/prov-gigapath:main" = false ->
     Loader.downloads
       (Loader.run SmallHost.answer
          (Loader.create_model "hf_hub:prov-gigapath/prov-gigapath:main"
             "gigapath_slide_enc12l768d" 256 "/tmp" tt) []).2 = []
     ∧ exists found,
         Loader.paths_tested
           (Loader.run SmallHost.answer
              (Loader.create_model "hf_hub:prov-gigapath/prov-gigapath:main"
                 "gigapath_slide_enc12l768d" 256 "/tmp" tt) []).2
         = [("hf_hub:prov-gigapath/prov-gigapath:main", Ok found)])
  ∧ (String.prefix "hf_hub:" "hf_hub:prov-gigapath/prov-gigapath:main" = true ->
     exists rest hub,
       "hf_hub:prov-gigapath/prov-gigapath:main" = "hf_hub:" +:+ rest
       ∧ Loader.has_char ":" hub = false
       ∧ (rest = hub ∨ exists more, rest = hub +:+ String ":" more)
       ∧ Loader.downloads
           (Loader.run SmallHost.answer
              (Loader.create_model "hf_hub:prov-gigapath/prov-gigapath:main"
                 "gigapath_slide_enc12l768d" 256 "/tmp" tt) []).2
         = [(hub, "slide_encoder.pth", "/tmp")]
       ∧ exists found,
           Loader.paths_tested
             (Loader.run SmallHost.answer
                (Loader.create_model "hf_hub:prov-gigapath/prov-gigapath:main"
                   "gigapath_slide_enc12l768d" 256 "/tmp" tt) []).2
           = [(Loader.path_join "/tmp" "slide_encoder.pth", Ok found)]).
Proof.
  apply (create_model_checkpoint_path SmallHost.answer
           "hf_hub:prov-gigapath/prov-gigapath:main" "gigapath_slide_enc12l768d" 256 "/tmp"
           tt [] 1%nat ["/tmp/slide_encoder.pth"]).
  reflexivity.
Defined.

Lemma create_model_load_report_witness :
  exists sd missing unexpected,
    Loader.models_created
      (Loader.run SmallHost.answer
         (Loader.create_model "/data/slide_encoder.pth" "gigapath_slide_enc12l768d"
            256 "/tmp" tt) ["/data/slide_encoder.pth"]).2
    = [("gigapath_slide_enc12l768d", 256, tt, Ok 1%nat)]
    ∧ Loader.checkpoints_read
        (Loader.run SmallHost.answer
           (Loader.create_model "/data/slide_encoder.pth" "gigapath_slide_enc12l768d"
              256 "/tmp" tt) ["/data/slide_encoder.pth"]).2
      = [("/data/slide_encoder.pth", Ok sd)]
    ∧ Loader.state_dicts_loaded
        (Loader.run SmallHost.answer
           (Loader.create_model "/data/slide_encoder.pth" "gigapath_slide_enc12l768d"
              256 "/tmp" tt) ["/data/slide_encoder.pth"]).2
      = [(1%nat, sd, Ok (missing, unexpected))]
    ∧ Loader.printed
        (Loader.run SmallHost.answer
           (Loader.create_model "/data/slide_encoder.pth" "gigapath_slide_enc12l768d"
              256 "/tmp" tt) ["/data/slide_encoder.pth"]).2
      = map Loader.missing_line missing ++ map Loader.unexpected_line unexpected
        ++ [Loader.loaded_message "/data/slide_encoder.pth"].
Proof.
  apply (create_model_load_report SmallHost.answer "/data/slide_encoder.pth"
           "gigapath_slide_enc12l768d" 256 "/tmp" tt ["/data/slide_encoder.pth"] 1%nat
           ["/data/slide_encoder.pth"] _ "/data/slide_encoder.pth");
    reflexivity.
Defined.

Lemma create_model_error_propagates_witness :
  exists t0 c,
    (Loader.run SmallHost.offline
       (Loader.create_model "hf_hub:prov-gigapath/prov-gigapath" "gigapath_slide_enc12l768d"
          256 "/tmp" tt) []).2
    = t0 ++ [c]
    ∧ Forall Loader.answered_ok t0 ∧ Loader.answered_raise RuntimeError c.
Proof.
  apply (create_model_error_propagates SmallHost.offline
           "hf_hub:prov-gigapath/prov-gigapath" "gigapath_slide_enc12l768d" 256 "/tmp" tt
           [] RuntimeError []).
  reflexivity.
Defined.
End create_model_witnesses.
